(** * SyntaxTual: analysis engine, model client, rule set and conversation store

    A shallow embedding of the TypeScript services of the extension
    ([services/codeAnalyzer.ts], [services/openaiService.ts], the
    conversation manager and the configuration manager) together with the
    properties stated about them.

    Conventions of the embedding.
    - JavaScript strings are [string]; their length is counted in characters
      of the Rocq string, which agrees with JavaScript on ASCII text.
    - Line numbers and timestamps are [Z]: the code only applies [+], [-],
      [Math.max] and [Math.min] to them.
    - A JavaScript [Map] keeps its entries in insertion order and [set] on an
      existing key keeps the entry's position; it is an association list
      ([JsMap]) because [values()] exposes that order.
    - An object literal used as a lookup table is a list of its own
      properties.
    - Every function of the classes mutates the object's fields and may
      throw; it is a state transformer returning [Normal v] or [Throw e]
      together with the state reached, so that what was mutated before a
      [throw] stays mutated.
    - What the host editor, the JavaScript runtime and the remote endpoint
      answer is read from an environment [Env], indexed by the number of
      answers already consumed, so that the same question may get a different
      answer later in a run. *)

From Stdlib Require Import String Ascii List ZArith Lia Bool Arith DecimalString.
Import ListNotations.
Local Open Scope string_scope.
Local Open Scope list_scope.

Set Implicit Arguments.

(** String concatenation, the [+] of JavaScript strings and the glue of
    template literals. *)
Infix "+++" := String.append (right associativity, at level 60).

(** ** JavaScript built-ins used by the services *)

Definition nl : string := String "010"%char EmptyString.

(** [Map<string, V>]: insertion-ordered, keys compared with [===]. *)
Module JsMap.
Definition t (V : Type) : Type := list (string * V).

Definition empty {V : Type} : t V := [].

Fixpoint get {V : Type} (k : string) (m : t V) : option V :=
  match m with
  | [] => None
  | (k', v) :: m' => if String.eqb k k' then Some v else get k m'
  end.

(** [set] overwrites the value of an existing key where it stands and
    appends a new key at the end. *)
Fixpoint set {V : Type} (k : string) (v : V) (m : t V) : t V :=
  match m with
  | [] => [(k, v)]
  | (k', v') :: m' =>
      if String.eqb k k' then (k', v) :: m' else (k', v') :: set k v m'
  end.

Fixpoint delete {V : Type} (k : string) (m : t V) : t V :=
  match m with
  | [] => []
  | (k', v') :: m' =>
      if String.eqb k k' then delete k m' else (k', v') :: delete k m'
  end.

Definition keys {V : Type} (m : t V) : list string := map fst m.
Definition values {V : Type} (m : t V) : list V := map snd m.

(** How many entries a key has; a [Map] never has more than one. *)
Definition occurrences {V : Type} (k : string) (m : t V) : nat :=
  length (filter (fun kv => String.eqb k (fst kv)) m).

Definition wf {V : Type} (m : t V) : Prop := NoDup (keys m).
End JsMap.

(** [table[key]] on an object literal: the value of the own property, or
    [undefined]. *)
Fixpoint prop {V : Type} (table : list (string * V)) (key : string) : option V :=
  match table with
  | [] => None
  | (k, v) :: rest => if String.eqb key k then Some v else prop rest key
  end.

(** [x ?? d] and, for values that are truthy whenever defined, [x || d]. *)
Definition orElse {V : Type} (x : option V) (d : V) : V :=
  match x with Some v => v | None => d end.

(** [s.split(sep)] where [sep] matches one character: the pieces between the
    separators, always at least one. *)
Fixpoint splitOn (isSep : ascii -> bool) (s : string) : list string :=
  match s with
  | EmptyString => [EmptyString]
  | String c rest =>
      if isSep c then EmptyString :: splitOn isSep rest
      else match splitOn isSep rest with
           | [] => [String c EmptyString]
           | piece :: pieces => String c piece :: pieces
           end
  end.

(** [content.split('\n')] *)
Definition split_nl (s : string) : list string :=
  splitOn (fun c => Ascii.eqb c "010"%char) s.

(** [path.split(/[/\\]/).pop()] *)
Definition basename (path : string) : string :=
  last (splitOn (fun c => Ascii.eqb c "/"%char || Ascii.eqb c "\"%char) path)
       EmptyString.

(** [pieces.join(sep)]. *)
Fixpoint join (sep : string) (pieces : list string) : string :=
  match pieces with
  | [] => EmptyString
  | [p] => p
  | p :: rest => p +++ sep +++ join sep rest
  end.

(** [Array.prototype.slice(from, to)]: a negative index counts from the end,
    both indices are clamped to the array. *)
Definition sliceIndex (len i : Z) : Z :=
  if (i <? 0)%Z then Z.max (len + i) 0 else Z.min i len.

Definition slice {A : Type} (xs : list A) (from to : Z) : list A :=
  let len := Z.of_nat (length xs) in
  let k := sliceIndex len from in
  let final := sliceIndex len to in
  firstn (Z.to_nat (final - k)) (skipn (Z.to_nat k) xs).

(** [xs[i]] for a numeric index. *)
Definition at_index {A : Type} (xs : list A) (i : Z) : option A :=
  if (i <? 0)%Z then None else nth_error xs (Z.to_nat i).

(** [s.slice(0, n)] on a string, [n >= 0]. *)
Definition str_prefix (n : nat) (s : string) : string := substring 0 n s.

(** [s.startsWith(p)]. *)
Definition startsWith (p s : string) : bool := String.prefix p s.

(** A number inside a template literal. *)
Definition num (z : Z) : string := NilZero.string_of_int (Z.to_int z).

Definition strlen (s : string) : Z := Z.of_nat (String.length s).

(** A string is falsy exactly when it is empty. *)
Definition truthy (s : string) : bool := negb (String.eqb s "").

(** ** Data model ([models/]) *)

(** [type Severity = 'error' | 'warning' | 'info']. *)
Inductive Severity : Type := sev_error | sev_warning | sev_info.

(** The string a [Severity] is at run time. *)
Definition severity_string (s : Severity) : string :=
  match s with
  | sev_error => "error"
  | sev_warning => "warning"
  | sev_info => "info"
  end.

Inductive AnomalyType : Type :=
| POTENTIAL_BUG | SECURITY_ISSUE | PERFORMANCE | CODE_SMELL | BEST_PRACTICE
| LOGIC_ERROR | TYPE_MISMATCH | UNUSED_CODE | COMPLEXITY | NAMING_CONVENTION.

(** The host's [Position] and [Range]: what a position and a range hold.
    Their constructors, which may throw, follow the errors below. *)
Record Position : Type := { line : Z; character : Z }.
Record Range : Type := { start : Position; end_ : Position }.

Record Location : Type :=
  { file : string; range : Range; codeSnippet : string }.

Record Anomaly : Type :=
  { id : string;
    type : AnomalyType;
    severity : Severity;
    location : Location;
    title : string;
    description : string;
    suggestion : option string }.

Record AnalysisResult : Type :=
  { anomalies : list Anomaly;
    analyzedFiles : list string;
    timestamp : Z }.

Record ReviewRule : Type :=
  { rule_id : string;
    rule_name : string;
    rule_description : string;
    enabled : bool;
    rule_severity : Severity;
    pattern : option string;
    prompt : option string;
    languages : option (list string) }.

Record WorkspaceConfig : Type :=
  { rules : option (list ReviewRule);
    ws_excludePatterns : option (list string);
    teamId : option string }.

Inductive MessageRole : Type := user | assistant | system.

Record Message : Type :=
  { msg_id : string;
    role : MessageRole;
    content : string;
    msg_timestamp : Z }.

Record Conversation : Type :=
  { conv_id : string;
    anomalyId : string;
    messages : list Message;
    createdAt : Z;
    updatedAt : Z }.

Record AnomalyContext : Type :=
  { ctx_file : string;
    ctx_start : Z;
    ctx_end : Z;
    ctx_codeSnippet : string;
    ctx_title : string;
    ctx_description : string;
    ctx_type : string;
    ctx_language : string }.

(** The interfaces local to [openaiService.ts]. *)
Record RelatedFile : Type := { rf_name : string; rf_content : string }.

Record AnalysisContext : Type :=
  { fileName : string;
    language : string;
    ac_content : string;
    relatedFiles : list RelatedFile }.

Record AIAnomaly : Type :=
  { ai_type : string;
    ai_severity : string;
    startLine : Z;
    endLine : Z;
    ai_title : string;
    ai_description : string;
    ai_suggestion : option string }.

Record AnalysisResponse : Type := { ai_anomalies : list AIAnomaly }.

(** [FileInfo] of [codeAnalyzer.ts]; a [Uri] is its [fsPath]. *)
Record FileInfo : Type :=
  { fi_uri : string; fi_content : string; fi_language : string }.

Record TextDocument : Type := { getText : string; languageId : string }.

(** ** Errors, state and environment *)

(** A thrown value: a JavaScript [Error] with its constructor name and its
    message. *)
Record JsError : Type := { name : string; message : string }.

Definition Error (msg : string) : JsError := {| name := "Error"; message := msg |}.

(** The host's constructors. [new vscode.Position(line, character)] throws
    on a negative line or character. [new vscode.Range(startLine,
    startCharacter, endLine, endCharacter)] builds the two positions and
    stores them in order: when the first is not before the second, the
    second becomes the start of the range and the first its end. *)
Definition illegalArgument (what : string) : JsError :=
  Error ("Illegal argument: " +++ what).

Definition newPosition (l c : Z) : JsError + Position :=
  if (l <? 0)%Z then inl (illegalArgument "line must be non-negative")
  else if (c <? 0)%Z then inl (illegalArgument "character must be non-negative")
  else inr {| line := l; character := c |}.

(** [p.isBefore(q)] *)
Definition isBefore (p q : Position) : bool :=
  (line p <? line q)%Z
  || ((line p =? line q)%Z && (character p <? character q)%Z).

Definition newRange (startLine startCharacter endLine endCharacter : Z)
  : JsError + Range :=
  match newPosition startLine startCharacter with
  | inl e => inl e
  | inr p =>
      match newPosition endLine endCharacter with
      | inl e => inl e
      | inr q =>
          inr (if isBefore p q then {| start := p; end_ := q |}
               else {| start := q; end_ := p |})
      end
  end.

(** The editor settings read by the getters of [ConfigManager]. *)
Record Settings : Type :=
  { openaiApiKey : string;
    model : string;
    customRules : list ReviewRule;
    excludePatterns : list string;
    severityThreshold : string;
    maxFilesToAnalyze : Z }.

(** The mutable state of the services and what they have written to the
    outside. *)
Record State : Type :=
  { config : Settings;
    (** [OpenAIService.client !== null] *)
    client : bool;
    (** [CodeAnalyzer.analysisCache] *)
    analysisCache : JsMap.t AnalysisResult;
    (** [ConversationManager.conversations] *)
    conversations : JsMap.t Conversation;
    (** the durable entry ['conversations'] of [globalState] *)
    globalState : JsMap.t Conversation;
    (** conversations fired on [onConversationUpdated], oldest first *)
    emitted : list Conversation;
    (** [console.error] lines, oldest first *)
    console : list (string * JsError);
    (** messages reported to the progress sink, oldest first *)
    progress : list string;
    (** how many answers of the environment have been consumed *)
    answers : nat }.

Definition set_analysisCache (c : JsMap.t AnalysisResult) (s : State) : State :=
  {| config := config s; client := client s; analysisCache := c;
     conversations := conversations s; globalState := globalState s;
     emitted := emitted s; console := console s; progress := progress s;
     answers := answers s |}.

Definition set_conversations (c : JsMap.t Conversation) (s : State) : State :=
  {| config := config s; client := client s; analysisCache := analysisCache s;
     conversations := c; globalState := globalState s;
     emitted := emitted s; console := console s; progress := progress s;
     answers := answers s |}.

Definition set_globalState (c : JsMap.t Conversation) (s : State) : State :=
  {| config := config s; client := client s; analysisCache := analysisCache s;
     conversations := conversations s; globalState := c;
     emitted := emitted s; console := console s; progress := progress s;
     answers := answers s |}.

Definition set_emitted (e : list Conversation) (s : State) : State :=
  {| config := config s; client := client s; analysisCache := analysisCache s;
     conversations := conversations s; globalState := globalState s;
     emitted := e; console := console s; progress := progress s;
     answers := answers s |}.

Definition set_console (c : list (string * JsError)) (s : State) : State :=
  {| config := config s; client := client s; analysisCache := analysisCache s;
     conversations := conversations s; globalState := globalState s;
     emitted := emitted s; console := c; progress := progress s;
     answers := answers s |}.

Definition set_progress (p : list string) (s : State) : State :=
  {| config := config s; client := client s; analysisCache := analysisCache s;
     conversations := conversations s; globalState := globalState s;
     emitted := emitted s; console := console s; progress := p;
     answers := answers s |}.

Definition set_answers (n : nat) (s : State) : State :=
  {| config := config s; client := client s; analysisCache := analysisCache s;
     conversations := conversations s; globalState := globalState s;
     emitted := emitted s; console := console s; progress := progress s;
     answers := n |}.

(** A chat-completion request. *)
Record Request : Type :=
  { req_model : string;
    req_messages : list (string * string);
    temperature : string;
    json_object : bool }.

(** Everything outside the services. A field taking a [nat] is asked with
    the number of answers consumed so far. [createCompletion] answers with
    [response.choices[0]?.message?.content], or rejects. [JSON_parse] is
    [JSON.parse(text) as AnalysisResponse]: it throws or gives a value of the
    asserted type. [regexCaptures p text] is the list of the first capture
    groups of the successive matches [p.exec(text)] of a global pattern. *)
Record Env : Type :=
  { Date_now : nat -> Z;
    openTextDocument : nat -> string -> JsError + TextDocument;
    workspaceFolders : nat -> option string;
    getWorkspaceFolder : nat -> string -> option string;
    joinPath : string -> list string -> string;
    readFile : nat -> string -> JsError + string;
    findFiles : nat -> string -> string -> string -> Z -> list string;
    regexCaptures : string -> string -> list string;
    createCompletion : nat -> Request -> JsError + option string;
    JSON_parse : string -> JsError + AnalysisResponse;
    JSON_parse_config : string -> JsError + WorkspaceConfig }.

(** How a call ends. *)
Inductive Completion (A : Type) : Type :=
| Normal (a : A)
| Throw (e : JsError).

Arguments Normal {A} a.
Arguments Throw {A} e.

Definition Js (A : Type) : Type := State -> Completion A * State.

Definition ret {A : Type} (a : A) : Js A := fun s => (Normal a, s).

Definition bind {A B : Type} (c : Js A) (k : A -> Js B) : Js B :=
  fun s =>
    match c s with
    | (Normal a, s') => k a s'
    | (Throw e, s') => (Throw e, s')
    end.

Definition throw {A : Type} (e : JsError) : Js A := fun s => (Throw e, s).

(** [try { c } catch (error) { handler error }] *)
Definition tryCatch {A : Type} (c : Js A) (handler : JsError -> Js A) : Js A :=
  fun s =>
    match c s with
    | (Normal a, s') => (Normal a, s')
    | (Throw e, s') => handler e s'
    end.

Definition read {A : Type} (f : State -> A) : Js A := fun s => (Normal (f s), s).

Definition modify (f : State -> State) : Js unit := fun s => (Normal tt, f s).

(** An answer of the environment that cannot fail. *)
Definition ask {A : Type} (answer : nat -> A) : Js A :=
  fun s => (Normal (answer (answers s)), set_answers (S (answers s)) s).

(** An answer of the environment that may be a rejection. *)
Definition await {A : Type} (answer : nat -> JsError + A) : Js A :=
  fun s =>
    match answer (answers s) with
    | inr a => (Normal a, set_answers (S (answers s)) s)
    | inl e => (Throw e, set_answers (S (answers s)) s)
    end.

(** A pure built-in that may throw. *)
Definition lift {A : Type} (r : JsError + A) : Js A :=
  match r with inr a => ret a | inl e => throw e end.

Definition console_error (label : string) (e : JsError) : Js unit :=
  modify (fun s => set_console (console s ++ [(label, e)]) s).

Declare Scope js_scope.
Delimit Scope js_scope with js.
Notation "x <- c ;; k" := (bind c (fun x => k))
  (at level 61, c at next level, right associativity) : js_scope.
Notation "c ;;; k" := (bind c (fun _ => k))
  (at level 61, right associativity) : js_scope.
Local Open Scope js_scope.

(** Unfolds the combinators of [Js] in the goal. *)
Ltac js_unfold :=
  unfold bind, read, ret, throw, ask, await, modify, tryCatch, lift, console_error.

(** ** Rule set ([config/defaultRules.ts]) *)

Definition dq : string := String "034"%char EmptyString.

Definition rule (i n d : string) (sev : Severity) (pat : option string) (p : string)
  : ReviewRule :=
  {| rule_id := i; rule_name := n; rule_description := d; enabled := true;
     rule_severity := sev; pattern := pat; prompt := Some p; languages := None |}.

Definition DEFAULT_RULES : list ReviewRule :=
  [ rule "security-hardcoded-secrets" "Hardcoded Secrets Detection"
      "Detects hardcoded API keys, passwords, and tokens" sev_error
      (Some ("(api[_-]?key|password|secret|token)\s*[=:]\s*[" +++ dq +++ "'][^"
             +++ dq +++ "']+[" +++ dq +++ "']"))
      "Check for hardcoded secrets, API keys, passwords, or tokens that should be in environment variables";
    rule "security-sql-injection" "SQL Injection Risk"
      "Detects potential SQL injection vulnerabilities" sev_error None
      "Identify potential SQL injection vulnerabilities where user input is concatenated into SQL queries";
    rule "perf-n-plus-one" "N+1 Query Detection"
      "Detects potential N+1 query patterns in loops" sev_warning None
      "Identify N+1 query patterns where database queries or API calls are made inside loops";
    rule "code-unused-variables" "Unused Variables"
      "Detects declared but unused variables" sev_info None
      "Find variables that are declared but never used in the code";
    rule "logic-null-check" "Missing Null Checks"
      "Detects potential null/undefined access" sev_warning None
      "Identify places where null or undefined values might cause runtime errors";
    rule "code-error-handling" "Error Handling"
      "Checks for proper error handling" sev_warning None
      "Find try-catch blocks that swallow errors silently or have empty catch blocks";
    rule "perf-memory-leak" "Potential Memory Leaks"
      "Detects patterns that may cause memory leaks" sev_warning None
      "Identify potential memory leaks such as unremoved event listeners, unclosed resources, or circular references";
    rule "style-naming-convention" "Naming Convention"
      "Checks for consistent naming conventions" sev_info None
      "Check if naming conventions are consistent (camelCase for variables, PascalCase for classes, etc.)";
    rule "code-complexity" "Code Complexity"
      "Flags overly complex functions" sev_info None
      "Identify functions with high cyclomatic complexity or deeply nested conditions that could be simplified";
    rule "code-duplication" "Code Duplication"
      "Detects duplicated code blocks" sev_info None
      "Find duplicated code blocks that could be refactored into reusable functions" ].

(** ** Model client ([services/openaiService.ts]) *)

Definition isApiKeyConfigured (s : State) : bool :=
  (0 <? String.length (openaiApiKey (config s)))%nat.

Definition isConfigured (s : State) : bool :=
  client s && isApiKeyConfigured s.

(** [r.prompt || r.description] *)
Definition promptOrDescription (r : ReviewRule) : string :=
  match prompt r with
  | Some p => if truthy p then p else rule_description r
  | None => rule_description r
  end.

Definition buildAnalysisSystemPrompt (rules : list ReviewRule) : string :=
  let ruleDescriptions :=
    join nl (map (fun r => "- " +++ rule_name r +++ ": " +++ promptOrDescription r)
                 rules) in
  "You are an expert code reviewer. Analyze the provided code and identify issues based on these rules:"
  +++ nl +++ nl +++ ruleDescriptions +++ nl +++ nl
  +++ "Return a JSON object with an " +++ dq +++ "anomalies" +++ dq
  +++ " array. Each anomaly should have:" +++ nl
  +++ "- type: One of: potential_bug, security_issue, performance, code_smell, best_practice, logic_error, type_mismatch, unused_code, complexity, naming_convention" +++ nl
  +++ "- severity: One of: error, warning, info" +++ nl
  +++ "- startLine: Line number where the issue starts (1-indexed)" +++ nl
  +++ "- endLine: Line number where the issue ends (1-indexed)" +++ nl
  +++ "- title: Brief title of the issue (max 50 chars)" +++ nl
  +++ "- description: Detailed explanation of the issue" +++ nl
  +++ "- suggestion: How to fix the issue (optional)" +++ nl +++ nl
  +++ "Be thorough but avoid false positives. Only report actual issues.".

Definition buildAnalysisUserPrompt (context : AnalysisContext) : string :=
  let prompt0 :=
    "Analyze this " +++ language context +++ " file: " +++ fileName context
    +++ nl +++ nl +++ "```" +++ language context +++ nl
    +++ ac_content context +++ nl +++ "```" in
  if (0 <? length (relatedFiles context))%nat then
    fold_left
      (fun acc f =>
         acc +++ nl +++ rf_name f +++ ":" +++ nl +++ "```" +++ nl
         +++ str_prefix 2000 (rf_content f) +++ nl +++ "```" +++ nl)
      (relatedFiles context)
      (prompt0 +++ nl +++ nl +++ "Related files for context:" +++ nl)
  else prompt0.

Definition buildChatSystemPrompt (context : AnomalyContext) : string :=
  "You are a helpful code review assistant discussing a specific code issue with a developer."
  +++ nl +++ nl +++ "Context about the issue:" +++ nl
  +++ "- File: " +++ ctx_file context +++ nl
  +++ "- Lines: " +++ num (ctx_start context) +++ "-" +++ num (ctx_end context) +++ nl
  +++ "- Language: " +++ ctx_language context +++ nl
  +++ "- Issue Type: " +++ ctx_type context +++ nl
  +++ "- Issue: " +++ ctx_title context +++ nl
  +++ "- Description: " +++ ctx_description context +++ nl +++ nl
  +++ "Code snippet:" +++ nl
  +++ "```" +++ ctx_language context +++ nl
  +++ ctx_codeSnippet context +++ nl +++ "```" +++ nl +++ nl
  +++ "Help the developer understand and fix this issue through conversational dialogue. Be concise, helpful, and provide code examples when relevant.".

Definition typeMap : list (string * AnomalyType) :=
  [ ("potential_bug", POTENTIAL_BUG);
    ("security_issue", SECURITY_ISSUE);
    ("performance", PERFORMANCE);
    ("code_smell", CODE_SMELL);
    ("best_practice", BEST_PRACTICE);
    ("logic_error", LOGIC_ERROR);
    ("type_mismatch", TYPE_MISMATCH);
    ("unused_code", UNUSED_CODE);
    ("complexity", COMPLEXITY);
    ("naming_convention", NAMING_CONVENTION) ].

Definition mapAnomalyType (t : string) : AnomalyType :=
  orElse (prop typeMap t) CODE_SMELL.

Definition severityMap : list (string * Severity) :=
  [ ("error", sev_error); ("warning", sev_warning); ("info", sev_info) ].

Definition mapSeverity (sev : string) : Severity :=
  orElse (prop severityMap sev) sev_info.

(** The body of the [map] callback of [parseAnomalies], [now] being what
    [Date.now()] answers inside it: the clock is read for the [id] before
    the range is constructed, and the callback throws what the constructor
    of the range throws. *)
Definition parseAnomaly (lines : list string) (fileName : string)
  (a : AIAnomaly) (index : Z) (now : Z) : JsError + Anomaly :=
  let startLine := Z.max 0 (startLine a - 1) in
  let endLine := Z.min (Z.of_nat (length lines) - 1) (endLine a - 1) in
  let codeSnippet := join nl (slice lines startLine (endLine + 1)) in
  match newRange startLine 0 endLine
          (match at_index lines endLine with
           | Some l => strlen l
           | None => 0%Z
           end) with
  | inl e => inl e
  | inr r =>
      inr {| id := fileName +++ "-" +++ num index +++ "-" +++ num now;
             type := mapAnomalyType (ai_type a);
             severity := mapSeverity (ai_severity a);
             location :=
               {| file := fileName; range := r; codeSnippet := codeSnippet |};
             title := ai_title a;
             description := ai_description a;
             suggestion := ai_suggestion a |}
  end.

Fixpoint parseAnomaliesFrom (env : Env) (lines : list string) (fileName : string)
  (index : Z) (aiAnomalies : list AIAnomaly) : Js (list Anomaly) :=
  match aiAnomalies with
  | [] => ret []
  | a :: rest =>
      now <- ask (Date_now env) ;;
      anomaly <- lift (parseAnomaly lines fileName a index now) ;;
      parsed <- parseAnomaliesFrom env lines fileName (index + 1) rest ;;
      ret (anomaly :: parsed)
  end.

Definition parseAnomalies (env : Env) (aiAnomalies : list AIAnomaly)
  (fileName content : string) : Js (list Anomaly) :=
  let lines := split_nl content in
  parseAnomaliesFrom env lines fileName 0 aiAnomalies.

(** The request object of [analyze]. *)
Definition analysisRequest (m : string) (rules : list ReviewRule)
  (context : AnalysisContext) : Request :=
  {| req_model := m;
     req_messages := [ ("system", buildAnalysisSystemPrompt rules);
                       ("user", buildAnalysisUserPrompt context) ];
     temperature := "0.3";
     json_object := true |}.

Definition analyze (env : Env) (context : AnalysisContext)
  (customRules : option (list ReviewRule)) : Js (list Anomaly) :=
  hasClient <- read client ;;
  if negb hasClient then throw (Error "OpenAI API key not configured")
  else
    let rules := orElse customRules (filter enabled DEFAULT_RULES) in
    tryCatch
      (m <- read (fun s => model (config s)) ;;
       content <- await (fun k =>
         createCompletion env k (analysisRequest m rules context)) ;;
       match content with
       | None => ret []
       | Some text =>
           if negb (truthy text) then ret []
           else
             result <- lift (JSON_parse env text) ;;
             parseAnomalies env (ai_anomalies result) (fileName context)
               (ac_content context)
       end)
      (fun error => console_error "OpenAI analysis error:" error ;;; throw error).

Definition role_string (r : MessageRole) : string :=
  match r with user => "user" | assistant => "assistant" | system => "system" end.

(** The request object of [chat]. *)
Definition chatRequest (m : string) (history : list Message)
  (anomalyContext : AnomalyContext) : Request :=
  {| req_model := m;
     req_messages :=
       ("system", buildChatSystemPrompt anomalyContext)
       :: map (fun msg => (role_string (role msg), content msg)) history;
     temperature := "0.7";
     json_object := false |}.

Definition chat (env : Env) (history : list Message) (anomalyContext : AnomalyContext)
  : Js string :=
  hasClient <- read client ;;
  if negb hasClient then throw (Error "OpenAI API key not configured")
  else
    tryCatch
      (m <- read (fun s => model (config s)) ;;
       content <- await (fun k =>
         createCompletion env k (chatRequest m history anomalyContext)) ;;
       match content with
       | Some text =>
           if truthy text then ret text
           else ret "Sorry, I could not generate a response."
       | None => ret "Sorry, I could not generate a response."
       end)
      (fun error => console_error "OpenAI chat error:" error ;;; throw error).

(** ** Configuration manager and rule merge *)

Definition loadWorkspaceConfig (env : Env) : Js (option WorkspaceConfig) :=
  workspaceFolder <- ask (workspaceFolders env) ;;
  match workspaceFolder with
  | None => ret None
  | Some folder =>
      let configUri := joinPath env folder [".syntaxtual.json"] in
      tryCatch
        (text <- await (fun k => readFile env k configUri) ;;
         parsed <- lift (JSON_parse_config env text) ;;
         ret (Some parsed))
        (fun _ => ret None)
  end.

(** [ruleMap.set(rule.id, rule)] *)
Definition setRule (ruleMap : JsMap.t ReviewRule) (r : ReviewRule)
  : JsMap.t ReviewRule :=
  JsMap.set (rule_id r) r ruleMap.

(** The two [for] loops of [getMergedRules] over a fresh [Map]. *)
Definition mergedRuleMap (workspaceRules userRules : list ReviewRule)
  : JsMap.t ReviewRule :=
  let ruleMap := JsMap.empty in
  let ruleMap := fold_left setRule workspaceRules ruleMap in
  let ruleMap := fold_left setRule userRules ruleMap in
  ruleMap.

(** [Array.from(ruleMap.values())] *)
Definition mergeRules (workspaceRules userRules : list ReviewRule) : list ReviewRule :=
  JsMap.values (mergedRuleMap workspaceRules userRules).

Definition getMergedRules (env : Env) : Js (list ReviewRule) :=
  userRules <- read (fun s => customRules (config s)) ;;
  workspaceConfig <- loadWorkspaceConfig env ;;
  let workspaceRules :=
    match workspaceConfig with
    | Some c => orElse (rules c) []
    | None => []
    end in
  ret (mergeRules workspaceRules userRules).

(** ** Analysis engine ([services/codeAnalyzer.ts]) *)

Definition severityOrder : list (string * Z) :=
  [ ("error", 0%Z); ("warning", 1%Z); ("info", 2%Z) ].

Definition filterBySeverity (anomalies : list Anomaly) (threshold : string)
  : list Anomaly :=
  let thresholdLevel := orElse (prop severityOrder threshold) 2%Z in
  filter
    (fun a =>
       let anomalyLevel :=
         orElse (prop severityOrder (severity_string (severity a))) 2%Z in
       (anomalyLevel <=? thresholdLevel)%Z)
    anomalies.

Definition importPatterns : list string :=
  [ "import\s+.*?\s+from\s+['" +++ dq +++ "](.+?)['" +++ dq +++ "]";
    "require\s*\(\s*['" +++ dq +++ "](.+?)['" +++ dq +++ "]\s*\)";
    "from\s+(\S+)\s+import" ].

Definition extensions : list string := [".ts"; ".tsx"; ".js"; ".jsx"; ".py"; ""].

(** The inner [for (const ext of extensions)] loop: the first extension
    whose document opens. *)
Fixpoint openFirst (env : Env) (basePath : string) (exts : list string)
  : Js (option FileInfo) :=
  match exts with
  | [] => ret None
  | ext :: rest =>
      opened <-
        tryCatch
          (let fullPath := basePath +++ ext in
           doc <- await (fun k => openTextDocument env k fullPath) ;;
           ret (Some {| fi_uri := fullPath;
                        fi_content := str_prefix 3000 (getText doc);
                        fi_language := languageId doc |}))
          (fun _ => ret None) ;;
      match opened with
      | Some f => ret (Some f)
      | None => openFirst env basePath rest
      end
  end.

(** The outer [for (const imp of imports)] loop with its locals [count] and
    [relatedFiles]. *)
Fixpoint relatedLoop (env : Env) (uri : string) (imports : list string)
  (count : Z) (relatedFiles : list FileInfo) : Js (list FileInfo) :=
  match imports with
  | [] => ret relatedFiles
  | imp :: rest =>
      if (3 <=? count)%Z then ret relatedFiles
      else if startsWith "." imp then
        let basePath := joinPath env uri [".."; imp] in
        opened <- openFirst env basePath extensions ;;
        match opened with
        | Some f => relatedLoop env uri rest (count + 1) (relatedFiles ++ [f])
        | None => relatedLoop env uri rest count relatedFiles
        end
      else relatedLoop env uri rest count relatedFiles
  end.

Definition getRelatedFiles (env : Env) (uri content : string) : Js (list FileInfo) :=
  workspaceFolder <- ask (fun k => getWorkspaceFolder env k uri) ;;
  match workspaceFolder with
  | None => ret []
  | Some _ =>
      let imports := flat_map (fun p => regexCaptures env p content) importPatterns in
      relatedLoop env uri imports 0 []
  end.

Definition analyzeFile (env : Env) (uri : string) : Js (list Anomaly) :=
  configured <- read isConfigured ;;
  if negb configured then
    throw (Error "OpenAI API key not configured. Please set it in settings.")
  else
    document <- await (fun k => openTextDocument env k uri) ;;
    let content := getText document in
    let language := languageId document in
    let fileName := uri in
    relatedFiles <- getRelatedFiles env uri content ;;
    rules <- getMergedRules env ;;
    let enabledRules :=
      if (0 <? length rules)%nat then filter enabled rules
      else filter enabled DEFAULT_RULES in
    anomalies <-
      analyze env
        {| fileName := fileName;
           language := language;
           ac_content := content;
           relatedFiles :=
             map (fun f => {| rf_name := fi_uri f; rf_content := fi_content f |})
                 relatedFiles |}
        (Some enabledRules) ;;
    threshold <- read (fun s => severityThreshold (config s)) ;;
    let filteredAnomalies := filterBySeverity anomalies threshold in
    now <- ask (Date_now env) ;;
    modify (fun s =>
      set_analysisCache
        (JsMap.set uri
           {| anomalies := filteredAnomalies;
              analyzedFiles := [uri];
              timestamp := now |}
           (analysisCache s)) s) ;;;
    ret filteredAnomalies.

Definition codeExtensions : list string :=
  [ "**/*.ts"; "**/*.tsx"; "**/*.js"; "**/*.jsx";
    "**/*.py"; "**/*.java"; "**/*.go"; "**/*.rs";
    "**/*.c"; "**/*.cpp"; "**/*.cs"; "**/*.rb";
    "**/*.php"; "**/*.swift"; "**/*.kt" ].

(** [for (const uri of uris)] of [getFilesToAnalyze]: unreadable files are
    skipped. *)
Fixpoint readFiles (env : Env) (uris : list string) (files : list FileInfo)
  : Js (list FileInfo) :=
  match uris with
  | [] => ret files
  | u :: rest =>
      files' <-
        tryCatch
          (document <- await (fun k => openTextDocument env k u) ;;
           ret (files ++ [{| fi_uri := u;
                             fi_content := getText document;
                             fi_language := languageId document |}]))
          (fun _ => ret files) ;;
      readFiles env rest files'
  end.

(** [for (const pattern of codeExtensions)] of [getFilesToAnalyze]. *)
Fixpoint findLoop (env : Env) (workspaceUri excludeGlob : string)
  (patterns : list string) (files : list FileInfo) : Js (list FileInfo) :=
  match patterns with
  | [] => ret files
  | p :: rest =>
      limit <- read (fun s => maxFilesToAnalyze (config s)) ;;
      uris <- ask (fun k => findFiles env k workspaceUri p excludeGlob limit) ;;
      files' <- readFiles env uris files ;;
      limit' <- read (fun s => maxFilesToAnalyze (config s)) ;;
      if (limit' <=? Z.of_nat (length files'))%Z then ret files'
      else findLoop env workspaceUri excludeGlob rest files'
  end.

Definition getFilesToAnalyze (env : Env) (workspaceUri : string) : Js (list FileInfo) :=
  patterns <- read (fun s => excludePatterns (config s)) ;;
  let excludeGlob := "{" +++ join "," patterns +++ "}" in
  findLoop env workspaceUri excludeGlob codeExtensions [].

(** [progress?.report({ message: `Analyzing <base name>...`, increment })]:
    [report] tells whether a progress sink was passed; the fractional
    [increment] is not recorded. *)
Definition announced (report : bool) (f : FileInfo) (s : State) : State :=
  if report then
    set_progress (progress s ++ ["Analyzing " +++ basename (fi_uri f) +++ "..."]) s
  else s.

(** [console.error(`Error analyzing <path>:`, error)] *)
Definition logged (f : FileInfo) (e : JsError) (s : State) : State :=
  set_console (console s ++ [("Error analyzing " +++ fi_uri f +++ ":", e)]) s.

(** The [for] loop of [analyzeRepository] with its accumulators
    [allAnomalies] and [analyzedFiles]. *)
Fixpoint scanLoop (env : Env) (report : bool) (filesToProcess : list FileInfo)
  (allAnomalies : list Anomaly) (analyzedFiles : list string)
  : Js (list Anomaly * list string) :=
  match filesToProcess with
  | [] => ret (allAnomalies, analyzedFiles)
  | f :: rest =>
      modify (announced report f) ;;;
      acc <-
        tryCatch
          (found <- analyzeFile env (fi_uri f) ;;
           ret (allAnomalies ++ found, analyzedFiles ++ [fi_uri f]))
          (fun error =>
             modify (logged f error) ;;;
             ret (allAnomalies, analyzedFiles)) ;;
      scanLoop env report rest (fst acc) (snd acc)
  end.

Definition analyzeRepository (env : Env) (report : bool) : Js AnalysisResult :=
  configured <- read isConfigured ;;
  if negb configured then
    throw (Error "OpenAI API key not configured. Please set it in settings.")
  else
    workspaceFolder <- ask (workspaceFolders env) ;;
    match workspaceFolder with
    | None => throw (Error "No workspace folder open")
    | Some folder =>
        files <- getFilesToAnalyze env folder ;;
        maxFiles <- read (fun s => maxFilesToAnalyze (config s)) ;;
        let filesToProcess := slice files 0 maxFiles in
        acc <- scanLoop env report filesToProcess [] [] ;;
        now <- ask (Date_now env) ;;
        ret {| anomalies := fst acc; analyzedFiles := snd acc; timestamp := now |}
    end.

Definition getCachedResults (env : Env) (uri : option string)
  : Js (option AnalysisResult) :=
  match uri with
  | Some path => read (fun s => JsMap.get path (analysisCache s))
  | None =>
      cached <- read (fun s => JsMap.values (analysisCache s)) ;;
      let allAnomalies := flat_map anomalies cached in
      let allFiles := flat_map analyzedFiles cached in
      if (length allAnomalies =? 0)%nat then ret None
      else
        now <- ask (Date_now env) ;;
        ret (Some {| anomalies := allAnomalies;
                     analyzedFiles := allFiles;
                     timestamp := now |})
  end.

Definition clearCache (uri : option string) : Js unit :=
  match uri with
  | Some path =>
      modify (fun s => set_analysisCache (JsMap.delete path (analysisCache s)) s)
  | None => modify (set_analysisCache JsMap.empty)
  end.

(** ** Conversation store (the conversation manager) *)

(** [saveConversations]: the whole map is copied into a record and written
    under the key ['conversations']; the write is taken to succeed. *)
Definition saveConversations : Js unit :=
  modify (fun s => set_globalState (conversations s) s).

Definition getConversation (anomalyId : string) : Js (option Conversation) :=
  read (fun s => JsMap.get anomalyId (conversations s)).

Definition getAllConversations : Js (list Conversation) :=
  read (fun s => JsMap.values (conversations s)).

(** The template literal of the opening message. *)
Definition openingContent (anomaly : Anomaly) : string :=
  "I've identified an issue in your code:" +++ nl +++ nl
  +++ "**" +++ title anomaly +++ "**" +++ nl +++ nl
  +++ description anomaly +++ nl +++ nl
  +++ (match suggestion anomaly with
       | Some text => if truthy text then "**Suggestion:** " +++ text else ""
       | None => ""
       end)
  +++ nl +++ nl
  +++ "Would you like me to explain this issue in more detail or help you fix it?".

Definition startConversation (env : Env) (anomaly : Anomaly) : Js Conversation :=
  existing <- read (fun s => JsMap.get (id anomaly) (conversations s)) ;;
  match existing with
  | Some conversation => ret conversation
  | None =>
      created <- ask (Date_now env) ;;
      updated <- ask (Date_now env) ;;
      idStamp <- ask (Date_now env) ;;
      stamp <- ask (Date_now env) ;;
      let initialMessage :=
        {| msg_id := "msg-" +++ num idStamp;
           role := assistant;
           content := openingContent anomaly;
           msg_timestamp := stamp |} in
      let conversation :=
        {| conv_id := "conv-" +++ id anomaly;
           anomalyId := id anomaly;
           messages := [initialMessage];
           createdAt := created;
           updatedAt := updated |} in
      modify (fun s =>
        set_conversations (JsMap.set (id anomaly) conversation (conversations s)) s) ;;;
      saveConversations ;;;
      ret conversation
  end.

(** [m.role !== 'system'] *)
Definition notSystem (m : Message) : bool :=
  match role m with system => false | _ => true end.

(** [conversation.messages.push(m)] and [conversation.updatedAt = now] as
    functions of the conversation's value. *)
Definition pushMessage (c : Conversation) (m : Message) : Conversation :=
  {| conv_id := conv_id c;
     anomalyId := anomalyId c;
     messages := messages c ++ [m];
     createdAt := createdAt c;
     updatedAt := updatedAt c |}.

Definition touch (c : Conversation) (now : Z) : Conversation :=
  {| conv_id := conv_id c;
     anomalyId := anomalyId c;
     messages := messages c;
     createdAt := createdAt c;
     updatedAt := now |}.

(** The conversation is an object shared with the map and mutated in place:
    after each mutation the entry of the map under its key holds the new
    value, at the position it had. *)
Definition mutated (key : string) (c : Conversation) : Js unit :=
  modify (fun s => set_conversations (JsMap.set key c (conversations s)) s).

Definition sendMessage (env : Env) (anomalyId content : string)
  (anomalyContext : AnomalyContext) : Js Message :=
  found <- read (fun s => JsMap.get anomalyId (conversations s)) ;;
  match found with
  | None => throw (Error "Conversation not found")
  | Some conversation =>
      idStamp <- ask (Date_now env) ;;
      stamp <- ask (Date_now env) ;;
      let userMessage :=
        {| msg_id := "msg-" +++ num idStamp;
           role := user;
           content := content;
           msg_timestamp := stamp |} in
      let conversation := pushMessage conversation userMessage in
      mutated anomalyId conversation ;;;
      updated <- ask (Date_now env) ;;
      let conversation := touch conversation updated in
      mutated anomalyId conversation ;;;
      response <- chat env (filter notSystem (messages conversation)) anomalyContext ;;
      idStamp' <- ask (Date_now env) ;;
      stamp' <- ask (Date_now env) ;;
      let assistantMessage :=
        {| msg_id := "msg-" +++ num (idStamp' + 1);
           role := assistant;
           content := response;
           msg_timestamp := stamp' |} in
      let conversation := pushMessage conversation assistantMessage in
      mutated anomalyId conversation ;;;
      updated' <- ask (Date_now env) ;;
      let conversation := touch conversation updated' in
      mutated anomalyId conversation ;;;
      saveConversations ;;;
      modify (fun s => set_emitted (emitted s ++ [conversation]) s) ;;;
      ret assistantMessage
  end.

Definition deleteConversation (anomalyId : string) : Js unit :=
  modify (fun s =>
    set_conversations (JsMap.delete anomalyId (conversations s)) s) ;;;
  saveConversations.

Definition clearAllConversations : Js unit :=
  modify (set_conversations JsMap.empty) ;;;
  saveConversations.

(** ** A concrete [JSON.parse] for running the services

    The theorems below hold for every environment. To run the services on
    concrete replies, this section gives one [JSON.parse]: a parser of the
    JSON grammar into a tree, followed by the reading of the tree at the
    asserted type [AnalysisResponse]. A text outside the grammar is a
    [SyntaxError]; a tree that does not inhabit the asserted type is
    rejected with a [TypeError]. *)

#[local] Unset Elimination Schemes.
Inductive Json : Type :=
| JNull
| JBool (b : bool)
| JNumber (z : Z)
| JDecimal (literal : string)
| JString (s : string)
| JArray (items : list Json)
| JObject (members : list (string * Json)).
#[local] Set Elimination Schemes.

Definition isWs (c : ascii) : bool :=
  Ascii.eqb c " "%char || Ascii.eqb c "009"%char
  || Ascii.eqb c "010"%char || Ascii.eqb c "013"%char.

Fixpoint skipWs (s : string) : string :=
  match s with
  | String c rest => if isWs c then skipWs rest else s
  | EmptyString => s
  end.

Definition isDigit (c : ascii) : bool :=
  ((48 <=? nat_of_ascii c) && (nat_of_ascii c <=? 57))%nat.

Fixpoint takeDigits (s : string) : string * string :=
  match s with
  | String c rest =>
      if isDigit c then
        let (ds, rest') := takeDigits rest in (String c ds, rest')
      else (EmptyString, s)
  | EmptyString => (EmptyString, s)
  end.

Fixpoint digitsValue (acc : Z) (ds : string) : Z :=
  match ds with
  | String c rest => digitsValue (10 * acc + Z.of_nat (nat_of_ascii c - 48)) rest
  | EmptyString => acc
  end.

Definition consumed (s rest : string) : string :=
  substring 0 (String.length s - String.length rest) s.

(** A number literal: an optional minus sign, an integer part without
    leading zero, an optional fraction and an optional exponent. *)
Definition parseNumber (s : string) : option (Json * string) :=
  let (negative, s1) :=
    match s with
    | String "-"%char rest => (true, rest)
    | _ => (false, s)
    end in
  let (ds, s2) := takeDigits s1 in
  match ds with
  | EmptyString => None
  | String d more =>
      if Ascii.eqb d "0"%char && negb (String.eqb more "") then None
      else
        let afterFraction :=
          match s2 with
          | String "."%char rest =>
              let (fs, s3) := takeDigits rest in
              if String.eqb fs "" then None else Some (true, s3)
          | _ => Some (false, s2)
          end in
        match afterFraction with
        | None => None
        | Some (hasFraction, s3) =>
            let afterExponent :=
              match s3 with
              | String e rest =>
                  if Ascii.eqb e "e"%char || Ascii.eqb e "E"%char then
                    let rest' :=
                      match rest with
                      | String sign r =>
                          if Ascii.eqb sign "+"%char || Ascii.eqb sign "-"%char
                          then r else rest
                      | EmptyString => rest
                      end in
                    let (es, s4) := takeDigits rest' in
                    if String.eqb es "" then None else Some (true, s4)
                  else Some (false, s3)
              | EmptyString => Some (false, s3)
              end in
            match afterExponent with
            | None => None
            | Some (hasExponent, s4) =>
                if hasFraction || hasExponent then Some (JDecimal (consumed s s4), s4)
                else
                  let v := digitsValue 0 ds in
                  Some (JNumber (if negative then - v else v)%Z, s4)
            end
        end
  end.

Definition hexValue (c : ascii) : option nat :=
  let n := nat_of_ascii c in
  if ((48 <=? n) && (n <=? 57))%nat then Some (n - 48)
  else if ((65 <=? n) && (n <=? 70))%nat then Some (n - 55)
  else if ((97 <=? n) && (n <=? 102))%nat then Some (n - 87)
  else None.

(** The UTF-8 bytes of a code point below 65536. *)
Definition utf8 (n : nat) : string :=
  if (n <? 128)%nat then String (ascii_of_nat n) EmptyString
  else if (n <? 2048)%nat then
    String (ascii_of_nat (192 + n / 64))
      (String (ascii_of_nat (128 + n mod 64)) EmptyString)
  else
    String (ascii_of_nat (224 + n / 4096))
      (String (ascii_of_nat (128 + (n / 64) mod 64))
         (String (ascii_of_nat (128 + n mod 64)) EmptyString)).

Definition simpleEscape (c : ascii) : option ascii :=
  if Ascii.eqb c "034"%char then Some "034"%char
  else if Ascii.eqb c "\"%char then Some "\"%char
  else if Ascii.eqb c "/"%char then Some "/"%char
  else if Ascii.eqb c "b"%char then Some "008"%char
  else if Ascii.eqb c "f"%char then Some "012"%char
  else if Ascii.eqb c "n"%char then Some "010"%char
  else if Ascii.eqb c "r"%char then Some "013"%char
  else if Ascii.eqb c "t"%char then Some "009"%char
  else None.

(** The characters of a string literal after its opening quote. *)
Fixpoint parseChars (s : string) : option (string * string) :=
  match s with
  | EmptyString => None
  | String c rest =>
      if Ascii.eqb c "034"%char then Some (EmptyString, rest)
      else if Ascii.eqb c "\"%char then
        match rest with
        | EmptyString => None
        | String e rest1 =>
            match simpleEscape e with
            | Some ch =>
                match parseChars rest1 with
                | Some (text, rest') => Some (String ch text, rest')
                | None => None
                end
            | None =>
                if Ascii.eqb e "u"%char then
                  match rest1 with
                  | String h1 (String h2 (String h3 (String h4 rest5))) =>
                      match hexValue h1, hexValue h2, hexValue h3, hexValue h4 with
                      | Some a, Some b, Some c', Some d =>
                          match parseChars rest5 with
                          | Some (text, rest') =>
                              Some (utf8 (((a * 16 + b) * 16 + c') * 16 + d) +++ text,
                                    rest')
                          | None => None
                          end
                      | _, _, _, _ => None
                      end
                  | _ => None
                  end
                else None
            end
        end
      else if (nat_of_ascii c <? 32)%nat then None
      else
        match parseChars rest with
        | Some (text, rest') => Some (String c text, rest')
        | None => None
        end
  end.

Fixpoint parseValue (fuel : nat) (s : string) {struct fuel} : option (Json * string) :=
  match fuel with
  | O => None
  | S fuel' =>
      match skipWs s with
      | String "n"%char (String "u"%char (String "l"%char (String "l"%char rest))) =>
          Some (JNull, rest)
      | String "t"%char (String "r"%char (String "u"%char (String "e"%char rest))) =>
          Some (JBool true, rest)
      | String "f"%char (String "a"%char (String "l"%char (String "s"%char
          (String "e"%char rest)))) =>
          Some (JBool false, rest)
      | String "034"%char rest =>
          match parseChars rest with
          | Some (text, rest') => Some (JString text, rest')
          | None => None
          end
      | String "["%char rest =>
          match skipWs rest with
          | String "]"%char rest' => Some (JArray [], rest')
          | _ =>
              match parseElements fuel' rest [] with
              | Some (items, rest') => Some (JArray items, rest')
              | None => None
              end
          end
      | String "{"%char rest =>
          match skipWs rest with
          | String "}"%char rest' => Some (JObject [], rest')
          | _ =>
              match parseMembers fuel' rest [] with
              | Some (members, rest') => Some (JObject members, rest')
              | None => None
              end
          end
      | other => parseNumber other
      end
  end

with parseElements (fuel : nat) (s : string) (acc : list Json) {struct fuel}
  : option (list Json * string) :=
  match fuel with
  | O => None
  | S fuel' =>
      match parseValue fuel' s with
      | Some (v, rest) =>
          match skipWs rest with
          | String ","%char rest' => parseElements fuel' rest' (acc ++ [v])
          | String "]"%char rest' => Some (acc ++ [v], rest')
          | _ => None
          end
      | None => None
      end
  end

with parseMembers (fuel : nat) (s : string) (acc : list (string * Json)) {struct fuel}
  : option (list (string * Json) * string) :=
  match fuel with
  | O => None
  | S fuel' =>
      match skipWs s with
      | String "034"%char rest =>
          match parseChars rest with
          | Some (key, rest1) =>
              match skipWs rest1 with
              | String ":"%char rest2 =>
                  match parseValue fuel' rest2 with
                  | Some (v, rest3) =>
                      match skipWs rest3 with
                      | String ","%char rest' =>
                          parseMembers fuel' rest' (acc ++ [(key, v)])
                      | String "}"%char rest' => Some (acc ++ [(key, v)], rest')
                      | _ => None
                      end
                  | None => None
                  end
              | _ => None
              end
          | None => None
          end
      | _ => None
      end
  end.

Definition parseJson (text : string) : option Json :=
  match parseValue (2 * String.length text + 2) text with
  | Some (v, rest) => if String.eqb (skipWs rest) "" then Some v else None
  | None => None
  end.

(** [object[key]] on a parsed object: the last member of that name. *)
Definition member (members : list (string * Json)) (key : string) : option Json :=
  prop (rev members) key.

Definition asString (j : option Json) : option string :=
  match j with Some (JString s) => Some s | _ => None end.

Definition asInteger (j : option Json) : option Z :=
  match j with Some (JNumber z) => Some z | _ => None end.

Definition asAIAnomaly (j : Json) : option AIAnomaly :=
  match j with
  | JObject ms =>
      match asString (member ms "type"), asString (member ms "severity"),
            asInteger (member ms "startLine"), asInteger (member ms "endLine"),
            asString (member ms "title"), asString (member ms "description") with
      | Some t, Some sev, Some sl, Some el, Some ti, Some de =>
          match member ms "suggestion" with
          | None =>
              Some {| ai_type := t; ai_severity := sev; startLine := sl;
                      endLine := el; ai_title := ti; ai_description := de;
                      ai_suggestion := None |}
          | Some (JString sg) =>
              Some {| ai_type := t; ai_severity := sev; startLine := sl;
                      endLine := el; ai_title := ti; ai_description := de;
                      ai_suggestion := Some sg |}
          | Some _ => None
          end
      | _, _, _, _, _, _ => None
      end
  | _ => None
  end.

Fixpoint allSome {A : Type} (xs : list (option A)) : option (list A) :=
  match xs with
  | [] => Some []
  | Some x :: rest =>
      match allSome rest with Some ys => Some (x :: ys) | None => None end
  | None :: _ => None
  end.

Definition SyntaxError : JsError :=
  {| name := "SyntaxError"; message := "Unexpected token in JSON" |}.

Definition TypeError : JsError :=
  {| name := "TypeError"; message := "not an AnalysisResponse" |}.

Definition parseAnalysisResponse (text : string) : JsError + AnalysisResponse :=
  match parseJson text with
  | None => inl SyntaxError
  | Some (JObject ms) =>
      match member ms "anomalies" with
      | Some (JArray items) =>
          match allSome (map asAIAnomaly items) with
          | Some ais => inr {| ai_anomalies := ais |}
          | None => inl TypeError
          end
      | _ => inl TypeError
      end
  | Some _ => inl TypeError
  end.

(** ** Fixtures: a small workspace to run the services on *)

Module Fixture.

(** [needle] occurs in [hay]. *)
Fixpoint includes (needle hay : string) : bool :=
  String.prefix needle hay
  || match hay with
     | EmptyString => false
     | String _ rest => includes needle rest
     end.

Definition settings : Settings :=
  {| openaiApiKey := "sk-test";
     model := "gpt-4-turbo-preview";
     customRules := [];
     excludePatterns := ["**/node_modules/**"; "**/dist/**"; "**/.git/**"];
     severityThreshold := "info";
     maxFilesToAnalyze := 50 |}.

(** The state right after activation: nothing cached, no conversation. *)
Definition initial : State :=
  {| config := settings;
     client := true;
     analysisCache := JsMap.empty;
     conversations := JsMap.empty;
     globalState := JsMap.empty;
     emitted := [];
     console := [];
     progress := [];
     answers := 0 |}.

Definition tenLines : string :=
  join nl ["l1"; "l2"; "l3"; "l4"; "l5"; "l6"; "l7"; "l8"; "l9"; "l10"].

Definition documents : list (string * TextDocument) :=
  [ ("/ws/a.ts", {| getText := tenLines; languageId := "typescript" |});
    ("/ws/b.ts", {| getText := "let b = 2;"; languageId := "typescript" |});
    ("/ws/c.ts", {| getText := "let c = 3;"; languageId := "typescript" |}) ].

Definition open (path : string) : JsError + TextDocument :=
  match prop documents path with
  | Some d => inr d
  | None => inl (Error ("cannot open " +++ path))
  end.

Definition field (key value : string) : string :=
  dq +++ key +++ dq +++ ":" +++ value.

Definition quoted (s : string) : string := dq +++ s +++ dq.

(** An analysis response with one anomaly. *)
Definition oneAnomaly (sev : string) (first final : Z) : string :=
  "{" +++ field "anomalies"
    ("[{" +++ field "type" (quoted "potential_bug") +++ ","
     +++ field "severity" (quoted sev) +++ ","
     +++ field "startLine" (num first) +++ ","
     +++ field "endLine" (num final) +++ ","
     +++ field "title" (quoted "Off by one") +++ ","
     +++ field "description" (quoted "The loop runs once too often") +++ ","
     +++ field "suggestion" (quoted "Use a strict bound")
     +++ "}]") +++ "}".

(** A workspace of three TypeScript files without imports and without
    [.syntaxtual.json]. [opening k path] is what opening [path] answers at
    step [k]; [reply request] is the remote's answer to a request. *)
Definition env (opening : nat -> string -> JsError + TextDocument)
  (reply : Request -> JsError + option string) : Env :=
  {| Date_now := fun k => (1700000000000 + Z.of_nat k)%Z;
     openTextDocument := opening;
     workspaceFolders := fun _ => Some "/ws";
     getWorkspaceFolder := fun _ _ => Some "/ws";
     joinPath := fun base segments => join "/" (base :: segments);
     readFile := fun _ path => inl (Error ("ENOENT: " +++ path));
     findFiles := fun _ _ pattern _ _ =>
       if String.eqb pattern "**/*.ts" then ["/ws/a.ts"; "/ws/b.ts"; "/ws/c.ts"]
       else [];
     regexCaptures := fun _ _ => [];
     createCompletion := fun _ request => reply request;
     JSON_parse := parseAnalysisResponse;
     JSON_parse_config := fun _ => inl SyntaxError |}.

(** The last message of a request: the user prompt of an analysis. *)
Definition userPrompt (request : Request) : string :=
  snd (last (req_messages request) ("", "")).

(** A remote that answers every request with the same content. *)
Definition always (text : string) (_ : Request) : JsError + option string :=
  inr (Some text).

(** A remote that is down. *)
Definition down (_ : Request) : JsError + option string :=
  inl {| name := "APIConnectionError"; message := "Connection error." |}.

(** A remote that finds one error on lines 5 to 5 of [a.ts], one warning
    on line 1 of every other file. *)
Definition reviewer (request : Request) : JsError + option string :=
  if includes "/ws/a.ts" (userPrompt request)
  then inr (Some (oneAnomaly "error" 5 5))
  else inr (Some (oneAnomaly "warning" 1 1)).

(** [b.ts] can be opened during the first [n] steps and is gone
    afterwards. *)
Definition vanishing (n : nat) (k : nat) (path : string) : JsError + TextDocument :=
  if String.eqb path "/ws/b.ts" && (n <=? k)%nat
  then inl (Error "cannot open /ws/b.ts")
  else open path.

Definition anAnomaly (sev : Severity) (key : string) (hint : option string) : Anomaly :=
  {| id := key;
     type := POTENTIAL_BUG;
     severity := sev;
     location :=
       {| file := "/ws/a.ts";
          range := {| start := {| line := 4; character := 0 |};
                      end_ := {| line := 4; character := 2 |} |};
          codeSnippet := "l5" |};
     title := "Off by one";
     description := "The loop runs once too often";
     suggestion := hint |}.

Definition aContext : AnomalyContext :=
  {| ctx_file := "/ws/a.ts"; ctx_start := 5; ctx_end := 5;
     ctx_codeSnippet := "l5"; ctx_title := "Off by one";
     ctx_description := "The loop runs once too often";
     ctx_type := "potential_bug"; ctx_language := "typescript" |}.

(** The analysis context of [a.ts]. *)
Definition aFile : AnalysisContext :=
  {| fileName := "/ws/a.ts"; language := "typescript";
     ac_content := tenLines; relatedFiles := [] |}.

(** The workspace with a remote that reviews, one that answers with text
    that is no JSON, one that answers without content, one that is down, and
    the workspace in which [b.ts] disappears after the files were listed. *)
Definition reviewed : Env := env (fun _ => open) reviewer.
Definition babbling : Env := env (fun _ => open) (always "not json").
Definition silent : Env := env (fun _ => open) (fun _ => inr None).
Definition offline : Env := env (fun _ => open) down.
Definition flaky : Env := env (vanishing 5) reviewer.

Definition aRule (key label : string) : ReviewRule :=
  {| rule_id := key; rule_name := label; rule_description := label;
     enabled := true; rule_severity := sev_warning; pattern := None;
     prompt := None; languages := None |}.

(** The state after a conversation was started on the fresh store. *)
Definition chatting : State :=
  snd (startConversation reviewed (anAnomaly sev_error "k" (Some "Use a strict bound"))
         initial).

(** The analysis of [a.ts] on the fresh state, with the reviewing remote
    and with the silent one. *)
Definition found : list Anomaly :=
  match fst (analyzeFile reviewed "/ws/a.ts" initial) with
  | Normal l => l
  | Throw _ => []
  end.

Definition analysed : State := snd (analyzeFile reviewed "/ws/a.ts" initial).

Definition analysedSilently : State := snd (analyzeFile silent "/ws/a.ts" initial).

(** The three files as [getFilesToAnalyze] lists them. *)
Definition fileA : FileInfo :=
  {| fi_uri := "/ws/a.ts"; fi_content := tenLines; fi_language := "typescript" |}.
Definition fileB : FileInfo :=
  {| fi_uri := "/ws/b.ts"; fi_content := "let b = 2;"; fi_language := "typescript" |}.
Definition fileC : FileInfo :=
  {| fi_uri := "/ws/c.ts"; fi_content := "let c = 3;"; fi_language := "typescript" |}.

(** The state when the loop of a scan starts, after the files were listed. *)
Definition scanning : State := set_answers 5 initial.

(** The three analyses of a scan of the flaky workspace, one after the
    other. *)
Definition anomaliesOf (r : Completion (list Anomaly) * State) : list Anomaly :=
  match fst r with Normal l => l | Throw _ => [] end.

Definition errorOf (r : Completion (list Anomaly) * State) : JsError :=
  match fst r with Normal _ => Error "" | Throw e => e end.

Definition runA := analyzeFile flaky (fi_uri fileA) (announced true fileA scanning).
Definition runB := analyzeFile flaky (fi_uri fileB) (announced true fileB (snd runA)).
Definition runC :=
  analyzeFile flaky (fi_uri fileC)
    (announced true fileC (logged fileB (errorOf runB) (snd runB))).

End Fixture.

(** ** Vocabulary of the specification

    Notions the properties are stated with, defined from the words of the
    specification and independently of the code. *)

(** "rank(error)=0, rank(warning)=1, rank(info)=2" *)
Definition rank (s : Severity) : Z :=
  match s with
  | sev_error => 0%Z
  | sev_warning => 1%Z
  | sev_info => 2%Z
  end.

(** A file content of [n] lines: one more than its line breaks. *)
Fixpoint lineBreaks (text : string) : Z :=
  match text with
  | EmptyString => 0%Z
  | String c rest =>
      ((if Ascii.eqb c "010"%char then 1 else 0) + lineBreaks rest)%Z
  end.

Definition lineCount (text : string) : Z := (lineBreaks text + 1)%Z.

(** The rule of a list that a given id names: the last one with that id,
    which is the only one when ids are unique. *)
Fixpoint lastWithId (i : string) (l : list ReviewRule) : option ReviewRule :=
  match l with
  | [] => None
  | r :: rest =>
      match lastWithId i rest with
      | Some r' => Some r'
      | None => if String.eqb (rule_id r) i then Some r else None
      end
  end.

(** Every entry of a rule map sits under the id of its rule. *)
Definition keyed (m : JsMap.t ReviewRule) : Prop :=
  forall k r, In (k, r) m -> k = rule_id r.

(** The ids of a list in the order of their first occurrence. *)
Definition firstOccurrences (ids : list string) : list string :=
  fold_left (fun seen i => if in_dec string_dec i seen then seen else seen ++ [i])
            ids [].

(** A text renders [piece] when [piece] occurs in it. *)
Definition renders (text piece : string) : Prop :=
  exists before after, text = before +++ piece +++ after.

(** [s'] differs from [s] at most in what was asked and what was logged. *)
Definition quiet (s s' : State) : Prop :=
  config s' = config s
  /\ client s' = client s
  /\ analysisCache s' = analysisCache s
  /\ conversations s' = conversations s
  /\ globalState s' = globalState s
  /\ emitted s' = emitted s
  /\ progress s' = progress s.

(** A scan of a list of files from a state: every file is announced and
    analysed in turn; a file whose analysis returns contributes its
    anomalies and its path, a file whose analysis throws contributes a line
    of the console and nothing else. *)
Inductive Scanned (env : Env) (report : bool)
  : list FileInfo -> State -> list Anomaly -> list string -> State -> Prop :=
| Scanned_done : forall s, Scanned env report [] s [] [] s
| Scanned_analysed : forall f rest s found s1 anoms paths s',
    analyzeFile env (fi_uri f) (announced report f s) = (Normal found, s1) ->
    Scanned env report rest s1 anoms paths s' ->
    Scanned env report (f :: rest) s (found ++ anoms) (fi_uri f :: paths) s'
| Scanned_skipped : forall f rest s e s1 anoms paths s',
    analyzeFile env (fi_uri f) (announced report f s) = (Throw e, s1) ->
    Scanned env report rest (logged f e s1) anoms paths s' ->
    Scanned env report (f :: rest) s anoms paths s'.

(** The failure of a lookup by anomaly id. *)
Definition NotFound : JsError := Error "Conversation not found".

(** The 0-indexed lines of the ranges of a list of anomalies. *)
Definition rangeLines (a : Anomaly) : Z * Z :=
  (line (start (range (location a))), line (end_ (range (location a)))).

(** * The rest of the services, the providers and the commands

    The remaining functions of the model client, of the conversation store
    and of the configuration, and the providers and command handlers that
    use the services. *)

(** ** Model client: client life cycle and fix suggestion *)

Definition set_client (b : bool) (s : State) : State :=
  {| config := config s; client := b; analysisCache := analysisCache s;
     conversations := conversations s; globalState := globalState s;
     emitted := emitted s; console := console s; progress := progress s;
     answers := answers s |}.

Definition set_config (c : Settings) (s : State) : State :=
  {| config := c; client := client s; analysisCache := analysisCache s;
     conversations := conversations s; globalState := globalState s;
     emitted := emitted s; console := console s; progress := progress s;
     answers := answers s |}.

(** [initializeClient]: [if (apiKey) { this.client = new OpenAI({ apiKey }) }];
    with an empty key the field is left as it is. *)
Definition initializeClient : Js unit :=
  modify (fun s =>
    if truthy (openaiApiKey (config s)) then set_client true s else s).

Definition refreshClient : Js unit := initializeClient.

(** The edit of the key in the settings followed by the configuration
    listener of [extension.ts], which refreshes the client. *)
Definition changeApiKey (key : string) : Js unit :=
  modify (fun s =>
    set_config
      {| openaiApiKey := key;
         model := model (config s);
         customRules := customRules (config s);
         excludePatterns := excludePatterns (config s);
         severityThreshold := severityThreshold (config s);
         maxFilesToAnalyze := maxFilesToAnalyze (config s) |} s) ;;;
  refreshClient.

(** [CodeFix] and [FileEdit] of [models/]. *)
Record FileEdit : Type :=
  { edit_file : string; edit_range : Range; newText : string }.

Record CodeFix : Type :=
  { fix_description : string; edits : list FileEdit }.

(** The asserted type of the parsed fix response. *)
Record FixResponse : Type := { fr_description : string; newCode : string }.

Definition fixSystemPrompt : string :=
  "You are a code fixing assistant. Given a code issue and the file content, suggest a specific fix."
  +++ nl +++ "Return a JSON object with:" +++ nl
  +++ "- description: Brief description of the fix" +++ nl
  +++ "- newCode: The corrected code that should replace the problematic section"
  +++ nl +++ nl
  +++ "Be precise and only fix the specific issue mentioned.".

Definition fixUserPrompt (anomaly : Anomaly) (fileContent : string) : string :=
  "Issue: " +++ title anomaly +++ nl
  +++ "Description: " +++ description anomaly +++ nl
  +++ "File: " +++ file (location anomaly) +++ nl
  +++ "Lines: " +++ num (line (start (range (location anomaly))) + 1)
  +++ "-" +++ num (line (end_ (range (location anomaly))) + 1) +++ nl +++ nl
  +++ "Code snippet with issue:" +++ nl
  +++ "```" +++ nl
  +++ (if truthy (codeSnippet (location anomaly))
       then codeSnippet (location anomaly) else "N/A") +++ nl
  +++ "```" +++ nl +++ nl
  +++ "Full file content:" +++ nl
  +++ "```" +++ nl +++ fileContent +++ nl +++ "```" +++ nl +++ nl
  +++ "Suggest a fix for this specific issue.".

Definition fixRequest (m : string) (anomaly : Anomaly) (fileContent : string)
  : Request :=
  {| req_model := m;
     req_messages := [ ("system", fixSystemPrompt);
                       ("user", fixUserPrompt anomaly fileContent) ];
     temperature := "0.3";
     json_object := true |}.

(** [suggestFix]; [JSON_parse_fix] is [JSON.parse(content)] at the asserted
    type of the fix response. *)
Definition suggestFix (env : Env) (JSON_parse_fix : string -> JsError + FixResponse)
  (anomaly : Anomaly) (fileContent : string) : Js (option CodeFix) :=
  hasClient <- read client ;;
  if negb hasClient then throw (Error "OpenAI API key not configured")
  else
    tryCatch
      (m <- read (fun s => model (config s)) ;;
       content <- await (fun k =>
         createCompletion env k (fixRequest m anomaly fileContent)) ;;
       match content with
       | None => ret None
       | Some text =>
           if negb (truthy text) then ret None
           else
             result <- lift (JSON_parse_fix text) ;;
             ret (Some {| fix_description := fr_description result;
                          edits := [{| edit_file := file (location anomaly);
                                       edit_range := range (location anomaly);
                                       newText := newCode result |}] |})
       end)
      (fun error =>
         console_error "OpenAI fix suggestion error:" error ;;; ret None).

(** ** Conversation store: loading and the anomaly context *)

(** [loadConversations]: every entry of the saved record is set in the
    map. *)
Definition loadConversations : Js unit :=
  modify (fun s =>
    set_conversations
      (fold_left (fun m kv => JsMap.set (fst kv) (snd kv) m)
                 (globalState s) (conversations s)) s).

(** The string an [AnomalyType] is at run time. *)
Definition anomalyType_string (t : AnomalyType) : string :=
  match t with
  | POTENTIAL_BUG => "potential_bug"
  | SECURITY_ISSUE => "security_issue"
  | PERFORMANCE => "performance"
  | CODE_SMELL => "code_smell"
  | BEST_PRACTICE => "best_practice"
  | LOGIC_ERROR => "logic_error"
  | TYPE_MISMATCH => "type_mismatch"
  | UNUSED_CODE => "unused_code"
  | COMPLEXITY => "complexity"
  | NAMING_CONVENTION => "naming_convention"
  end.

(** [buildAnomalyContext]; [getTextIn] is [document.getText(range)]. *)
Definition buildAnomalyContext (anomaly : Anomaly) (document : TextDocument)
  (getTextIn : Range -> string) : AnomalyContext :=
  {| ctx_file := file (location anomaly);
     ctx_start := (line (start (range (location anomaly))) + 1)%Z;
     ctx_end := (line (end_ (range (location anomaly))) + 1)%Z;
     ctx_codeSnippet :=
       if truthy (codeSnippet (location anomaly))
       then codeSnippet (location anomaly)
       else getTextIn (range (location anomaly));
     ctx_title := title anomaly;
     ctx_description := description anomaly;
     ctx_type := anomalyType_string (type anomaly);
     ctx_language := languageId document |}.

(** ** Sidebar: what is sent to the view *)

(** The object [_serializeAnomaly] builds. *)
Record SerializedAnomaly : Type :=
  { ser_id : string;
    ser_type : AnomalyType;
    ser_severity : Severity;
    ser_title : string;
    ser_description : string;
    ser_suggestion : option string;
    ser_file : string;
    ser_startLine : Z;
    ser_endLine : Z;
    ser_codeSnippet : string }.

Definition serializeAnomaly (anomaly : Anomaly) : SerializedAnomaly :=
  {| ser_id := id anomaly;
     ser_type := type anomaly;
     ser_severity := severity anomaly;
     ser_title := title anomaly;
     ser_description := description anomaly;
     ser_suggestion := suggestion anomaly;
     ser_file := file (location anomaly);
     ser_startLine := (line (start (range (location anomaly))) + 1)%Z;
     ser_endLine := (line (end_ (range (location anomaly))) + 1)%Z;
     ser_codeSnippet := codeSnippet (location anomaly) |}.

Definition serializeAnomalies (l : list Anomaly) : list SerializedAnomaly :=
  map serializeAnomaly l.

(** ** Diagnostics provider *)

Inductive DiagnosticSeverity : Type := DS_Error | DS_Warning | DS_Information.

(** [DiagnosticsProvider.mapSeverity], on a severity. *)
Definition diagnosticSeverity (sev : Severity) : DiagnosticSeverity :=
  match sev with
  | sev_error => DS_Error
  | sev_warning => DS_Warning
  | sev_info => DS_Information
  end.

(** A diagnostic as [createDiagnostic] fills it. The target of its code is
    the command URI [command:syntaxtual.startConversation?...], kept as the
    anomaly id it carries. An anomaly made by the response parser has no
    related locations, so no related information is attached. *)
Record Diagnostic : Type :=
  { diag_range : Range;
    diag_message : string;
    diag_severity : DiagnosticSeverity;
    diag_source : string;
    diag_code : AnomalyType;
    diag_anomalyId : string }.

Definition createDiagnostic (anomaly : Anomaly) : Diagnostic :=
  {| diag_range := range (location anomaly);
     diag_message := title anomaly +++ ": " +++ description anomaly;
     diag_severity := diagnosticSeverity (severity anomaly);
     diag_source := "Syntaxtual";
     diag_code := type anomaly;
     diag_anomalyId := id anomaly |}.

(** One turn of the grouping loop of [updateDiagnostics]:
    [if (!has(file)) set(file, []); get(file).push(anomaly)]. *)
Definition groupStep (anomaliesByFile : JsMap.t (list Anomaly)) (anomaly : Anomaly)
  : JsMap.t (list Anomaly) :=
  let path := file (location anomaly) in
  let opened :=
    match JsMap.get path anomaliesByFile with
    | Some _ => anomaliesByFile
    | None => JsMap.set path [] anomaliesByFile
    end in
  JsMap.set path (orElse (JsMap.get path opened) [] ++ [anomaly]) opened.

Definition groupByFile (l : list Anomaly) : JsMap.t (list Anomaly) :=
  fold_left groupStep l JsMap.empty.

(** The diagnostic collection of the host: the diagnostics of each file,
    [set] replacing those of its file. [updateDiagnostics] clears it and
    sets one entry per group. *)
Definition updateDiagnostics (l : list Anomaly)
  (collection : JsMap.t (list Diagnostic)) : JsMap.t (list Diagnostic) :=
  fold_left
    (fun coll group => JsMap.set (fst group) (map createDiagnostic (snd group)) coll)
    (groupByFile l) JsMap.empty.

Definition updateFileDiagnostics (uri : string) (l : list Anomaly)
  (collection : JsMap.t (list Diagnostic)) : JsMap.t (list Diagnostic) :=
  JsMap.set uri
    (map createDiagnostic
       (filter (fun a => String.eqb (file (location a)) uri) l))
    collection.

Definition clearDiagnostics (uri : option string)
  (collection : JsMap.t (list Diagnostic)) : JsMap.t (list Diagnostic) :=
  match uri with
  | Some path => JsMap.delete path collection
  | None => JsMap.empty
  end.

(** The diagnostics the collection shows for a file. *)
Definition diagnosticsOf (path : string) (collection : JsMap.t (list Diagnostic))
  : list Diagnostic :=
  orElse (JsMap.get path collection) [].

(** ** Decorations provider *)

(** The chunks appended to the hover of a decoration; the last one is the
    command link, kept as the anomaly id it carries. *)
Inductive HoverChunk : Type :=
| Markdown (text : string)
| DiscussLink (anomalyId : string).

Record DecorationOptions : Type :=
  { dec_range : Range;
    hoverMessage : list HoverChunk;
    contentText : string }.

Definition getSeverityIcon (sev : Severity) : string :=
  match sev with
  | sev_error => "$(error)"
  | sev_warning => "$(warning)"
  | sev_info => "$(info)"
  end.

Definition createDecoration (anomaly : Anomaly) : DecorationOptions :=
  {| dec_range := range (location anomaly);
     hoverMessage :=
       [ Markdown ("### " +++ getSeverityIcon (severity anomaly) +++ " "
                   +++ title anomaly +++ nl +++ nl);
         Markdown (description anomaly +++ nl +++ nl) ]
       ++ (match suggestion anomaly with
           | Some text =>
               if truthy text
               then [Markdown ("**Suggestion:** " +++ text +++ nl +++ nl)]
               else []
           | None => []
           end)
       ++ [ Markdown ("---" +++ nl); DiscussLink (id anomaly) ];
     contentText := " " +++ title anomaly |}.

(** What [updateDecorations] sets on the editor for the three decoration
    types. *)
Record Decorations : Type :=
  { errors : list DecorationOptions;
    warnings : list DecorationOptions;
    infos : list DecorationOptions }.

(** One turn of the loop of [updateDecorations]. *)
Definition decorateStep (editorPath : string) (acc : Decorations) (anomaly : Anomaly)
  : Decorations :=
  if negb (String.eqb (file (location anomaly)) editorPath) then acc
  else
    let decoration := createDecoration anomaly in
    match severity anomaly with
    | sev_error =>
        {| errors := errors acc ++ [decoration];
           warnings := warnings acc; infos := infos acc |}
    | sev_warning =>
        {| errors := errors acc;
           warnings := warnings acc ++ [decoration]; infos := infos acc |}
    | sev_info =>
        {| errors := errors acc; warnings := warnings acc;
           infos := infos acc ++ [decoration] |}
    end.

Definition updateDecorations (editorPath : string) (l : list Anomaly) : Decorations :=
  fold_left (decorateStep editorPath) l
    {| errors := []; warnings := []; infos := [] |}.

(** ** Commands of [extension.ts] *)

(** The update of [currentAnomalies] after a file was analysed: the
    anomalies of the file are filtered out and the new ones pushed. *)
Definition updateCurrentAnomalies (currentAnomalies : list Anomaly) (path : string)
  (found : list Anomaly) : list Anomaly :=
  filter (fun a => negb (String.eqb (file (location a)) path)) currentAnomalies
  ++ found.

(** The anomalies handed to the decorations when the active editor
    changes. *)
Definition fileAnomalies (currentAnomalies : list Anomaly) (path : string)
  : list Anomaly :=
  filter (fun a => String.eqb (file (location a)) path) currentAnomalies.

(** The stricter of two thresholds: the one of lower rank. *)
Definition stricter (a b : Severity) : Severity :=
  if (rank a <=? rank b)%Z then a else b.

(** The anomalies of a list that are in a file and of a severity. *)
Definition severity_eqb (a b : Severity) : bool :=
  match a, b with
  | sev_error, sev_error | sev_warning, sev_warning | sev_info, sev_info => true
  | _, _ => false
  end.

Definition ofFileAndSeverity (path : string) (sv : Severity) (l : list Anomaly)
  : list Anomaly :=
  filter (fun a => String.eqb (file (location a)) path
                   && severity_eqb (severity a) sv) l.

(** ** Sidebar: the view and its handlers ([providers/sidebarProvider.ts]) *)

(** The messages the provider posts to the view. *)
Inductive Outbound : Type :=
| analysisStarted
| analysisComplete (sent : list SerializedAnomaly) (analyzedCount : nat)
| analysisError (error : string)
| conversationUpdated (anomalyId : string) (anomaly : SerializedAnomaly)
    (history : list Message)
| chatLoading (loading : bool)
| chatError (error : string)
| anomaliesUpdated (sent : list SerializedAnomaly)
| initialState (sent : list SerializedAnomaly) (configured : bool).

(** The notifications of [vscode.window]. *)
Inductive Notice : Type :=
| WarningMessage (text : string)
| ErrorMessage (text : string)
| InformationMessage (text : string).

(** The provider: whether its view is resolved, its two fields, and what
    it has posted to the view and shown in the window so far. *)
Record Sidebar : Type :=
  { _view : bool;
    _anomalies : list Anomaly;
    _currentAnomalyId : option string;
    posted : list Outbound;
    shown : list Notice }.

Definition set_anomalies (l : list Anomaly) (sb : Sidebar) : Sidebar :=
  {| _view := _view sb; _anomalies := l;
     _currentAnomalyId := _currentAnomalyId sb;
     posted := posted sb; shown := shown sb |}.

Definition show (n : Notice) (sb : Sidebar) : Sidebar :=
  {| _view := _view sb; _anomalies := _anomalies sb;
     _currentAnomalyId := _currentAnomalyId sb;
     posted := posted sb; shown := shown sb ++ [n] |}.

(** [this._view?.webview.postMessage(message)] *)
Definition _postMessage (m : Outbound) (sb : Sidebar) : Sidebar :=
  if _view sb then
    {| _view := _view sb; _anomalies := _anomalies sb;
       _currentAnomalyId := _currentAnomalyId sb;
       posted := posted sb ++ [m]; shown := shown sb |}
  else sb.

Definition updateAnomalies (l : list Anomaly) (sb : Sidebar) : Sidebar :=
  _postMessage (anomaliesUpdated (serializeAnomalies l)) (set_anomalies l sb).

Definition _sendInitialState (env : Env) (sb : Sidebar) : Js Sidebar :=
  cachedResults <- getCachedResults env None ;;
  let sb :=
    match cachedResults with
    | Some result => set_anomalies (anomalies result) sb
    | None => sb
    end in
  configured <- read isConfigured ;;
  ret (_postMessage
         (initialState (serializeAnomalies (_anomalies sb)) configured) sb).

(** [_analyzeRepository]; [withProgress] runs the task with a progress
    object and settles as the task does. *)
Definition _analyzeRepository (env : Env) (sb : Sidebar) : Js Sidebar :=
  let sb := _postMessage analysisStarted sb in
  tryCatch
    (result <- analyzeRepository env true ;;
     let sb := set_anomalies (anomalies result) sb in
     ret (_postMessage
            (analysisComplete (serializeAnomalies (anomalies result))
                              (length (analyzedFiles result))) sb))
    (fun error =>
       let sb := _postMessage (analysisError (message error)) sb in
       ret (show (ErrorMessage ("Analysis failed: " +++ message error)) sb)).

(** [_analyzeCurrentFile]; [activeTextEditor] is the path of the document
    of the active editor, if there is one. *)
Definition _analyzeCurrentFile (env : Env) (activeTextEditor : option string)
  (sb : Sidebar) : Js Sidebar :=
  match activeTextEditor with
  | None => ret (show (WarningMessage "No file is currently open") sb)
  | Some uri =>
      let sb := _postMessage analysisStarted sb in
      tryCatch
        (found <- analyzeFile env uri ;;
         let sb := set_anomalies found sb in
         ret (_postMessage (analysisComplete (serializeAnomalies found) 1) sb))
        (fun error =>
           let sb := _postMessage (analysisError (message error)) sb in
           ret (show (ErrorMessage ("Analysis failed: " +++ message error)) sb))
  end.

(** [_handleChatMessage]; [content] is [message.payload?.content], [trim]
    is [String.prototype.trim] and [getTextIn] is [document.getText(range)]. *)
Definition _handleChatMessage (env : Env) (trim : string -> string)
  (getTextIn : TextDocument -> Range -> string)
  (content : option string) (sb : Sidebar) : Js Sidebar :=
  match _currentAnomalyId sb, content with
  | Some currentAnomalyId, Some text =>
      if negb (truthy currentAnomalyId) || negb (truthy (trim text)) then ret sb
      else
        match find (fun a => String.eqb (id a) currentAnomalyId) (_anomalies sb) with
        | None => ret sb
        | Some anomaly =>
            let sb := _postMessage (chatLoading true) sb in
            sb <- tryCatch
                    (document <- await (fun k =>
                       openTextDocument env k (file (location anomaly))) ;;
                     let context :=
                       buildAnomalyContext anomaly document (getTextIn document) in
                     response <- sendMessage env currentAnomalyId text context ;;
                     conversation <- getConversation currentAnomalyId ;;
                     ret (_postMessage
                            (conversationUpdated currentAnomalyId
                               (serializeAnomaly anomaly)
                               (match conversation with
                                | Some c => messages c
                                | None => []
                                end)) sb))
                    (fun error => ret (_postMessage (chatError (message error)) sb)) ;;
            ret (_postMessage (chatLoading false) sb)
        end
  | _, _ => ret sb
  end.

Definition set_currentAnomalyId (key : option string) (sb : Sidebar) : Sidebar :=
  {| _view := _view sb; _anomalies := _anomalies sb;
     _currentAnomalyId := key;
     posted := posted sb; shown := shown sb |}.

(** [_selectAnomaly]; [anomalyId] is [message.payload?.anomalyId] and
    [showTextDocument] is the answer of the window when it is asked to show
    the document, a rejection or none. The selection is set before anything
    can fail, so the provider is returned beside the rejection of the
    promise, if there is one. *)
Definition _selectAnomaly (env : Env)
  (showTextDocument : nat -> string -> option JsError)
  (anomalyId : option string) (sb : Sidebar) : Js (Sidebar * option JsError) :=
  match anomalyId with
  | None => ret (sb, None)
  | Some key =>
      match find (fun a => String.eqb (id a) key) (_anomalies sb) with
      | None => ret (sb, None)
      | Some anomaly =>
          let sb := set_currentAnomalyId (Some key) sb in
          conversation <- startConversation env anomaly ;;
          tryCatch
            (doc <- await (fun k =>
               openTextDocument env k (file (location anomaly))) ;;
             await (fun k =>
               match showTextDocument k (file (location anomaly)) with
               | Some rejection => inl rejection
               | None => inr tt
               end) ;;;
             ret (_postMessage
                    (conversationUpdated key (serializeAnomaly anomaly)
                       (messages conversation)) sb, None))
            (fun rejection => ret (sb, Some rejection))
      end
  end.

(** ** The extension: its commands and listeners ([extension.ts]) *)

(** What the module and the window hold: [currentAnomalies], the collection
    of the diagnostics provider, the active editor as the path of its
    document, the decorations set on the editors, by the path of their
    document, and the sidebar provider. The notifications of the window go
    to the list [shown] of the provider, which is that of the window. *)
Record Extension : Type :=
  { currentAnomalies : list Anomaly;
    diagnosticCollection : JsMap.t (list Diagnostic);
    activeTextEditor : option string;
    decorations : JsMap.t Decorations;
    sidebarProvider : Sidebar }.

Definition set_currentAnomalies (l : list Anomaly) (ext : Extension) : Extension :=
  {| currentAnomalies := l;
     diagnosticCollection := diagnosticCollection ext;
     activeTextEditor := activeTextEditor ext;
     decorations := decorations ext;
     sidebarProvider := sidebarProvider ext |}.

Definition set_diagnosticCollection (c : JsMap.t (list Diagnostic)) (ext : Extension)
  : Extension :=
  {| currentAnomalies := currentAnomalies ext;
     diagnosticCollection := c;
     activeTextEditor := activeTextEditor ext;
     decorations := decorations ext;
     sidebarProvider := sidebarProvider ext |}.

Definition set_activeTextEditor (editor : option string) (ext : Extension)
  : Extension :=
  {| currentAnomalies := currentAnomalies ext;
     diagnosticCollection := diagnosticCollection ext;
     activeTextEditor := editor;
     decorations := decorations ext;
     sidebarProvider := sidebarProvider ext |}.

(** [editor.setDecorations] for the three decoration types. *)
Definition setDecorations (path : string) (d : Decorations) (ext : Extension)
  : Extension :=
  {| currentAnomalies := currentAnomalies ext;
     diagnosticCollection := diagnosticCollection ext;
     activeTextEditor := activeTextEditor ext;
     decorations := JsMap.set path d (decorations ext);
     sidebarProvider := sidebarProvider ext |}.

Definition set_sidebarProvider (sb : Sidebar) (ext : Extension) : Extension :=
  {| currentAnomalies := currentAnomalies ext;
     diagnosticCollection := diagnosticCollection ext;
     activeTextEditor := activeTextEditor ext;
     decorations := decorations ext;
     sidebarProvider := sb |}.

Definition notify (n : Notice) (ext : Extension) : Extension :=
  set_sidebarProvider (show n (sidebarProvider ext)) ext.

(** The decorations an editor shows; none were set on a new editor. *)
Definition noDecorations : Decorations :=
  {| errors := []; warnings := []; infos := [] |}.

Definition decorationsOf (path : string) (ext : Extension) : Decorations :=
  orElse (JsMap.get path (decorations ext)) noDecorations.

(** [DecorationsProvider.clearDecorations] *)
Definition clearDecorations (path : string) (ext : Extension) : Extension :=
  setDecorations path noDecorations ext.

Definition updateActiveEditorDecorations (ext : Extension) : Extension :=
  match activeTextEditor ext with
  | Some path =>
      setDecorations path
        (updateDecorations path (fileAnomalies (currentAnomalies ext) path)) ext
  | None => ext
  end.

Definition notConfiguredWarning : string :=
  "OpenAI API key not configured. Would you like to set it now?".

(** The command [syntaxtual.analyzeRepository]. Without a configured
    client it asks whether to open the settings, which changes nothing
    here. *)
Definition syntaxtual_analyzeRepository (env : Env) (ext : Extension)
  : Js Extension :=
  configured <- read isConfigured ;;
  if negb configured then ret (notify (WarningMessage notConfiguredWarning) ext)
  else
    tryCatch
      (result <- analyzeRepository env true ;;
       let ext := set_currentAnomalies (anomalies result) ext in
       let ext :=
         set_diagnosticCollection
           (updateDiagnostics (anomalies result) (diagnosticCollection ext)) ext in
       let ext := updateActiveEditorDecorations ext in
       let ext :=
         set_sidebarProvider
           (updateAnomalies (anomalies result) (sidebarProvider ext)) ext in
       ret (notify
              (InformationMessage
                 ("Syntaxtual: Found "
                  +++ num (Z.of_nat (length (anomalies result)))
                  +++ " issues in "
                  +++ num (Z.of_nat (length (analyzedFiles result)))
                  +++ " files")) ext))
      (fun error =>
         ret (notify (ErrorMessage ("Analysis failed: " +++ message error)) ext)).

(** The command [syntaxtual.reviewFile]. *)
Definition syntaxtual_reviewFile (env : Env) (ext : Extension) : Js Extension :=
  match activeTextEditor ext with
  | None => ret (notify (WarningMessage "No file is currently open") ext)
  | Some uri =>
      configured <- read isConfigured ;;
      if negb configured then ret (notify (WarningMessage notConfiguredWarning) ext)
      else
        tryCatch
          (found <- analyzeFile env uri ;;
           let ext :=
             set_currentAnomalies
               (updateCurrentAnomalies (currentAnomalies ext) uri found) ext in
           let ext :=
             set_diagnosticCollection
               (updateFileDiagnostics uri found (diagnosticCollection ext)) ext in
           let ext := setDecorations uri (updateDecorations uri found) ext in
           let ext :=
             set_sidebarProvider
               (updateAnomalies (currentAnomalies ext) (sidebarProvider ext)) ext in
           ret (notify
                  (InformationMessage
                     ("Syntaxtual: Found " +++ num (Z.of_nat (length found))
                      +++ " issues")) ext))
          (fun error =>
             ret (notify (ErrorMessage ("Analysis failed: " +++ message error)) ext))
  end.

(** The command [syntaxtual.clearAnalysis]. *)
Definition syntaxtual_clearAnalysis (ext : Extension) : Js Extension :=
  let ext := set_currentAnomalies [] ext in
  clearCache None ;;;
  let ext :=
    set_diagnosticCollection (clearDiagnostics None (diagnosticCollection ext)) ext in
  let ext :=
    match activeTextEditor ext with
    | Some path => clearDecorations path ext
    | None => ext
    end in
  let ext := set_sidebarProvider (updateAnomalies [] (sidebarProvider ext)) ext in
  ret (notify (InformationMessage "Syntaxtual: Analysis cleared") ext).

(** The window makes [editor] the active one and calls the listener of
    [onDidChangeActiveTextEditor]. *)
Definition onDidChangeActiveTextEditor (editor : option string) (ext : Extension)
  : Extension :=
  let ext := set_activeTextEditor editor ext in
  match editor with
  | Some path =>
      setDecorations path
        (updateDecorations path (fileAnomalies (currentAnomalies ext) path)) ext
  | None => ext
  end.

(** The listener of [onDidSaveTextDocument]; [autoAnalyze] is the setting
    and [excluded] tells whether one of the exclude patterns, read as a
    regular expression, matches the relative path of the document. *)
Definition onDidSaveTextDocument (env : Env) (autoAnalyze excluded : bool)
  (uri : string) (ext : Extension) : Js Extension :=
  if negb autoAnalyze then ret ext
  else
    configured <- read isConfigured ;;
    if negb configured then ret ext
    else if excluded then ret ext
    else
      tryCatch
        (found <- analyzeFile env uri ;;
         let ext :=
           set_currentAnomalies
             (updateCurrentAnomalies (currentAnomalies ext) uri found) ext in
         let ext :=
           set_diagnosticCollection
             (updateFileDiagnostics uri found (diagnosticCollection ext)) ext in
         let ext :=
           match activeTextEditor ext with
           | Some path =>
               if String.eqb path uri
               then setDecorations path (updateDecorations path found) ext
               else ext
           | None => ext
           end in
         ret ext)
        (fun error => console_error "Auto-analyze error:" error ;;; ret ext).

(** What can happen to the extension, and its reaction. *)
Inductive Event : Type :=
| AnalyzeRepository
| ReviewFile
| ClearAnalysis
| ActiveEditorChanged (editor : option string)
| DocumentSaved (autoAnalyze excluded : bool) (uri : string).

Definition react (env : Env) (ev : Event) (ext : Extension) : Js Extension :=
  match ev with
  | AnalyzeRepository => syntaxtual_analyzeRepository env ext
  | ReviewFile => syntaxtual_reviewFile env ext
  | ClearAnalysis => syntaxtual_clearAnalysis ext
  | ActiveEditorChanged editor => ret (onDidChangeActiveTextEditor editor ext)
  | DocumentSaved autoAnalyze excluded uri =>
      onDidSaveTextDocument env autoAnalyze excluded uri ext
  end.

Fixpoint reactAll (env : Env) (evs : list Event) (ext : Extension) : Js Extension :=
  match evs with
  | [] => ret ext
  | ev :: rest => ext <- react env ev ext ;; reactAll env rest ext
  end.

(** The extension after [activate], with an unresolved sidebar. *)
Definition activated (editor : option string) : Extension :=
  {| currentAnomalies := [];
     diagnosticCollection := JsMap.empty;
     activeTextEditor := editor;
     decorations := JsMap.empty;
     sidebarProvider :=
       {| _view := false; _anomalies := []; _currentAnomalyId := None;
          posted := []; shown := [] |} |}.

(** The window shows what [currentAnomalies] holds: the diagnostics of
    every file are those of its anomalies, and the decorations of the
    active editor are those of the anomalies of its file. *)
Definition upToDate (ext : Extension) : Prop :=
  (forall path,
     diagnosticsOf path (diagnosticCollection ext)
     = map createDiagnostic (fileAnomalies (currentAnomalies ext) path))
  /\ (forall path,
        activeTextEditor ext = Some path ->
        decorationsOf path ext = updateDecorations path (currentAnomalies ext)).

(** ** More fixtures *)

Module Samples.

(** A [JSON.parse] at the type of the fix response, on the parser of the
    fixtures. *)
Definition parseFixResponse (text : string) : JsError + FixResponse :=
  match parseJson text with
  | None => inl SyntaxError
  | Some (JObject ms) =>
      match asString (member ms "description"), asString (member ms "newCode") with
      | Some d, Some c => inr {| fr_description := d; newCode := c |}
      | _, _ => inl TypeError
      end
  | Some _ => inl TypeError
  end.

(** A fix response. *)
Definition aFix : string :=
  "{" +++ Fixture.field "description" (Fixture.quoted "Use a strict bound") +++ ","
  +++ Fixture.field "newCode" (Fixture.quoted "for (i = 0; i < n; i++)") +++ "}".

(** The workspace with a remote that answers every request with a fix. *)
Definition fixing : Env := Fixture.env (fun _ => Fixture.open) (Fixture.always aFix).

(** The anomaly the reviewing remote reports on [a.ts]. *)
Definition reported : AIAnomaly :=
  {| ai_type := "potential_bug"; ai_severity := "error";
     startLine := 5; endLine := 5; ai_title := "Off by one";
     ai_description := "The loop runs once too often";
     ai_suggestion := Some "Use a strict bound" |}.


Definition nowhere : AIAnomaly :=
  {| ai_type := "code_smell"; ai_severity := "info";
     startLine := 0; endLine := 0; ai_title := "General";
     ai_description := "About the file as a whole";
     ai_suggestion := None |}.

(** An import of [./b] in [a.ts], for a runtime whose pattern matcher finds
    it. *)
Definition importing : Env :=
  {| Date_now := Date_now Fixture.reviewed;
     openTextDocument := openTextDocument Fixture.reviewed;
     workspaceFolders := workspaceFolders Fixture.reviewed;
     getWorkspaceFolder := getWorkspaceFolder Fixture.reviewed;
     joinPath := fun base segments =>
       match segments with
       | [".."; "./b"] => "/ws/b"
       | _ => joinPath Fixture.reviewed base segments
       end;
     readFile := readFile Fixture.reviewed;
     findFiles := findFiles Fixture.reviewed;
     regexCaptures := fun p _ =>
       if String.eqb p (nth 0 importPatterns "") then ["./b"; "lodash"] else [];
     createCompletion := createCompletion Fixture.reviewed;
     JSON_parse := JSON_parse Fixture.reviewed;
     JSON_parse_config := JSON_parse_config Fixture.reviewed |}.

(** [trim] on texts whose white space is the blank, the tabulations and
    the line ends. *)
Definition blank (c : ascii) : bool :=
  let n := nat_of_ascii c in
  (n =? 32)%nat || ((9 <=? n)%nat && (n <=? 13)%nat).

Fixpoint trimStart (text : string) : string :=
  match text with
  | String c rest => if blank c then trimStart rest else text
  | EmptyString => EmptyString
  end.

Fixpoint trimEnd (text : string) : string :=
  match text with
  | String c rest =>
      match trimEnd rest with
      | EmptyString => if blank c then EmptyString else String c EmptyString
      | kept => String c kept
      end
  | EmptyString => EmptyString
  end.

Definition trim (text : string) : string := trimEnd (trimStart text).

(** The text of a range of a document: here the whole text. *)
Definition wholeText (document : TextDocument) (_ : Range) : string :=
  getText document.

(** A resolved view that lists the anomaly of the conversation of
    [Fixture.chatting] and has it selected. *)
Definition viewing : Sidebar :=
  {| _view := true;
     _anomalies := [Fixture.anAnomaly sev_error "k" (Some "Use a strict bound")];
     _currentAnomalyId := Some "k";
     posted := [];
     shown := [] |}.

(** The workspace with a remote that answers every request with a
    sentence. *)
Definition answering : Env :=
  Fixture.env (fun _ => Fixture.open) (Fixture.always "Because.").

End Samples.

(** * Properties *)

(** ** Facts about [JsMap] *)

Module JsMapFacts.
Import JsMap.

Section WithValues.
Context {V : Type}.
Implicit Types (m : t V) (k : string) (v : V).

Lemma get_set_same k v m : get k (set k v m) = Some v.
Proof.
  induction m as [|[k' v'] m IH]; simpl.
  - now rewrite String.eqb_refl.
  - destruct (String.eqb k k') eqn:E; simpl; rewrite E; auto.
Qed.

Lemma get_set_other k k' v m : k <> k' -> get k' (set k v m) = get k' m.
Proof.
  intros Hne. induction m as [|[k0 v0] m IH]; simpl.
  - destruct (String.eqb k' k) eqn:E; auto.
    apply String.eqb_eq in E. congruence.
  - destruct (String.eqb k k0) eqn:E; simpl.
    + apply String.eqb_eq in E. subst k0.
      destruct (String.eqb k' k) eqn:E'; auto.
      apply String.eqb_eq in E'. congruence.
    + now rewrite IH.
Qed.

Lemma get_delete_same k m : get k (delete k m) = None.
Proof.
  induction m as [|[k' v'] m IH]; simpl; auto.
  destruct (String.eqb k k') eqn:E; simpl; auto. now rewrite E.
Qed.

Lemma get_delete_other k k' m : k <> k' -> get k' (delete k m) = get k' m.
Proof.
  intros Hne. induction m as [|[k0 v0] m IH]; simpl; auto.
  destruct (String.eqb k k0) eqn:E; simpl.
  - apply String.eqb_eq in E. subst k0.
    destruct (String.eqb k' k) eqn:E'; auto.
    apply String.eqb_eq in E'. congruence.
  - now rewrite IH.
Qed.

Lemma get_None_keys k m : get k m = None <-> ~ In k (keys m).
Proof.
  induction m as [|[k' v'] m IH]; simpl.
  - tauto.
  - destruct (String.eqb k k') eqn:E.
    + apply String.eqb_eq in E. subst. split; [discriminate | tauto].
    + apply String.eqb_neq in E. rewrite IH. split.
      * intros H [H1 | H1]; [congruence | tauto].
      * tauto.
Qed.

Lemma get_Some_In k v m : get k m = Some v -> In (k, v) m.
Proof.
  induction m as [|[k' v'] m IH]; simpl; [discriminate|].
  destruct (String.eqb k k') eqn:E.
  - apply String.eqb_eq in E. intros [= ->]. subst. now left.
  - auto.
Qed.

Lemma In_get k v m : wf m -> In (k, v) m -> get k m = Some v.
Proof.
  unfold wf. induction m as [|[k' v'] m IH]; simpl; [tauto|].
  intros Hnd [H | H].
  - injection H as -> ->. now rewrite String.eqb_refl.
  - inversion Hnd as [|? ? Hn Hnd']; subst.
    destruct (String.eqb k k') eqn:E.
    + apply String.eqb_eq in E. subst k'. exfalso. apply Hn.
      change (In (fst (k, v)) (map fst m)). now apply in_map.
    + auto.
Qed.

(** The keys after [set]: unchanged for a known key, one more at the end
    for a new one. *)
Lemma keys_set k v m :
  keys (set k v m) = if in_dec string_dec k (keys m) then keys m else keys m ++ [k].
Proof.
  induction m as [|[k' v'] m IH]; simpl.
  - reflexivity.
  - destruct (String.eqb k k') eqn:E.
    + apply String.eqb_eq in E. subst k'. simpl.
      destruct (string_dec k k); [|congruence].
      reflexivity.
    + apply String.eqb_neq in E. simpl. fold (keys (set k v m)). rewrite IH.
      fold (keys m).
      destruct (string_dec k' k); [congruence|].
      destruct (in_dec string_dec k (keys m)); reflexivity.
Qed.

Lemma wf_set k v m : wf m -> wf (set k v m).
Proof.
  unfold wf. rewrite keys_set.
  destruct (in_dec string_dec k (keys m)) as [Hin | Hnin]; auto.
  intros Hnd. apply NoDup_app; auto.
  - constructor; [simpl; tauto | constructor].
  - simpl. intros x Hx [<- | []]. contradiction.
Qed.

Lemma keys_delete_incl k m x : In x (keys (delete k m)) -> In x (keys m) /\ x <> k.
Proof.
  induction m as [|[k' v'] m IH]; simpl; [tauto|].
  destruct (String.eqb k k') eqn:E.
  - intros H. apply IH in H. tauto.
  - apply String.eqb_neq in E. simpl. intros [H | H].
    + subst. split; [now left | congruence].
    + apply IH in H. tauto.
Qed.

Lemma wf_delete k m : wf m -> wf (delete k m).
Proof.
  unfold wf. induction m as [|[k' v'] m IH]; simpl; auto.
  intros Hnd. inversion Hnd as [|? ? Hn Hnd']; subst.
  destruct (String.eqb k k'); auto.
  simpl. constructor; auto.
  intros H. apply keys_delete_incl in H. tauto.
Qed.

Lemma occurrences_notin k m : ~ In k (keys m) -> occurrences k m = 0.
Proof.
  unfold occurrences. induction m as [|[k' v'] m IH]; simpl; auto.
  intros H. destruct (String.eqb k k') eqn:E.
  - apply String.eqb_eq in E. subst. tauto.
  - apply IH. tauto.
Qed.

(** A well-formed map has at most one entry per key. *)
Lemma wf_occurrences k m : wf m -> occurrences k m <= 1.
Proof.
  unfold wf. induction m as [|[k' v'] m IH]; simpl; auto.
  intros Hnd. inversion Hnd as [|? ? Hn Hnd']; subst.
  unfold occurrences in *. simpl.
  destruct (String.eqb k k') eqn:E.
  - apply String.eqb_eq in E. subst k'. simpl.
    pose proof (occurrences_notin k m Hn) as H0. unfold occurrences in H0.
    rewrite H0. lia.
  - auto.
Qed.

Lemma occurrences_pos k m : In k (keys m) -> 1 <= occurrences k m.
Proof.
  unfold occurrences. induction m as [|[k' v'] m IH]; simpl; [tauto|].
  intros [H | H].
  - subst. rewrite String.eqb_refl. simpl. lia.
  - destruct (String.eqb k k'); simpl; [lia | auto].
Qed.

Lemma in_keys_set k v m : In k (keys (set k v m)).
Proof.
  apply Decidable.not_not.
  - destruct (in_dec string_dec k (keys (set k v m))); [left | right]; auto.
  - intros H. apply get_None_keys in H. rewrite get_set_same in H. discriminate.
Qed.

Lemma occurrences_set k v m : wf m -> occurrences k (set k v m) = 1.
Proof.
  intros Hwf.
  pose proof (wf_occurrences k (wf_set k v Hwf)).
  pose proof (occurrences_pos k (set k v m) (in_keys_set k v m)).
  lia.
Qed.

Lemma wf_empty : wf (@empty V).
Proof. constructor. Qed.

End WithValues.
End JsMapFacts.

(** ** Severity filter *)

Lemma severityOrder_rank (t : Severity) :
  orElse (prop severityOrder (severity_string t)) 2%Z = rank t.
Proof. destruct t; reflexivity. Qed.

(** A threshold that is no severity name passes every anomaly, like
    [info]. *)
Lemma filterBySeverity_unknown_threshold (A : list Anomaly) (threshold : string) :
  prop severityOrder threshold = None -> filterBySeverity A threshold = A.
Proof.
  intros H. unfold filterBySeverity. rewrite H.
  induction A as [|a A IH]; [reflexivity|].
  cbn [filter]. rewrite severityOrder_rank. cbn [orElse] in *. rewrite IH.
  destruct (severity a); reflexivity.
Qed.

(** C1. For every threshold [t] and every list of anomalies [A],
    [filterBySeverity A t] is the list of the anomalies of [A] whose severity
    rank is at most the rank of [t], in their order, with rank(error)=0,
    rank(warning)=1, rank(info)=2: an anomaly is in the result exactly when
    it is in [A] with such a rank, so none of these is removed. *)
Theorem filterBySeverity_retains_exactly :
  forall (A : list Anomaly) (t : Severity),
    filterBySeverity A (severity_string t)
    = filter (fun a => (rank (severity a) <=? rank t)%Z) A
    /\ (forall a : Anomaly,
          In a (filterBySeverity A (severity_string t))
          <-> In a A /\ (rank (severity a) <= rank t)%Z).
Proof.
  intros A t.
  assert (E : filterBySeverity A (severity_string t)
              = filter (fun a => (rank (severity a) <=? rank t)%Z) A).
  { unfold filterBySeverity. rewrite severityOrder_rank.
    apply filter_ext. intros a. now rewrite severityOrder_rank. }
  split; [exact E|].
  intros a. rewrite E, filter_In, Z.leb_le. reflexivity.
Qed.

Lemma filterBySeverity_retains_witness :
  In (Fixture.anAnomaly sev_error "k1" None)
     (filterBySeverity
        [Fixture.anAnomaly sev_info "k0" None; Fixture.anAnomaly sev_error "k1" None]
        (severity_string sev_warning)).
Proof.
  apply (proj2 (filterBySeverity_retains_exactly
                  [Fixture.anAnomaly sev_info "k0" None;
                   Fixture.anAnomaly sev_error "k1" None] sev_warning)).
  split.
  - simpl. right. left. reflexivity.
  - simpl. lia.
Defined.

(** ** Response parser: line ranges *)

Lemma lineBreaks_nonneg (text : string) : (0 <= lineBreaks text)%Z.
Proof.
  induction text as [|c rest IH]; simpl; [lia|].
  destruct (Ascii.eqb c "010"%char); lia.
Qed.

(** [content.split('\n').length] is the number of lines of the content. *)
Lemma length_split_nl (text : string) :
  Z.of_nat (length (split_nl text)) = lineCount text.
Proof.
  unfold split_nl, lineCount.
  induction text as [|c rest IH]; [reflexivity|].
  cbn [splitOn lineBreaks].
  destruct (Ascii.eqb c "010"%char).
  - cbn [length]. lia.
  - destruct (splitOn (fun c0 => Ascii.eqb c0 "010"%char) rest) as [|piece pieces].
    + pose proof (lineBreaks_nonneg rest). cbn [length] in *. lia.
    + cbn [length] in *. lia.
Qed.

(** What the constructor of the host stores: the two lines, in order. It
    refuses a negative line. *)
Lemma newRange_lines (l1 c1 l2 c2 : Z) (r : Range) :
  newRange l1 c1 l2 c2 = inr r ->
  (0 <= l1)%Z /\ (0 <= l2)%Z
  /\ line (start r) = Z.min l1 l2
  /\ line (end_ r) = Z.max l1 l2.
Proof.
  unfold newRange, newPosition, isBefore.
  destruct (Z.ltb_spec l1 0); [discriminate|].
  destruct (Z.ltb_spec c1 0); [discriminate|].
  destruct (Z.ltb_spec l2 0); [discriminate|].
  destruct (Z.ltb_spec c2 0); [discriminate|].
  cbn [line character].
  destruct (Z.ltb_spec l1 l2); cbn [orb].
  - intros [= <-]. cbn [start end_ line]. lia.
  - destruct (Z.eqb_spec l1 l2); cbn [andb].
    + destruct (c1 <? c2)%Z; intros [= <-]; cbn [start end_ line]; lia.
    + intros [= <-]. cbn [start end_ line]. lia.
Qed.



(** What the callback of [parseAnomalies] returns, when it returns: the
    clamped end line is not negative, and the range holds the clamped start
    line and the clamped end line, the smaller one first. *)
Lemma parseAnomaly_inv lines fileName a index now x :
  parseAnomaly lines fileName a index now = inr x ->
  let first := Z.max 0 (startLine a - 1) in
  let final := Z.min (Z.of_nat (length lines) - 1) (endLine a - 1) in
  (0 <= final)%Z
  /\ rangeLines x = (Z.min first final, Z.max first final)
  /\ file (location x) = fileName
  /\ codeSnippet (location x) = join nl (slice lines first (final + 1))
  /\ type x = mapAnomalyType (ai_type a)
  /\ severity x = mapSeverity (ai_severity a)
  /\ title x = ai_title a
  /\ description x = ai_description a
  /\ suggestion x = ai_suggestion a.
Proof.
  unfold parseAnomaly.
  destruct (newRange _ _ _ _) as [e | r] eqn:Hr; [discriminate|].
  intros [= <-]. apply newRange_lines in Hr.
  destruct Hr as (_ & Hfinal & Hs & He).
  cbv zeta. unfold rangeLines. cbn [location range file codeSnippet type severity
                                     title description suggestion].
  rewrite Hs, He. repeat split; auto.
Qed.


(** Whatever the [map] of [parseAnomalies] does, it only reads the clock. *)
Lemma parseAnomaliesFrom_answers env lines fileName :
  forall (ais : list AIAnomaly) (index : Z) (s : State) r s',
    parseAnomaliesFrom env lines fileName index ais s = (r, s') ->
    exists k, s' = set_answers (answers s + k) s.
Proof.
  induction ais as [|a ais IH]; intros index s r s' Hrun.
  - cbn in Hrun. injection Hrun as <- <-. exists 0.
    rewrite Nat.add_0_r. destruct s; reflexivity.
  - cbn [parseAnomaliesFrom] in Hrun. unfold bind at 1 in Hrun.
    unfold ask at 1 in Hrun. unfold bind at 1 in Hrun.
    destruct (parseAnomaly lines fileName a index (Date_now env (answers s)))
      as [e | x].
    + cbn in Hrun. injection Hrun as <- <-. exists 1.
      now rewrite Nat.add_1_r.
    + cbn [lift] in Hrun. unfold ret at 1 in Hrun. unfold bind at 1 in Hrun.
      destruct (parseAnomaliesFrom env lines fileName (index + 1) ais
                  (set_answers (S (answers s)) s)) as [[parsed | e] s1] eqn:E;
        apply IH in E; destruct E as (k & ->);
        cbn in Hrun; injection Hrun as <- <-; exists (S k);
        replace (answers s + S k) with (S (answers s) + k) by lia;
        reflexivity.
Qed.






(** The scenarios, run: lines 5 to 5 of a 10-line file give the range 4 to
    4; an end line of 99 is clamped to line 9; a report on line 0 is refused
    by the constructor of the host, after the clock was read. *)
Example parseAnomalies_ten_lines :
  lineCount Fixture.tenLines = 10%Z
  /\ (let reported first final :=
        {| ai_type := "potential_bug"; ai_severity := "error";
           startLine := first; endLine := final; ai_title := "t";
           ai_description := "d"; ai_suggestion := None |} in
      match fst (parseAnomalies Fixture.reviewed
                   [reported 5%Z 5%Z; reported 8%Z 99%Z]
                   "/ws/a.ts" Fixture.tenLines Fixture.initial) with
      | Normal out => map rangeLines out = [(4%Z, 4%Z); (7%Z, 9%Z)]
      | Throw _ => False
      end)
  /\ parseAnomalies Fixture.reviewed [Samples.nowhere] "/ws/a.ts"
       Fixture.tenLines Fixture.initial
     = (Throw (illegalArgument "line must be non-negative"),
        set_answers 1 Fixture.initial).
Proof. repeat split; vm_compute; reflexivity. Qed.

(** ** Model client: how [analyze] ends *)

Lemma truthy_false (text : string) : truthy text = false <-> text = "".
Proof.
  unfold truthy. destruct (String.eqb_spec text ""); simpl; split; congruence.
Qed.

Lemma truthy_true (text : string) : truthy text = true <-> text <> "".
Proof.
  unfold truthy. destruct (String.eqb_spec text ""); simpl; split; congruence.
Qed.

(** Without a client nothing is asked and nothing changes. *)
Lemma analyze_without_client env context customRules s :
  client s = false ->
  analyze env context customRules s
  = (Throw (Error "OpenAI API key not configured"), s).
Proof.
  intros H. unfold analyze. js_unfold. rewrite H. reflexivity.
Qed.

(** C2, as the code has it. With a client, [analyze] asks the remote once.
    When the call is rejected it logs the error and rethrows it. When the
    reply has no content, or an empty one, it returns the empty list. When
    the content is not empty and [JSON.parse] throws on it, [analyze] logs
    that error and rethrows it, as for a rejected call; it does not return
    an empty list. *)
Theorem analyze_outcomes :
  forall (env : Env) (context : AnalysisContext)
         (customRules : option (list ReviewRule)) (s : State),
    client s = true ->
    let rules := orElse customRules (filter enabled DEFAULT_RULES) in
    let reply :=
      createCompletion env (answers s)
        (analysisRequest (model (config s)) rules context) in
    let s1 := set_answers (S (answers s)) s in
    let failed e :=
      set_console (console s1 ++ [("OpenAI analysis error:", e)]) s1 in
    (forall e, reply = inl e ->
       analyze env context customRules s = (Throw e, failed e))
    /\ (reply = inr None \/ reply = inr (Some "") ->
        analyze env context customRules s = (Normal [], s1))
    /\ (forall text e,
          reply = inr (Some text) -> text <> "" -> JSON_parse env text = inl e ->
          analyze env context customRules s = (Throw e, failed e)).
Proof.
  intros env context customRules s Hclient rules reply s1 failed.
  subst rules reply s1 failed.
  repeat split.
  - intros e He. unfold analyze. js_unfold. rewrite Hclient. cbn [negb].
    rewrite He. reflexivity.
  - intros [He | He]; unfold analyze; js_unfold; rewrite Hclient; cbn [negb];
      rewrite He; reflexivity.
  - intros text e He Htext Hparse. apply truthy_true in Htext.
    unfold analyze. js_unfold. rewrite Hclient. cbn [negb].
    rewrite He, Htext. cbn [negb]. rewrite Hparse. reflexivity.
Qed.

Lemma analyze_outcomes_witness :
  analyze Fixture.babbling Fixture.aFile None Fixture.initial
  = (Throw SyntaxError,
     set_console [("OpenAI analysis error:", SyntaxError)]
       (set_answers 1 Fixture.initial)).
Proof.
  apply (proj2 (proj2
           (analyze_outcomes Fixture.babbling Fixture.aFile None Fixture.initial
              eq_refl))
         "not json" SyntaxError).
  - reflexivity.
  - discriminate.
  - reflexivity.
Defined.

(** C2 as stated fails: the remote answers with the content [not json],
    [JSON.parse] throws a [SyntaxError] on it, and [analyze] throws that
    error instead of returning an empty list. *)
Lemma analyze_unparsable_throws :
  client Fixture.initial = true
  /\ createCompletion Fixture.babbling (answers Fixture.initial)
       (analysisRequest (model (config Fixture.initial))
          (filter enabled DEFAULT_RULES) Fixture.aFile)
     = inr (Some "not json")
  /\ JSON_parse Fixture.babbling "not json" = inl SyntaxError
  /\ fst (analyze Fixture.babbling Fixture.aFile None Fixture.initial)
     = Throw SyntaxError
  /\ fst (analyze Fixture.babbling Fixture.aFile None Fixture.initial)
     <> Normal [].
Proof.
  repeat split; try (vm_compute; reflexivity).
  vm_compute. discriminate.
Qed.

(** ** Rule merge *)

Section RuleMerge.

Lemma In_set_inv {V : Type} (k : string) (v : V) (m : JsMap.t V) k' v' :
  In (k', v') (JsMap.set k v m) -> In (k', v') m \/ (k' = k /\ v' = v).
Proof.
  induction m as [|[k0 v0] m IH]; simpl.
  - intros [[= <- <-] | []]. now right.
  - destruct (String.eqb k k0) eqn:E; simpl.
    + apply String.eqb_eq in E. subst k0.
      intros [[= <- <-] | H]; [now right | left; now right].
    + intros [H | H]; [left; now left|].
      apply IH in H. tauto.
Qed.

Lemma keyed_fold (l : list ReviewRule) :
  forall m, keyed m -> keyed (fold_left setRule l m).
Proof.
  induction l as [|r l IH]; intros m Hm; simpl; auto.
  apply IH. intros k r' Hin. apply In_set_inv in Hin.
  destruct Hin as [Hin | [-> ->]]; auto.
Qed.

Lemma wf_fold (l : list ReviewRule) :
  forall m, JsMap.wf m -> JsMap.wf (fold_left setRule l m).
Proof.
  induction l as [|r l IH]; intros m Hm; simpl; auto.
  apply IH. now apply JsMapFacts.wf_set.
Qed.

Lemma get_fold (l : list ReviewRule) :
  forall m i,
    JsMap.get i (fold_left setRule l m)
    = match lastWithId i l with
      | Some r => Some r
      | None => JsMap.get i m
      end.
Proof.
  induction l as [|r l IH]; intros m i; simpl; auto.
  rewrite IH. destruct (lastWithId i l); auto.
  unfold setRule. destruct (String.eqb_spec (rule_id r) i) as [-> | Hne].
  - apply JsMapFacts.get_set_same.
  - now apply JsMapFacts.get_set_other.
Qed.

Lemma keys_fold (l : list ReviewRule) :
  forall m,
    JsMap.keys (fold_left setRule l m)
    = fold_left (fun seen i => if in_dec string_dec i seen then seen else seen ++ [i])
                (map rule_id l) (JsMap.keys m).
Proof.
  induction l as [|r l IH]; intros m; simpl; auto.
  rewrite IH. unfold setRule. now rewrite JsMapFacts.keys_set.
Qed.

Lemma lastWithId_In i l r : lastWithId i l = Some r -> In r l /\ rule_id r = i.
Proof.
  induction l as [|r0 l IH]; simpl; [discriminate|].
  destruct (lastWithId i l) as [r'|].
  - intros [= ->]. destruct IH; auto.
  - destruct (String.eqb_spec (rule_id r0) i); [|discriminate].
    intros [= ->]. auto.
Qed.

Lemma lastWithId_None i l : lastWithId i l = None <-> ~ In i (map rule_id l).
Proof.
  induction l as [|r0 l IH]; simpl; [tauto|].
  destruct (lastWithId i l) as [r'|].
  - split; [discriminate|]. intros H. exfalso. apply H. right.
    apply Decidable.not_not.
    + destruct (in_dec string_dec i (map rule_id l)); [left | right]; auto.
    + intros Hn. apply IH in Hn. discriminate.
  - destruct (String.eqb_spec (rule_id r0) i).
    + split; [discriminate | tauto].
    + split; auto. intros _ [H | H]; [contradiction|].
      now apply (proj1 IH).
Qed.

(** With unique ids, the rule an id names is any rule of the list with that
    id. *)
Lemma lastWithId_unique l r :
  NoDup (map rule_id l) -> In r l -> lastWithId (rule_id r) l = Some r.
Proof.
  induction l as [|r0 l IH]; simpl; [tauto|].
  intros Hnd Hin. inversion Hnd as [|? ? Hn Hnd']; subst.
  destruct Hin as [-> | Hin].
  - apply lastWithId_None in Hn. rewrite Hn. now rewrite String.eqb_refl.
  - now rewrite IH.
Qed.

Lemma In_mergeRules workspaceRules userRules r :
  In r (mergeRules workspaceRules userRules)
  <-> JsMap.get (rule_id r) (mergedRuleMap workspaceRules userRules) = Some r.
Proof.
  unfold mergeRules, mergedRuleMap.
  set (M := fold_left setRule userRules (fold_left setRule workspaceRules JsMap.empty)).
  assert (HK : keyed M).
  { apply keyed_fold, keyed_fold. intros k r' []. }
  assert (HW : JsMap.wf M).
  { apply wf_fold, wf_fold. apply JsMapFacts.wf_empty. }
  split.
  - unfold JsMap.values. intros H. apply in_map_iff in H.
    destruct H as ([k r'] & Heq & Hin). simpl in Heq. subst r'.
    rewrite <- (HK k r Hin). now apply JsMapFacts.In_get.
  - intros H. apply JsMapFacts.get_Some_In in H.
    unfold JsMap.values. change r with (snd (rule_id r, r)). now apply in_map.
Qed.

Lemma mergeRules_ids workspaceRules userRules :
  map rule_id (mergeRules workspaceRules userRules)
  = JsMap.keys (mergedRuleMap workspaceRules userRules).
Proof.
  unfold mergeRules, mergedRuleMap.
  set (M := fold_left setRule userRules (fold_left setRule workspaceRules JsMap.empty)).
  assert (HK : keyed M).
  { apply keyed_fold, keyed_fold. intros k r' []. }
  clearbody M. unfold JsMap.values, JsMap.keys.
  induction M as [|[k r] M IH]; simpl; auto.
  rewrite IH.
  - f_equal. symmetry. apply HK. now left.
  - intros k' r' H. apply HK. now right.
Qed.

End RuleMerge.

Lemma set_answers_twice n m s : set_answers n (set_answers m s) = set_answers n s.
Proof. reflexivity. Qed.

Lemma set_answers_same s : set_answers (answers s) s = s.
Proof. destruct s; reflexivity. Qed.

(** [loadWorkspaceConfig] never throws: a missing folder, an unreadable file
    and an unparsable file all give [null]. *)
Lemma loadWorkspaceConfig_run env s :
  loadWorkspaceConfig env s
  = match workspaceFolders env (answers s) with
    | None => (Normal None, set_answers (S (answers s)) s)
    | Some folder =>
        (Normal
           match readFile env (S (answers s))
                   (joinPath env folder [".syntaxtual.json"]) with
           | inr text =>
               match JSON_parse_config env text with
               | inr cfg => Some cfg
               | inl _ => None
               end
           | inl _ => None
           end,
         set_answers (S (S (answers s))) s)
    end.
Proof.
  unfold loadWorkspaceConfig. js_unfold.
  destruct (workspaceFolders env (answers s)) as [folder|]; [|reflexivity].
  change (answers (set_answers (S (answers s)) s)) with (S (answers s)).
  destruct (readFile env (S (answers s)) (joinPath env folder [".syntaxtual.json"]))
    as [e | text]; [reflexivity|].
  destruct (JSON_parse_config env text); reflexivity.
Qed.

Lemma getMergedRules_run env s :
  exists workspaceRules n,
    getMergedRules env s
    = (Normal (mergeRules workspaceRules (customRules (config s))), set_answers n s)
    /\ (forall folder text cfg,
          workspaceFolders env (answers s) = Some folder ->
          readFile env (S (answers s)) (joinPath env folder [".syntaxtual.json"])
          = inr text ->
          JSON_parse_config env text = inr cfg ->
          workspaceRules = orElse (rules cfg) []).
Proof.
  unfold getMergedRules. unfold bind at 1. unfold read at 1. unfold bind at 1.
  rewrite loadWorkspaceConfig_run.
  destruct (workspaceFolders env (answers s)) as [folder|].
  - eexists _, _. split; [reflexivity|].
    intros folder' text cfg [= <-] Hread Hparse. now rewrite Hread, Hparse.
  - exists [], (S (answers s)). split; [reflexivity|]. discriminate.
Qed.

Lemma mergedRuleMap_get workspaceRules userRules i :
  JsMap.get i (mergedRuleMap workspaceRules userRules)
  = match lastWithId i userRules with
    | Some r => Some r
    | None => lastWithId i workspaceRules
    end.
Proof.
  unfold mergedRuleMap. rewrite !get_fold.
  destruct (lastWithId i userRules); auto.
  destruct (lastWithId i workspaceRules); auto.
Qed.

(** C7. [getMergedRules] returns the merge of the workspace rules with the
    user rules of the settings. The merge sets the workspace rules first and
    the user rules after them: it holds one rule per id, in the order in
    which the ids first occur in the workspace list followed by the user
    list; for an id that both lists have, the merged rule with that id is a
    user rule (the user rule, when user ids are unique); and when ids are
    unique within each list, every user rule and every workspace rule whose
    id no user rule has is in the result. *)
Theorem getMergedRules_user_precedence :
  (forall (env : Env) (s : State),
    exists workspaceRules n,
      getMergedRules env s
      = (Normal (mergeRules workspaceRules (customRules (config s))),
         set_answers n s)
      /\ (forall folder text cfg,
            workspaceFolders env (answers s) = Some folder ->
            readFile env (S (answers s)) (joinPath env folder [".syntaxtual.json"])
            = inr text ->
            JSON_parse_config env text = inr cfg ->
            workspaceRules = orElse (rules cfg) []))
  /\ (forall workspaceRules userRules : list ReviewRule,
        let merged := mergeRules workspaceRules userRules in
        map rule_id merged
        = firstOccurrences (map rule_id (workspaceRules ++ userRules))
        /\ NoDup (map rule_id merged)
        /\ (forall r, In r merged <->
              lastWithId (rule_id r) userRules = Some r
              \/ (lastWithId (rule_id r) userRules = None
                  /\ lastWithId (rule_id r) workspaceRules = Some r))
        /\ (forall w u,
              In w workspaceRules -> In u userRules -> rule_id w = rule_id u ->
              exists r,
                In r merged /\ rule_id r = rule_id u /\ In r userRules
                /\ (forall r', In r' merged -> rule_id r' = rule_id u -> r' = r)
                /\ (NoDup (map rule_id userRules) -> r = u))
        /\ (NoDup (map rule_id workspaceRules) ->
            NoDup (map rule_id userRules) ->
            forall r,
              In r userRules
              \/ (In r workspaceRules /\ ~ In (rule_id r) (map rule_id userRules)) ->
              In r merged)).
Proof.
  split; [exact getMergedRules_run|].
  intros ws us merged. subst merged.
  assert (Hiff : forall r, In r (mergeRules ws us) <->
            lastWithId (rule_id r) us = Some r
            \/ (lastWithId (rule_id r) us = None
                /\ lastWithId (rule_id r) ws = Some r)).
  { intros r. rewrite In_mergeRules, mergedRuleMap_get.
    destruct (lastWithId (rule_id r) us) as [r'|]; split.
    - intros H. now left.
    - intros [H | [H _]]; [exact H | discriminate].
    - intros H. right. now split.
    - intros [H | [_ H]]; [discriminate | exact H]. }
  split; [|split; [|split; [exact Hiff | split]]].
  - rewrite mergeRules_ids. unfold mergedRuleMap, firstOccurrences.
    rewrite !keys_fold, map_app, fold_left_app. reflexivity.
  - rewrite mergeRules_ids. unfold mergedRuleMap.
    apply wf_fold, wf_fold, JsMapFacts.wf_empty.
  - intros w u Hw Hu Hid.
    destruct (lastWithId (rule_id u) us) as [r|] eqn:E.
    + pose proof (lastWithId_In _ _ E) as [Hin Hrid].
      exists r. split; [|split; [|split; [|split]]]; auto.
      * apply Hiff. left. now rewrite Hrid.
      * intros r' Hr' Hid'. apply In_mergeRules in Hr'.
        rewrite mergedRuleMap_get, Hid', E in Hr'. congruence.
      * intros Hnd. rewrite (@lastWithId_unique us u Hnd Hu) in E. congruence.
    + apply lastWithId_None in E. exfalso. apply E. now apply in_map.
  - intros Hws Hus r [Hr | [Hr Hn]]; apply Hiff.
    + left. now apply lastWithId_unique.
    + right. split.
      * now apply lastWithId_None.
      * now apply lastWithId_unique.
Qed.

Lemma getMergedRules_user_precedence_witness :
  In (Fixture.aRule "r1" "from the user")
     (mergeRules
        [Fixture.aRule "r1" "from the workspace"; Fixture.aRule "r2" "workspace only"]
        [Fixture.aRule "r1" "from the user"; Fixture.aRule "r3" "user only"])
  /\ In (Fixture.aRule "r2" "workspace only")
        (mergeRules
           [Fixture.aRule "r1" "from the workspace"; Fixture.aRule "r2" "workspace only"]
           [Fixture.aRule "r1" "from the user"; Fixture.aRule "r3" "user only"]).
Proof.
  pose proof (proj2 (proj2 (proj2 (proj2
    (proj2 getMergedRules_user_precedence
       [Fixture.aRule "r1" "from the workspace"; Fixture.aRule "r2" "workspace only"]
       [Fixture.aRule "r1" "from the user"; Fixture.aRule "r3" "user only"])))))
    as H.
  cbv zeta in H.
  assert (Hws : NoDup (map rule_id
            [Fixture.aRule "r1" "from the workspace";
             Fixture.aRule "r2" "workspace only"])).
  { simpl. repeat constructor; simpl; intuition discriminate. }
  assert (Hus : NoDup (map rule_id
            [Fixture.aRule "r1" "from the user"; Fixture.aRule "r3" "user only"])).
  { simpl. repeat constructor; simpl; intuition discriminate. }
  split; apply (H Hws Hus).
  - left. simpl. now left.
  - right. split.
    + simpl. right. now left.
    + simpl. intuition discriminate.
Defined.

(** The merge of the example, run. *)
Example mergeRules_example :
  map (fun r => (rule_id r, rule_name r))
      (mergeRules
         [Fixture.aRule "r1" "from the workspace"; Fixture.aRule "r2" "workspace only"]
         [Fixture.aRule "r1" "from the user"; Fixture.aRule "r3" "user only"])
  = [("r1", "from the user"); ("r2", "workspace only"); ("r3", "user only")].
Proof. reflexivity. Qed.

(** ** Conversation store *)

Lemma append_assoc (a b c : string) : (a +++ b) +++ c = a +++ (b +++ c).
Proof. induction a as [|x a IH]; simpl; [reflexivity | now rewrite IH]. Qed.

Lemma openingContent_renders (anomaly : Anomaly) :
  renders (openingContent anomaly) (title anomaly)
  /\ renders (openingContent anomaly) (description anomaly)
  /\ (forall text, suggestion anomaly = Some text ->
        renders (openingContent anomaly) text).
Proof.
  unfold renders, openingContent. split; [|split].
  - exists ("I've identified an issue in your code:" +++ nl +++ nl +++ "**").
    eexists. rewrite !append_assoc. reflexivity.
  - exists ("I've identified an issue in your code:" +++ nl +++ nl
            +++ "**" +++ title anomaly +++ "**" +++ nl +++ nl).
    eexists. rewrite !append_assoc. reflexivity.
  - intros text Hs. rewrite Hs. destruct (truthy text) eqn:E.
    + exists ("I've identified an issue in your code:" +++ nl +++ nl
              +++ "**" +++ title anomaly +++ "**" +++ nl +++ nl
              +++ description anomaly +++ nl +++ nl +++ "**Suggestion:** ").
      eexists. rewrite !append_assoc. reflexivity.
    + apply truthy_false in E. subst text. exists "". eexists. reflexivity.
Qed.

(** A known anomaly gets its conversation back and nothing changes. *)
Lemma startConversation_existing env anomaly s existing :
  JsMap.get (id anomaly) (conversations s) = Some existing ->
  startConversation env anomaly s = (Normal existing, s).
Proof.
  intros H. unfold startConversation. js_unfold. rewrite H. reflexivity.
Qed.

(** A new anomaly gets a conversation with the opening message, stored and
    saved. *)
Lemma startConversation_fresh env anomaly s :
  JsMap.get (id anomaly) (conversations s) = None ->
  let c :=
    {| conv_id := "conv-" +++ id anomaly;
       anomalyId := id anomaly;
       messages :=
         [{| msg_id := "msg-" +++ num (Date_now env (2 + answers s));
             role := assistant;
             content := openingContent anomaly;
             msg_timestamp := Date_now env (3 + answers s) |}];
       createdAt := Date_now env (answers s);
       updatedAt := Date_now env (1 + answers s) |} in
  let stored := JsMap.set (id anomaly) c (conversations s) in
  startConversation env anomaly s
  = (Normal c,
     set_globalState stored (set_conversations stored (set_answers (4 + answers s) s))).
Proof.
  intros H. unfold startConversation, saveConversations. js_unfold.
  rewrite H. reflexivity.
Qed.

(** C5. [startConversation] returns a conversation and, called again with
    the same anomaly, returns that same conversation (so the same id) and
    changes nothing: no message is added. When the anomaly had no
    conversation, the one created has the id [conv-<anomaly id>], belongs to
    the anomaly, holds exactly one message, from the assistant, whose text
    renders the anomaly's title, its description and, if it has one, its
    suggestion, and it is saved at once. *)
Theorem startConversation_idempotent :
  forall (env : Env) (anomaly : Anomaly) (s : State),
  exists (c : Conversation) (s1 : State),
    startConversation env anomaly s = (Normal c, s1)
    /\ startConversation env anomaly s1 = (Normal c, s1)
    /\ JsMap.get (id anomaly) (conversations s1) = Some c
    /\ (forall existing,
          JsMap.get (id anomaly) (conversations s) = Some existing ->
          c = existing /\ s1 = s)
    /\ (JsMap.get (id anomaly) (conversations s) = None ->
        conv_id c = "conv-" +++ id anomaly
        /\ anomalyId c = id anomaly
        /\ (exists m, messages c = [m] /\ role m = assistant
                      /\ content m = openingContent anomaly
                      /\ renders (content m) (title anomaly)
                      /\ renders (content m) (description anomaly)
                      /\ (forall text, suggestion anomaly = Some text ->
                            renders (content m) text))
        /\ conversations s1 = JsMap.set (id anomaly) c (conversations s)
        /\ globalState s1 = conversations s1).
Proof.
  intros env anomaly s.
  destruct (JsMap.get (id anomaly) (conversations s)) as [existing|] eqn:E.
  - exists existing, s.
    rewrite (startConversation_existing env anomaly s E).
    split; [reflexivity|]. split; [reflexivity|]. split; [exact E|].
    split; [|congruence].
    intros existing' H. split; congruence.
  - rewrite (startConversation_fresh env anomaly s E).
    eexists _, _. split; [reflexivity|].
    split.
    + apply startConversation_existing. cbn [conversations set_globalState set_conversations].
      apply JsMapFacts.get_set_same.
    + split; [apply JsMapFacts.get_set_same|].
      split; [discriminate|].
      intros _. repeat split.
      eexists. split; [reflexivity|]. split; [reflexivity|]. split; [reflexivity|].
      apply openingContent_renders.
Qed.

Lemma startConversation_idempotent_witness :
  exists c s1,
    startConversation Fixture.reviewed
      (Fixture.anAnomaly sev_error "/ws/a.ts-0-1700000000005" (Some "Use a strict bound"))
      Fixture.initial = (Normal c, s1)
    /\ conv_id c = "conv-/ws/a.ts-0-1700000000005"
    /\ length (messages c) = 1.
Proof.
  destruct (startConversation_idempotent Fixture.reviewed
              (Fixture.anAnomaly sev_error "/ws/a.ts-0-1700000000005"
                 (Some "Use a strict bound"))
              Fixture.initial)
    as (c & s1 & Hrun & _ & _ & _ & Hnew).
  exists c, s1. split; [exact Hrun|].
  destruct (Hnew eq_refl) as (Hid & _ & (m & Hm & _) & _).
  split; [exact Hid|]. now rewrite Hm.
Defined.

(** Two calls on the fresh store, run: one conversation, one message. *)
Example startConversation_twice :
  let anomaly := Fixture.anAnomaly sev_error "k" (Some "Use a strict bound") in
  let (first, s1) := startConversation Fixture.reviewed anomaly Fixture.initial in
  let (second, s2) := startConversation Fixture.reviewed anomaly s1 in
  first = second /\ s2 = s1
  /\ map (fun kv => (fst kv, length (messages (snd kv)))) (conversations s2)
     = [("k", 1)].
Proof. vm_compute. repeat split. Qed.

(** C6. When no conversation exists for [anomalyId], [sendMessage] throws
    the not-found error and the state it leaves is the state it found: no
    conversation is created, no message appended, nothing saved, nothing
    emitted and the environment is not even asked. *)
Theorem sendMessage_not_found :
  forall (env : Env) (anomalyId content : string) (anomalyContext : AnomalyContext)
         (s : State),
    JsMap.get anomalyId (conversations s) = None ->
    sendMessage env anomalyId content anomalyContext s = (Throw NotFound, s).
Proof.
  intros env anomalyId content anomalyContext s H.
  unfold sendMessage. js_unfold. rewrite H. reflexivity.
Qed.

Lemma sendMessage_not_found_witness :
  sendMessage Fixture.reviewed "no-such-anomaly" "why?" Fixture.aContext Fixture.initial
  = (Throw NotFound, Fixture.initial).
Proof.
  apply (sendMessage_not_found Fixture.reviewed "no-such-anomaly" "why?"
           Fixture.aContext Fixture.initial).
  reflexivity.
Defined.

Lemma set_set_same {V : Type} (k : string) (v1 v2 : V) (m : JsMap.t V) :
  JsMap.set k v2 (JsMap.set k v1 m) = JsMap.set k v2 m.
Proof.
  induction m as [|[k' v'] m IH]; simpl.
  - now rewrite String.eqb_refl.
  - destruct (String.eqb k k') eqn:E; simpl; rewrite E; [reflexivity|].
    now rewrite IH.
Qed.

(** [chat] asks the remote at most once and writes to the console only. *)
Lemma chat_frame env history anomalyContext s r s' :
  chat env history anomalyContext s = (r, s') ->
  conversations s' = conversations s
  /\ globalState s' = globalState s
  /\ emitted s' = emitted s
  /\ analysisCache s' = analysisCache s.
Proof.
  unfold chat. js_unfold.
  destruct (client s); cbn [negb].
  - destruct (createCompletion env (answers s)
                (chatRequest (model (config s)) history anomalyContext))
      as [e | [text|]].
    + intros [= <- <-]. auto.
    + destruct (truthy text); intros [= <- <-]; auto.
    + intros [= <- <-]. auto.
  - intros [= <- <-]. auto.
Qed.

(** How [chat] fails: there is no client, or the remote call is rejected. *)
Lemma chat_throws env history anomalyContext s e s' :
  chat env history anomalyContext s = (Throw e, s') <->
  (client s = false /\ e = Error "OpenAI API key not configured" /\ s' = s)
  \/ (client s = true
      /\ createCompletion env (answers s)
           (chatRequest (model (config s)) history anomalyContext) = inl e
      /\ s' = set_console (console s ++ [("OpenAI chat error:", e)])
                (set_answers (S (answers s)) s)).
Proof.
  unfold chat. js_unfold.
  destruct (client s); cbn [negb].
  - destruct (createCompletion env (answers s)
                (chatRequest (model (config s)) history anomalyContext))
      as [e0 | [text|]].
    + split.
      * intros [= <- <-]. right. auto.
      * intros [(H & _) | (_ & [= <-] & ->)]; [discriminate | reflexivity].
    + destruct (truthy text); split; try discriminate;
        intros [(H & _) | (_ & H & _)]; discriminate.
    + split; try discriminate.
      intros [(H & _) | (_ & H & _)]; discriminate.
  - split.
    + intros [= <- <-]. left. auto.
    + intros [(_ & -> & ->) | (H & _)]; [reflexivity | discriminate].
Qed.

(** The state of [sendMessage] when it calls [chat]: the user message is
    appended, [updatedAt] is set, three clock readings were taken. *)
Lemma sendMessage_run env anomalyId content anomalyContext s c :
  JsMap.get anomalyId (conversations s) = Some c ->
  let userMessage :=
    {| msg_id := "msg-" +++ num (Date_now env (answers s));
       role := user;
       content := content;
       msg_timestamp := Date_now env (1 + answers s) |} in
  let c1 := touch (pushMessage c userMessage) (Date_now env (2 + answers s)) in
  let mid :=
    set_conversations (JsMap.set anomalyId c1 (conversations s))
      (set_answers (3 + answers s) s) in
  forall e s',
    chat env (filter notSystem (messages c1)) anomalyContext mid = (Throw e, s') ->
    sendMessage env anomalyId content anomalyContext s = (Throw e, s').
Proof.
  intros Hc userMessage c1 mid e s' Hchat.
  unfold sendMessage. unfold bind at 1. unfold read at 1. rewrite Hc.
  unfold mutated. js_unfold.
  cbn [answers set_answers conversations set_conversations].
  rewrite set_set_same.
  match goal with
  | |- context [chat env ?h anomalyContext ?st] =>
      change (chat env h anomalyContext st)
        with (chat env (filter notSystem (messages c1)) anomalyContext mid)
  end.
  rewrite Hchat. reflexivity.
Qed.

(** C10. When the conversation exists and the [chat] call inside
    [sendMessage] fails, [sendMessage] fails with the same error and nothing
    is rolled back: the conversation of the map holds the user message,
    appended after the messages it had, and its [updatedAt] is the clock
    reading taken after the append; the saved store and the emitted
    notifications are what they were. *)
Theorem sendMessage_chat_failure_keeps_user_message :
  forall (env : Env) (anomalyId text : string) (anomalyContext : AnomalyContext)
         (s : State) (c : Conversation),
    JsMap.get anomalyId (conversations s) = Some c ->
    let userMessage :=
      {| msg_id := "msg-" +++ num (Date_now env (answers s));
         role := user;
         content := text;
         msg_timestamp := Date_now env (1 + answers s) |} in
    let c1 := touch (pushMessage c userMessage) (Date_now env (2 + answers s)) in
    let mid :=
      set_conversations (JsMap.set anomalyId c1 (conversations s))
        (set_answers (3 + answers s) s) in
    forall (e : JsError) (s' : State),
      chat env (filter notSystem (messages c1)) anomalyContext mid = (Throw e, s') ->
      sendMessage env anomalyId text anomalyContext s = (Throw e, s')
      /\ JsMap.get anomalyId (conversations s') = Some c1
      /\ messages c1 = messages c ++ [userMessage]
      /\ role userMessage = user
      /\ content userMessage = text
      /\ updatedAt c1 = Date_now env (2 + answers s)
      /\ conv_id c1 = conv_id c
      /\ globalState s' = globalState s
      /\ emitted s' = emitted s.
Proof.
  intros env anomalyId text anomalyContext s c Hc userMessage c1 mid e s' Hchat.
  split.
  { eapply sendMessage_run; eassumption. }
  destruct (@chat_frame env _ _ _ _ _ Hchat) as (Hconv & Hsaved & Hemitted & _).
  split.
  { rewrite Hconv. subst mid. cbn [conversations set_conversations].
    apply JsMapFacts.get_set_same. }
  repeat split; auto.
Qed.

Lemma sendMessage_chat_failure_witness :
  exists e s',
    sendMessage Fixture.offline "k" "why?" Fixture.aContext Fixture.chatting
    = (Throw e, s')
    /\ option_map (fun c => map role (messages c)) (JsMap.get "k" (conversations s'))
       = Some [assistant; user]
    /\ globalState s' = globalState Fixture.chatting
    /\ emitted s' = [].
Proof.
  eexists _, _.
  pose proof (@sendMessage_chat_failure_keeps_user_message
                Fixture.offline "k" "why?" Fixture.aContext Fixture.chatting _
                eq_refl) as H.
  cbv zeta in H.
  edestruct H as (Hrun & Hget & _ & _ & _ & _ & _ & Hsaved & Hemitted);
    [reflexivity|].
  split; [exact Hrun|].
  split; [rewrite Hget; reflexivity|].
  split; [exact Hsaved | exact Hemitted].
Defined.

(** The failed send, run: the conversation holds the opening message and
    the user message, the saved one only the opening message, and the
    failure is logged. *)
Example sendMessage_offline :
  let (r, s') :=
    sendMessage Fixture.offline "k" "why?" Fixture.aContext Fixture.chatting in
  r = Throw {| name := "APIConnectionError"; message := "Connection error." |}
  /\ map (fun kv => map role (messages (snd kv))) (conversations s')
     = [[assistant; user]]
  /\ map (fun kv => map role (messages (snd kv))) (globalState s')
     = [[assistant]]
  /\ emitted s' = []
  /\ map fst (console s') = ["OpenAI chat error:"].
Proof. vm_compute. repeat split. Qed.

(** The successful send, run: both messages are stored, saved and emitted. *)
Example sendMessage_online :
  let (r, s') :=
    sendMessage (Fixture.env (fun _ => Fixture.open) (Fixture.always "Because."))
      "k" "why?" Fixture.aContext Fixture.chatting in
  match r with Normal m => content m = "Because." /\ role m = assistant | _ => False end
  /\ map (fun kv => map role (messages (snd kv))) (conversations s')
     = [[assistant; user; assistant]]
  /\ globalState s' = conversations s'
  /\ map (fun c => length (messages c)) (emitted s') = [3].
Proof. vm_compute. repeat split. Qed.

(** ** Analysis engine: what a file analysis changes *)

Lemma quiet_refl s : quiet s s.
Proof. repeat split. Qed.

Lemma quiet_trans s1 s2 s3 : quiet s1 s2 -> quiet s2 s3 -> quiet s1 s3.
Proof.
  unfold quiet. intros (A1 & A2 & A3 & A4 & A5 & A6 & A7) (B1 & B2 & B3 & B4 & B5 & B6 & B7).
  repeat split; congruence.
Qed.

Lemma quiet_answers n s : quiet s (set_answers n s).
Proof. repeat split. Qed.

Lemma quiet_console l s : quiet s (set_console l s).
Proof. repeat split. Qed.

Create HintDb quiet.
#[local] Hint Resolve quiet_refl quiet_answers quiet_console : quiet.

Lemma bind_inv {A B : Type} (c : Js A) (k : A -> Js B) s r s' :
  bind c k s = (r, s') ->
  (exists a s1, c s = (Normal a, s1) /\ k a s1 = (r, s'))
  \/ (exists e, c s = (Throw e, s') /\ r = Throw e).
Proof.
  unfold bind. destruct (c s) as [[a | e] s1].
  - intros H. left. eauto.
  - intros [= <- <-]. right. eauto.
Qed.

Lemma openFirst_quiet env basePath :
  forall exts s, exists r s',
    openFirst env basePath exts s = (Normal r, s') /\ quiet s s'.
Proof.
  induction exts as [|ext exts IH]; intros s.
  - exists None, s. split; [reflexivity | auto with quiet].
  - cbn [openFirst]. js_unfold.
    destruct (openTextDocument env (answers s) (basePath +++ ext)) as [e | doc].
    + destruct (IH (set_answers (S (answers s)) s)) as (r & s' & Hrun & Hq).
      exists r, s'. split; [exact Hrun|].
      eapply quiet_trans; [apply quiet_answers | exact Hq].
    + eexists _, _. split; [reflexivity | auto with quiet].
Qed.

Lemma relatedLoop_quiet env uri :
  forall imports count related s, exists r s',
    relatedLoop env uri imports count related s = (Normal r, s') /\ quiet s s'.
Proof.
  induction imports as [|imp imports IH]; intros count related s.
  - exists related, s. split; [reflexivity | auto with quiet].
  - cbn [relatedLoop].
    destruct (3 <=? count)%Z.
    + exists related, s. split; [reflexivity | auto with quiet].
    + destruct (startsWith "." imp); [|apply IH].
      destruct (openFirst_quiet env (joinPath env uri [".."; imp]) extensions s)
        as (opened & s1 & Hopen & Hq1).
      unfold bind. rewrite Hopen.
      destruct opened as [f|].
      * destruct (IH (count + 1)%Z (related ++ [f]) s1) as (r & s' & Hrun & Hq).
        exists r, s'. split; [exact Hrun | eapply quiet_trans; eauto].
      * destruct (IH count related s1) as (r & s' & Hrun & Hq).
        exists r, s'. split; [exact Hrun | eapply quiet_trans; eauto].
Qed.

(** [getRelatedFiles] never throws. *)
Lemma getRelatedFiles_quiet env uri content s :
  exists r s', getRelatedFiles env uri content s = (Normal r, s') /\ quiet s s'.
Proof.
  unfold getRelatedFiles. js_unfold.
  destruct (getWorkspaceFolder env (answers s) uri).
  - destruct (relatedLoop_quiet env uri
                (flat_map (fun p => regexCaptures env p content) importPatterns)
                0%Z [] (set_answers (S (answers s)) s)) as (r & s' & Hrun & Hq).
    exists r, s'. split; [exact Hrun|].
    eapply quiet_trans; [apply quiet_answers | exact Hq].
  - eexists _, _. split; [reflexivity | auto with quiet].
Qed.

Lemma analyze_quiet env context customRules s r s' :
  analyze env context customRules s = (r, s') -> quiet s s'.
Proof.
  unfold analyze. js_unfold.
  destruct (client s); cbn [negb]; [|intros [= <- <-]; apply quiet_refl].
  destruct (createCompletion env (answers s) _) as [e | [text|]].
  - intros [= <- <-]. repeat split.
  - destruct (truthy text); cbn [negb].
    + destruct (JSON_parse env text) as [e | result].
      * intros [= <- <-]. repeat split.
      * js_unfold.
        destruct (parseAnomalies env (ai_anomalies result) (fileName context)
                    (ac_content context) (set_answers (S (answers s)) s))
          as [[out | e] s1] eqn:Hrun;
          apply parseAnomaliesFrom_answers in Hrun; destruct Hrun as (k & ->);
          intros [= <- <-]; repeat split.
    + intros [= <- <-]. repeat split.
  - intros [= <- <-]. repeat split.
Qed.

(** What [analyzeFile] does: on success it has stored, under the path, the
    threshold-filtered result of the [analyze] call for that file; on
    failure it has stored nothing. *)
Lemma analyzeFile_inv env uri s r s' :
  analyzeFile env uri s = (r, s') ->
  match r with
  | Normal found =>
      exists raw now context customRules sa sb,
        analyze env context customRules sa = (Normal raw, sb)
        /\ fileName context = uri
        /\ quiet s sa
        /\ found = filterBySeverity raw (severityThreshold (config s))
        /\ s' = set_analysisCache
                  (JsMap.set uri
                     {| anomalies := found; analyzedFiles := [uri]; timestamp := now |}
                     (analysisCache sb))
                  (set_answers (S (answers sb)) sb)
        /\ quiet s sb
  | Throw e => quiet s s'
  end.
Proof.
  unfold analyzeFile. unfold bind at 1. unfold read at 1.
  destruct (isConfigured s); cbn [negb];
    [|intros [= <- <-]; apply quiet_refl].
  unfold bind at 1. unfold await at 1.
  destruct (openTextDocument env (answers s) uri) as [e | document];
    [intros [= <- <-]; apply quiet_answers|].
  destruct (getRelatedFiles_quiet env uri (getText document)
              (set_answers (S (answers s)) s)) as (related & s2 & H2 & Q2).
  unfold bind at 1. rewrite H2.
  destruct (getMergedRules_run env s2) as (ws & n & H3 & _).
  unfold bind at 1. rewrite H3.
  match goal with
  | |- bind (analyze env ?ctx ?rules) _ ?st = _ -> _ =>
      destruct (analyze env ctx rules st) as [[raw | e] s4] eqn:Ha;
      pose proof (analyze_quiet _ _ _ _ Ha) as Q4;
      unfold bind at 1; rewrite Ha
  end.
  - js_unfold. intros [= <- <-].
    assert (Q : quiet s s4).
    { eapply quiet_trans; [apply quiet_answers|].
      eapply quiet_trans; [exact Q2|].
      eapply quiet_trans; [apply quiet_answers | exact Q4]. }
    eexists raw, _, _, _, _, s4. split; [exact Ha|].
    split; [reflexivity|].
    split.
    { eapply quiet_trans; [apply quiet_answers|].
      eapply quiet_trans; [exact Q2 | apply quiet_answers]. }
    split.
    { destruct Q as (Hc & _). now rewrite Hc. }
    split; [reflexivity | exact Q].
  - intros [= <- <-].
    eapply quiet_trans; [apply quiet_answers|].
    eapply quiet_trans; [exact Q2|].
    eapply quiet_trans; [apply quiet_answers | exact Q4].
Qed.

(** ** Analysis engine: the cache *)

(** C4. After a successful [analyzeFile] of a path, [getCachedResults] of
    that path returns an entry holding exactly the anomalies the analysis
    returned, which are the result of the file's [analyze] call filtered by
    the severity threshold; whatever entry the path had is overwritten, the
    other paths are untouched, and a cache with one entry per path keeps one
    entry per path. A failed analysis leaves the cache as it was. After
    [clearCache] of a path, [getCachedResults] of that path returns
    nothing. *)
Theorem analyzeFile_then_getCachedResults :
  (forall (env : Env) (uri : string) (s : State) (found : list Anomaly) (s1 : State),
      analyzeFile env uri s = (Normal found, s1) ->
      (exists entry,
          getCachedResults env (Some uri) s1 = (Normal (Some entry), s1)
          /\ anomalies entry = found
          /\ analyzedFiles entry = [uri])
      /\ (exists raw context customRules sa sb,
            analyze env context customRules sa = (Normal raw, sb)
            /\ fileName context = uri
            /\ quiet s sa
            /\ found = filterBySeverity raw (severityThreshold (config s)))
      /\ (forall p, p <> uri ->
            JsMap.get p (analysisCache s1) = JsMap.get p (analysisCache s))
      /\ (JsMap.wf (analysisCache s) ->
          JsMap.wf (analysisCache s1)
          /\ JsMap.occurrences uri (analysisCache s1) = 1
          /\ forall p, JsMap.occurrences p (analysisCache s1) <= 1))
  /\ (forall (env : Env) (uri : string) (s : State) (e : JsError) (s1 : State),
        analyzeFile env uri s = (Throw e, s1) ->
        analysisCache s1 = analysisCache s)
  /\ (forall (env : Env) (uri : string) (s : State),
        exists s2,
          clearCache (Some uri) s = (Normal tt, s2)
          /\ getCachedResults env (Some uri) s2 = (Normal None, s2)
          /\ (forall p, p <> uri ->
                JsMap.get p (analysisCache s2) = JsMap.get p (analysisCache s))
          /\ (JsMap.wf (analysisCache s) -> JsMap.wf (analysisCache s2))).
Proof.
  split; [|split].
  - intros env uri s found s1 Hrun.
    apply analyzeFile_inv in Hrun.
    destruct Hrun as (raw & now & context & customRules & sa & sb
                      & Ha & Hname & Qa & Hfound & -> & Q).
    destruct Q as (_ & _ & Hcache & _).
    cbn [getCachedResults analysisCache set_analysisCache]. unfold read.
    cbn [analysisCache set_analysisCache]. rewrite Hcache.
    split.
    { eexists. rewrite JsMapFacts.get_set_same. repeat split. }
    split.
    { exists raw, context, customRules, sa, sb. auto. }
    split.
    { intros p Hp. apply JsMapFacts.get_set_other. congruence. }
    intros Hwf. split; [now apply JsMapFacts.wf_set|].
    split; [now apply JsMapFacts.occurrences_set|].
    intros p. apply JsMapFacts.wf_occurrences. now apply JsMapFacts.wf_set.
  - intros env uri s e s1 Hrun.
    apply analyzeFile_inv in Hrun. destruct Hrun as (_ & _ & Hcache & _).
    exact Hcache.
  - intros env uri s. eexists. split; [reflexivity|].
    cbn [getCachedResults]. unfold read.
    cbn [analysisCache set_analysisCache].
    rewrite JsMapFacts.get_delete_same. split; [reflexivity|].
    split.
    + intros p Hp. apply JsMapFacts.get_delete_other. congruence.
    + apply JsMapFacts.wf_delete.
Qed.

Lemma analyzeFile_then_getCachedResults_witness :
  exists entry,
    getCachedResults Fixture.reviewed (Some "/ws/a.ts") Fixture.analysed
    = (Normal (Some entry), Fixture.analysed)
    /\ anomalies entry = Fixture.found
    /\ map rangeLines (anomalies entry) = [(4%Z, 4%Z)].
Proof.
  assert (Hrun : analyzeFile Fixture.reviewed "/ws/a.ts" Fixture.initial
                 = (Normal Fixture.found, Fixture.analysed)).
  { vm_compute. reflexivity. }
  destruct (proj1 analyzeFile_then_getCachedResults
              Fixture.reviewed "/ws/a.ts" Fixture.initial
              Fixture.found Fixture.analysed Hrun)
    as ((entry & Hget & Hanoms & _) & _).
  exists entry. split; [exact Hget|]. split; [exact Hanoms|].
  rewrite Hanoms. vm_compute. reflexivity.
Defined.

(** A second analysis of the same path replaces the entry of the first:
    here the remote first reviews, then answers without content. *)
Example analyzeFile_overwrites :
  let (_, s1) := analyzeFile Fixture.reviewed "/ws/a.ts" Fixture.initial in
  let (_, s2) := analyzeFile Fixture.silent "/ws/a.ts" s1 in
  map (fun kv => (fst kv, length (anomalies (snd kv)))) (analysisCache s1)
  = [("/ws/a.ts", 1)]
  /\ map (fun kv => (fst kv, length (anomalies (snd kv)))) (analysisCache s2)
     = [("/ws/a.ts", 0)].
Proof. vm_compute. split; reflexivity. Qed.

(** [getCachedResults()] without a path. *)
Lemma getCachedResults_all env s :
  getCachedResults env None s
  = match flat_map anomalies (JsMap.values (analysisCache s)) with
    | [] => (Normal None, s)
    | _ :: _ =>
        (Normal
           (Some {| anomalies := flat_map anomalies (JsMap.values (analysisCache s));
                    analyzedFiles :=
                      flat_map analyzedFiles (JsMap.values (analysisCache s));
                    timestamp := Date_now env (answers s) |}),
         set_answers (S (answers s)) s)
    end.
Proof.
  cbn [getCachedResults]. js_unfold.
  destruct (flat_map anomalies (JsMap.values (analysisCache s))); reflexivity.
Qed.

(** C8, as the code has it. Without a path, [getCachedResults] returns
    nothing exactly when the cached entries hold no anomaly at all, which
    includes the empty cache; otherwise it returns an aggregate whose
    anomalies are those of all the entries and whose analyzed files are
    those of all the entries, in the order of the cache. *)
Theorem getCachedResults_aggregate :
  forall (env : Env) (s : State),
    let cached := JsMap.values (analysisCache s) in
    (fst (getCachedResults env None s) = Normal None
     <-> flat_map anomalies cached = [])
    /\ (analysisCache s = [] -> getCachedResults env None s = (Normal None, s))
    /\ (flat_map anomalies cached <> [] ->
        exists aggregate s',
          getCachedResults env None s = (Normal (Some aggregate), s')
          /\ anomalies aggregate = flat_map anomalies cached
          /\ analyzedFiles aggregate = flat_map analyzedFiles cached
          /\ analysisCache s' = analysisCache s).
Proof.
  intros env s cached. subst cached. rewrite getCachedResults_all.
  split; [|split].
  - destruct (flat_map anomalies (JsMap.values (analysisCache s))); cbn [fst];
      split; congruence.
  - intros H. rewrite H. reflexivity.
  - intros H.
    destruct (flat_map anomalies (JsMap.values (analysisCache s))) eqn:E;
      [congruence|].
    eexists _, _. split; [reflexivity|]. repeat split.
Qed.

Lemma getCachedResults_aggregate_witness :
  exists aggregate s',
    getCachedResults Fixture.reviewed None Fixture.analysed
    = (Normal (Some aggregate), s')
    /\ anomalies aggregate = Fixture.found
    /\ analyzedFiles aggregate = ["/ws/a.ts"].
Proof.
  destruct (proj2 (proj2 (getCachedResults_aggregate Fixture.reviewed Fixture.analysed)))
    as (aggregate & s' & Hrun & Hanoms & Hfiles & _).
  { vm_compute. discriminate. }
  exists aggregate, s'. split; [exact Hrun|].
  split; [rewrite Hanoms | rewrite Hfiles]; vm_compute; reflexivity.
Defined.

(** C8 as stated fails: after the analysis of a file in which the remote
    finds nothing, the cache holds the entry of that file, and
    [getCachedResults] without a path returns nothing. *)
Lemma getCachedResults_absent_though_cached :
  fst (analyzeFile Fixture.silent "/ws/a.ts" Fixture.initial) = Normal []
  /\ JsMap.keys (analysisCache Fixture.analysedSilently) = ["/ws/a.ts"]
  /\ analysisCache Fixture.analysedSilently <> []
  /\ fst (getCachedResults Fixture.silent None Fixture.analysedSilently) = Normal None.
Proof.
  repeat split; try (vm_compute; reflexivity).
  vm_compute. discriminate.
Qed.

(** ** Analysis engine: repository scan *)

Lemma scanLoop_step env report f rest acc1 acc2 s :
  scanLoop env report (f :: rest) acc1 acc2 s
  = match analyzeFile env (fi_uri f) (announced report f s) with
    | (Normal found, s1) =>
        scanLoop env report rest (acc1 ++ found) (acc2 ++ [fi_uri f]) s1
    | (Throw e, s1) =>
        scanLoop env report rest acc1 acc2 (logged f e s1)
    end.
Proof.
  cbn [scanLoop]. js_unfold.
  destruct (analyzeFile env (fi_uri f) (announced report f s)) as [[found | e] s1];
    reflexivity.
Qed.

(** The loop never throws and scans the files as [Scanned] describes. *)
Lemma scanLoop_scanned env report :
  forall files acc1 acc2 s,
  exists anoms paths s',
    scanLoop env report files acc1 acc2 s = (Normal (acc1 ++ anoms, acc2 ++ paths), s')
    /\ Scanned env report files s anoms paths s'.
Proof.
  induction files as [|f rest IH]; intros acc1 acc2 s.
  - exists [], [], s. rewrite !app_nil_r. split; [reflexivity | constructor].
  - rewrite scanLoop_step.
    destruct (analyzeFile env (fi_uri f) (announced report f s))
      as [[found | e] s1] eqn:Hrun.
    + destruct (IH (acc1 ++ found) (acc2 ++ [fi_uri f]) s1)
        as (anoms & paths & s' & Hloop & Hscan).
      exists (found ++ anoms), (fi_uri f :: paths), s'.
      rewrite Hloop, <- !app_assoc. split; [reflexivity|].
      eapply Scanned_analysed; eauto.
    + destruct (IH acc1 acc2 (logged f e s1)) as (anoms & paths & s' & Hloop & Hscan).
      exists anoms, paths, s'. split; [exact Hloop|].
      eapply Scanned_skipped; eauto.
Qed.

(** The paths of a scan are paths of the files, in their order, and the
    failures are on the console. *)
Lemma Scanned_paths env report files s anoms paths s' :
  Scanned env report files s anoms paths s' ->
  exists kept : list bool,
    length kept = length files
    /\ paths = map fi_uri (map fst (filter snd (combine files kept))).
Proof.
  induction 1 as [s | f rest s found s1 anoms paths s' Hrun Hscan IH
                    | f rest s e s1 anoms paths s' Hrun Hscan IH].
  - exists []. split; reflexivity.
  - destruct IH as (kept & Hlen & ->). exists (true :: kept). split.
    + simpl. now rewrite Hlen.
    + reflexivity.
  - destruct IH as (kept & Hlen & ->). exists (false :: kept). split.
    + simpl. now rewrite Hlen.
    + reflexivity.
Qed.

Lemma readFiles_total env :
  forall uris files s, exists out s',
    readFiles env uris files s = (Normal out, s') /\ quiet s s'.
Proof.
  induction uris as [|u uris IH]; intros files s.
  - exists files, s. split; [reflexivity | auto with quiet].
  - cbn [readFiles]. js_unfold.
    destruct (openTextDocument env (answers s) u) as [e | document].
    + destruct (IH files (set_answers (S (answers s)) s)) as (out & s' & Hrun & Q).
      exists out, s'. split; [exact Hrun|].
      eapply quiet_trans; [apply quiet_answers | exact Q].
    + destruct (IH (files ++ [{| fi_uri := u; fi_content := getText document;
                                 fi_language := languageId document |}])
                  (set_answers (S (answers s)) s)) as (out & s' & Hrun & Q).
      exists out, s'. split; [exact Hrun|].
      eapply quiet_trans; [apply quiet_answers | exact Q].
Qed.

Lemma findLoop_total env workspaceUri excludeGlob :
  forall patterns files s, exists out s',
    findLoop env workspaceUri excludeGlob patterns files s = (Normal out, s')
    /\ quiet s s'.
Proof.
  induction patterns as [|p patterns IH]; intros files s.
  - exists files, s. split; [reflexivity | auto with quiet].
  - cbn [findLoop]. unfold bind at 1. unfold read at 1.
    unfold bind at 1. unfold ask at 1.
    destruct (readFiles_total env
                (findFiles env (answers s) workspaceUri p excludeGlob
                   (maxFilesToAnalyze (config s)))
                files (set_answers (S (answers s)) s)) as (files' & s1 & Hread & Q1).
    unfold bind at 1. rewrite Hread.
    unfold bind at 1. unfold read at 1.
    assert (Q : quiet s s1).
    { eapply quiet_trans; [apply quiet_answers | exact Q1]. }
    destruct (maxFilesToAnalyze (config s1) <=? Z.of_nat (length files'))%Z.
    + exists files', s1. split; [reflexivity | exact Q].
    + destruct (IH files' s1) as (out & s' & Hrun & Q').
      exists out, s'. split; [exact Hrun | eapply quiet_trans; eauto].
Qed.

(** Once the credentials and the workspace folder are there, the scan
    returns. *)
Lemma analyzeRepository_total env report s folder :
  isConfigured s = true ->
  workspaceFolders env (answers s) = Some folder ->
  exists files s0 anoms paths s1,
    getFilesToAnalyze env folder (set_answers (S (answers s)) s) = (Normal files, s0)
    /\ Scanned env report (slice files 0 (maxFilesToAnalyze (config s0))) s0
         anoms paths s1
    /\ analyzeRepository env report s
       = (Normal {| anomalies := anoms; analyzedFiles := paths;
                    timestamp := Date_now env (answers s1) |},
          set_answers (S (answers s1)) s1).
Proof.
  intros Hconf Hfolder.
  unfold analyzeRepository. unfold bind at 1. unfold read at 1.
  rewrite Hconf. cbn [negb]. unfold bind at 1. unfold ask at 1. rewrite Hfolder.
  assert (Hfiles : exists files s0,
             getFilesToAnalyze env folder (set_answers (S (answers s)) s)
             = (Normal files, s0)).
  { unfold getFilesToAnalyze. unfold bind at 1. unfold read at 1.
    destruct (findLoop_total env folder
                ("{" +++ join "," (excludePatterns
                                     (config (set_answers (S (answers s)) s))) +++ "}")
                codeExtensions [] (set_answers (S (answers s)) s))
      as (files & s0 & Hrun & _).
    exists files, s0. exact Hrun. }
  destruct Hfiles as (files & s0 & Hfiles).
  unfold bind at 1. rewrite Hfiles.
  unfold bind at 1. unfold read at 1.
  destruct (scanLoop_scanned env report
              (slice files 0 (maxFilesToAnalyze (config s0))) [] [] s0)
    as (anoms & paths & s1 & Hloop & Hscan).
  unfold bind at 1. rewrite Hloop. js_unfold. cbn [fst snd app].
  exists files, s0, anoms, paths, s1. auto.
Qed.

(** C9. The loop of [analyzeRepository] goes through the files in order and
    never throws: a file whose analysis throws is logged on the console and
    skipped, the others contribute their anomalies and their path
    ([Scanned]); so the scan, once it has its credentials and its workspace
    folder, always returns. Over three files of which the second throws, the
    result holds the anomalies of the first and the third and exactly their
    two paths. *)
Theorem analyzeRepository_tolerates_failures :
  (forall (env : Env) (report : bool) (files : list FileInfo) (s : State),
    exists anoms paths s',
      scanLoop env report files [] [] s = (Normal (anoms, paths), s')
      /\ Scanned env report files s anoms paths s')
  /\ (forall (env : Env) (report : bool) (s : State) (folder : string),
        isConfigured s = true ->
        workspaceFolders env (answers s) = Some folder ->
        exists files s0 result s',
          getFilesToAnalyze env folder (set_answers (S (answers s)) s)
          = (Normal files, s0)
          /\ analyzeRepository env report s = (Normal result, s')
          /\ exists s1,
               Scanned env report (slice files 0 (maxFilesToAnalyze (config s0))) s0
                 (anomalies result) (analyzedFiles result) s1)
  /\ (forall (env : Env) (report : bool) (f1 f2 f3 : FileInfo) (s : State)
             (found1 found3 : list Anomaly) (e : JsError) (s1 s2 s3 : State),
        analyzeFile env (fi_uri f1) (announced report f1 s) = (Normal found1, s1) ->
        analyzeFile env (fi_uri f2) (announced report f2 s1) = (Throw e, s2) ->
        analyzeFile env (fi_uri f3) (announced report f3 (logged f2 e s2))
        = (Normal found3, s3) ->
        scanLoop env report [f1; f2; f3] [] [] s
        = (Normal (found1 ++ found3, [fi_uri f1; fi_uri f3]), s3)
        /\ In ("Error analyzing " +++ fi_uri f2 +++ ":", e)
              (console (logged f2 e s2))).
Proof.
  split; [|split].
  - intros env report files s.
    destruct (scanLoop_scanned env report files [] [] s)
      as (anoms & paths & s' & Hloop & Hscan).
    exists anoms, paths, s'. split; [exact Hloop | exact Hscan].
  - intros env report s folder Hconf Hfolder.
    destruct (analyzeRepository_total env report s Hconf Hfolder)
      as (files & s0 & anoms & paths & s1 & Hfiles & Hscan & Hrun).
    eexists files, s0, _, _. split; [exact Hfiles|].
    split; [exact Hrun|]. exists s1. exact Hscan.
  - intros env report f1 f2 f3 s found1 found3 e s1 s2 s3 H1 H2 H3.
    split.
    + rewrite scanLoop_step, H1, scanLoop_step, H2, scanLoop_step, H3.
      cbn [scanLoop app]. reflexivity.
    + unfold logged. cbn [console set_console]. apply in_or_app. right. now left.
Qed.

Lemma analyzeRepository_tolerates_failures_witness :
  scanLoop Fixture.flaky true [Fixture.fileA; Fixture.fileB; Fixture.fileC] [] []
    Fixture.scanning
  = (Normal (Fixture.anomaliesOf Fixture.runA ++ Fixture.anomaliesOf Fixture.runC,
             ["/ws/a.ts"; "/ws/c.ts"]),
     snd Fixture.runC)
  /\ map (fun a => file (location a))
         (Fixture.anomaliesOf Fixture.runA ++ Fixture.anomaliesOf Fixture.runC)
     = ["/ws/a.ts"; "/ws/c.ts"].
Proof.
  split; [|vm_compute; reflexivity].
  assert (HA : analyzeFile Fixture.flaky (fi_uri Fixture.fileA)
                 (announced true Fixture.fileA Fixture.scanning)
               = (Normal (Fixture.anomaliesOf Fixture.runA), snd Fixture.runA)).
  { vm_compute. reflexivity. }
  assert (HB : analyzeFile Fixture.flaky (fi_uri Fixture.fileB)
                 (announced true Fixture.fileB (snd Fixture.runA))
               = (Throw (Fixture.errorOf Fixture.runB), snd Fixture.runB)).
  { vm_compute. reflexivity. }
  assert (HC : analyzeFile Fixture.flaky (fi_uri Fixture.fileC)
                 (announced true Fixture.fileC
                    (logged Fixture.fileB (Fixture.errorOf Fixture.runB)
                       (snd Fixture.runB)))
               = (Normal (Fixture.anomaliesOf Fixture.runC), snd Fixture.runC)).
  { vm_compute. reflexivity. }
  exact (proj1 (proj2 (proj2 analyzeRepository_tolerates_failures)
                  Fixture.flaky true Fixture.fileA Fixture.fileB Fixture.fileC
                  Fixture.scanning
                  (Fixture.anomaliesOf Fixture.runA) (Fixture.anomaliesOf Fixture.runC)
                  (Fixture.errorOf Fixture.runB)
                  (snd Fixture.runA) (snd Fixture.runB) (snd Fixture.runC)
                  HA HB HC)).
Defined.

(** The whole scan of the fixture workspace, run: [b.ts] is listed, cannot
    be opened when its turn comes, and the scan returns the anomalies and
    the paths of [a.ts] and [c.ts]. *)
Example analyzeRepository_flaky :
  let (r, s') := analyzeRepository Fixture.flaky true Fixture.initial in
  match r with
  | Normal result =>
      analyzedFiles result = ["/ws/a.ts"; "/ws/c.ts"]
      /\ map (fun a => file (location a)) (anomalies result) = ["/ws/a.ts"; "/ws/c.ts"]
  | Throw _ => False
  end
  /\ progress s' = ["Analyzing a.ts..."; "Analyzing b.ts..."; "Analyzing c.ts..."]
  /\ console s' = [("Error analyzing /ws/b.ts:", Error "cannot open /ws/b.ts")]
  /\ JsMap.keys (analysisCache s') = ["/ws/a.ts"; "/ws/c.ts"].
Proof. vm_compute. repeat split. Qed.

(** ** The cache keeps one entry per path *)

Lemma analyzeFile_wf env uri s r s' :
  analyzeFile env uri s = (r, s') ->
  JsMap.wf (analysisCache s) -> JsMap.wf (analysisCache s').
Proof.
  intros Hrun Hwf. apply analyzeFile_inv in Hrun. destruct r as [found | e].
  - destruct Hrun as (raw & now & context & customRules & sa & sb
                      & _ & _ & _ & _ & -> & Q).
    destruct Q as (_ & _ & Hcache & _).
    cbn [analysisCache set_analysisCache]. rewrite Hcache.
    now apply JsMapFacts.wf_set.
  - destruct Hrun as (_ & _ & Hcache & _). now rewrite Hcache.
Qed.

Lemma Scanned_wf env report files s anoms paths s' :
  Scanned env report files s anoms paths s' ->
  JsMap.wf (analysisCache s) -> JsMap.wf (analysisCache s').
Proof.
  induction 1 as [s | f rest s found s1 anoms paths s' Hrun Hscan IH
                    | f rest s e s1 anoms paths s' Hrun Hscan IH];
    intros Hwf; auto.
  - apply IH. eapply analyzeFile_wf; [exact Hrun|].
    destruct report; exact Hwf.
  - apply IH. change (JsMap.wf (analysisCache s1)).
    eapply analyzeFile_wf; [exact Hrun|].
    destruct report; exact Hwf.
Qed.

(** From the empty cache, whatever is analysed, scanned or cleared, no path
    ever has two entries. *)
Lemma clearCache_wf uri s :
  JsMap.wf (analysisCache s) -> JsMap.wf (analysisCache (snd (clearCache uri s))).
Proof.
  destruct uri as [path|]; cbn; intros Hwf.
  - now apply JsMapFacts.wf_delete.
  - apply JsMapFacts.wf_empty.
Qed.

(** * Further properties of the services *)

(** ** Severity filter: composition *)

Lemma filterBySeverity_by_rank (A : list Anomaly) (t : Severity) :
  filterBySeverity A (severity_string t)
  = filter (fun a => (rank (severity a) <=? rank t)%Z) A.
Proof.
  unfold filterBySeverity. rewrite severityOrder_rank.
  apply filter_ext. intros a. now rewrite severityOrder_rank.
Qed.

Lemma filter_twice {A : Type} (f g : A -> bool) (l : list A) :
  filter f (filter g l) = filter (fun x => g x && f x) l.
Proof.
  induction l as [|x l IH]; [reflexivity|].
  cbn [filter]. destruct (g x); cbn [filter andb]; [destruct (f x)|]; now rewrite IH.
Qed.

(** X1. Filtering by one threshold and then by another is filtering by the
    stricter of the two; the threshold [info] removes nothing; and what
    passes a threshold passes every looser one. *)
Theorem filterBySeverity_compose :
  forall (A : list Anomaly) (t1 t2 : Severity),
    filterBySeverity (filterBySeverity A (severity_string t1)) (severity_string t2)
    = filterBySeverity A (severity_string (stricter t1 t2))
    /\ filterBySeverity A (severity_string sev_info) = A
    /\ ((rank t1 <= rank t2)%Z ->
        forall a, In a (filterBySeverity A (severity_string t1)) ->
                  In a (filterBySeverity A (severity_string t2))).
Proof.
  intros A t1 t2. rewrite !filterBySeverity_by_rank. split; [|split].
  - rewrite filter_twice. apply filter_ext. intros a. unfold stricter.
    destruct (Z.leb_spec (rank t1) (rank t2));
      destruct (Z.leb_spec (rank (severity a)) (rank t1));
      destruct (Z.leb_spec (rank (severity a)) (rank t2)); cbn; auto; lia.
  - induction A as [|a A IH]; [reflexivity|].
    cbn [filter]. rewrite IH. destruct (severity a); reflexivity.
  - intros Hle a. rewrite !filter_In, !Z.leb_le. intros [Hin Hr]. split; [exact Hin | lia].
Qed.

Lemma filterBySeverity_compose_witness :
  In (Fixture.anAnomaly sev_error "k1" None)
     (filterBySeverity [Fixture.anAnomaly sev_error "k1" None]
        (severity_string sev_warning)).
Proof.
  apply (proj2 (proj2 (filterBySeverity_compose
                         [Fixture.anAnomaly sev_error "k1" None]
                         sev_error sev_warning))).
  - simpl. lia.
  - simpl. now left.
Defined.

(** ** Response parser: what an anomaly carries *)

Lemma splitOn_nonempty (isSep : ascii -> bool) (text : string) :
  splitOn isSep text <> [].
Proof.
  destruct text as [|c rest]; cbn [splitOn]; [discriminate|].
  destruct (isSep c); [discriminate|].
  destruct (splitOn isSep rest); discriminate.
Qed.

Lemma join_split_nl (text : string) : join nl (split_nl text) = text.
Proof.
  unfold split_nl. induction text as [|c rest IH]; [reflexivity|].
  cbn [splitOn].
  pose proof (splitOn_nonempty (fun c0 => Ascii.eqb c0 "010"%char) rest) as Hne.
  destruct (Ascii.eqb_spec c "010"%char) as [-> | Hc];
    destruct (splitOn (fun c0 => Ascii.eqb c0 "010"%char) rest) as [|piece pieces];
    try congruence.
  - cbn [join]. cbn [join] in IH. rewrite IH. reflexivity.
  - destruct pieces as [|piece' pieces'].
    + cbn [join] in *. now rewrite IH.
    + cbn [join] in *. rewrite <- IH. reflexivity.
Qed.

Lemma slice_whole {A : Type} (xs : list A) :
  slice xs 0 (Z.of_nat (length xs)) = xs.
Proof.
  assert (H0 : sliceIndex (Z.of_nat (length xs)) 0 = 0%Z).
  { unfold sliceIndex. cbn. lia. }
  assert (Hn : sliceIndex (Z.of_nat (length xs)) (Z.of_nat (length xs))
               = Z.of_nat (length xs)).
  { unfold sliceIndex. destruct (Z.ltb_spec (Z.of_nat (length xs)) 0); lia. }
  unfold slice. rewrite H0, Hn, Z.sub_0_r, Nat2Z.id.
  cbn [Z.to_nat skipn]. apply firstn_all.
Qed.

(** Every anomaly [parseAnomalies] returns is the parse of the reported
    anomaly of the same position. *)
Lemma parseAnomaliesFrom_items env lines fileName :
  forall (ais : list AIAnomaly) (index : Z) (s : State) out s',
    parseAnomaliesFrom env lines fileName index ais s = (Normal out, s') ->
    Forall2 (fun a x => exists i now, parseAnomaly lines fileName a i now = inr x)
            ais out.
Proof.
  induction ais as [|a ais IH]; intros index s out s' Hrun.
  - cbn in Hrun. injection Hrun as <- <-. constructor.
  - cbn [parseAnomaliesFrom] in Hrun. unfold bind at 1 in Hrun.
    unfold ask at 1 in Hrun. unfold bind at 1 in Hrun.
    destruct (parseAnomaly lines fileName a index (Date_now env (answers s)))
      as [e | x] eqn:Hx; [discriminate Hrun|].
    cbn [lift] in Hrun. unfold ret at 1 in Hrun. unfold bind at 1 in Hrun.
    destruct (parseAnomaliesFrom env lines fileName (index + 1) ais
                (set_answers (S (answers s)) s)) as [[parsed | e] s1] eqn:E.
    + unfold ret in Hrun. injection Hrun as <- <-.
      constructor; [eexists _, _; exact Hx | eapply IH; exact E].
    + discriminate Hrun.
Qed.

(** X2. An anomaly reported on the whole file, from line 1 or before to the
    last line or beyond, is parsed with the whole content as its snippet and
    the range from line 0 to the last line. *)
Theorem parseAnomalies_whole_file :
  forall (env : Env) (aiAnomalies : list AIAnomaly) (fileName content : string)
         (s : State) (out : list Anomaly) (s' : State),
    parseAnomalies env aiAnomalies fileName content s = (Normal out, s') ->
    Forall2
      (fun a x =>
         (startLine a <= 1)%Z -> (lineCount content <= endLine a)%Z ->
         codeSnippet (location x) = content
         /\ rangeLines x = (0%Z, (lineCount content - 1)%Z))
      aiAnomalies out.
Proof.
  intros env ais fileName content s out s' Hrun.
  apply parseAnomaliesFrom_items in Hrun.
  eapply Forall2_impl; [|exact Hrun].
  intros a x (i & now & Hx) Hs He.
  pose proof (length_split_nl content) as Hn.
  destruct (parseAnomaly_inv _ _ _ _ _ Hx) as (Hfinal & Hlines & _ & Hsnippet & _).
  split.
  - rewrite Hsnippet.
    rewrite Z.max_l by lia. rewrite Z.min_l by lia.
    replace (Z.of_nat (length (split_nl content)) - 1 + 1)%Z
      with (Z.of_nat (length (split_nl content))) by lia.
    rewrite slice_whole. apply join_split_nl.
  - rewrite Hlines. f_equal; lia.
Qed.

Lemma parseAnomalies_whole_file_witness :
  exists out s',
    parseAnomalies Fixture.reviewed
      [{| ai_type := "complexity"; ai_severity := "info";
          startLine := 1; endLine := 10; ai_title := "Long file";
          ai_description := "Everything in one file"; ai_suggestion := None |}]
      "/ws/a.ts" Fixture.tenLines Fixture.initial = (Normal out, s')
    /\ map (fun x => codeSnippet (location x)) out = [Fixture.tenLines].
Proof.
  destruct (parseAnomalies Fixture.reviewed
      [{| ai_type := "complexity"; ai_severity := "info";
          startLine := 1; endLine := 10; ai_title := "Long file";
          ai_description := "Everything in one file"; ai_suggestion := None |}]
      "/ws/a.ts" Fixture.tenLines Fixture.initial) as [[out | e] s'] eqn:Hrun;
    [|vm_compute in Hrun; discriminate Hrun].
  exists out, s'. split; [reflexivity|].
  pose proof (@parseAnomalies_whole_file _ _ _ _ _ _ _ Hrun) as H.
  inversion H as [|a x ais out' Hx Hrest]; subst.
  inversion Hrest; subst.
  destruct Hx as [Hsnippet _].
  - simpl. lia.
  - vm_compute. discriminate.
  - cbn [map]. now rewrite Hsnippet.
Defined.

(** ** From the remote's report to the view and to the chat context *)

Lemma mapSeverity_string (sv : Severity) : mapSeverity (severity_string sv) = sv.
Proof. destruct sv; reflexivity. Qed.

Lemma mapAnomalyType_string (t : AnomalyType) :
  mapAnomalyType (anomalyType_string t) = t.
Proof. destruct t; reflexivity. Qed.

(** X3. What the view receives for a parsed anomaly gives back what the
    remote reported: the file analysed, the title, the description and the
    suggestion; the severity and the type when they were reported under
    their names; and, when the reported start line is not after the reported
    end line, the 1-indexed start line when it was within the file and the
    1-indexed end line when it was within the file. In every case the start
    line the view receives is not after the end line it receives, as the
    range of the host keeps its positions in order. *)
Theorem serializeAnomalies_round_trip :
  forall (env : Env) (aiAnomalies : list AIAnomaly) (fileName content : string)
         (s : State) (out : list Anomaly) (s' : State),
    parseAnomalies env aiAnomalies fileName content s = (Normal out, s') ->
    Forall2
      (fun a v =>
         ser_file v = fileName
         /\ ser_title v = ai_title a
         /\ ser_description v = ai_description a
         /\ ser_suggestion v = ai_suggestion a
         /\ (forall sv, ai_severity a = severity_string sv -> ser_severity v = sv)
         /\ (forall t, ai_type a = anomalyType_string t -> ser_type v = t)
         /\ ((startLine a <= endLine a)%Z ->
             (1 <= startLine a <= lineCount content)%Z ->
             ser_startLine v = startLine a)
         /\ ((startLine a <= endLine a)%Z ->
             (1 <= endLine a <= lineCount content)%Z ->
             ser_endLine v = endLine a)
         /\ (1 <= ser_startLine v <= ser_endLine v)%Z)
      aiAnomalies (serializeAnomalies out).
Proof.
  intros env ais fileName content s out s' Hrun.
  apply parseAnomaliesFrom_items in Hrun.
  pose proof (length_split_nl content) as Hn.
  unfold serializeAnomalies.
  induction Hrun as [|a x ais out (i & now & Hx) Hrest IH]; cbn [map]; constructor; auto.
  destruct (parseAnomaly_inv _ _ _ _ _ Hx)
    as (Hfinal & Hlines & Hfile & _ & Htype & Hsev & Htitle & Hdesc & Hsugg).
  unfold rangeLines in Hlines. injection Hlines as Hstart Hend.
  unfold serializeAnomaly.
  cbn [ser_file ser_title ser_description ser_suggestion ser_severity ser_type
       ser_startLine ser_endLine].
  rewrite Hstart, Hend, Hfile, Htype, Hsev, Htitle, Hdesc, Hsugg.
  repeat split; auto; try lia; intros;
    match goal with
    | H : ai_severity _ = _ |- _ => rewrite H; apply mapSeverity_string
    | H : ai_type _ = _ |- _ => rewrite H; apply mapAnomalyType_string
    end.
Qed.

Lemma serializeAnomalies_round_trip_witness :
  exists out s',
    parseAnomalies Fixture.reviewed [Samples.reported] "/ws/a.ts" Fixture.tenLines
      Fixture.initial = (Normal out, s')
    /\ map (fun v => (ser_severity v, ser_startLine v, ser_endLine v))
           (serializeAnomalies out)
       = [(sev_error, 5%Z, 5%Z)].
Proof.
  destruct (parseAnomalies Fixture.reviewed [Samples.reported] "/ws/a.ts"
              Fixture.tenLines Fixture.initial) as [[out | e] s'] eqn:Hrun;
    [|vm_compute in Hrun; discriminate Hrun].
  exists out, s'. split; [reflexivity|].
  pose proof (@serializeAnomalies_round_trip _ _ _ _ _ _ _ Hrun) as H.
  destruct (serializeAnomalies out) as [|v vs]; inversion H as [|a v' ais vs' Hv Hrest]; subst.
  inversion Hrest; subst.
  destruct Hv as (_ & _ & _ & _ & Hsev & _ & Hstart & Hend & _).
  assert (Hordered : (startLine Samples.reported <= endLine Samples.reported)%Z)
    by (vm_compute; discriminate).
  assert (Hwithin : (1 <= 5 <= lineCount Fixture.tenLines)%Z)
    by (split; vm_compute; discriminate).
  cbn [map].
  rewrite (Hsev sev_error eq_refl), (Hstart Hordered Hwithin), (Hend Hordered Hwithin).
  reflexivity.
Defined.

(** X4. The context built for the chat shows the lines of a parsed anomaly
    as the remote reported them, when the reported start line is not after
    the reported end line and the line is within the file; its start line
    is never after its end line. It names the type as reported, and takes
    the snippet stored in the anomaly, or the live text of its range when
    the stored snippet is empty. *)
Theorem buildAnomalyContext_of_parsed :
  forall (env : Env) (aiAnomalies : list AIAnomaly) (fileName content : string)
         (s : State) (out : list Anomaly) (s' : State)
         (document : TextDocument) (getTextIn : Range -> string),
    parseAnomalies env aiAnomalies fileName content s = (Normal out, s') ->
    Forall2
      (fun a x =>
         let context := buildAnomalyContext x document getTextIn in
         ctx_file context = fileName
         /\ ctx_title context = ai_title a
         /\ ctx_description context = ai_description a
         /\ ctx_language context = languageId document
         /\ (forall t, ai_type a = anomalyType_string t -> ctx_type context = ai_type a)
         /\ ((startLine a <= endLine a)%Z ->
             (1 <= startLine a <= lineCount content)%Z ->
             ctx_start context = startLine a)
         /\ ((startLine a <= endLine a)%Z ->
             (1 <= endLine a <= lineCount content)%Z ->
             ctx_end context = endLine a)
         /\ (1 <= ctx_start context <= ctx_end context)%Z
         /\ (codeSnippet (location x) <> "" ->
             ctx_codeSnippet context = codeSnippet (location x))
         /\ (codeSnippet (location x) = "" ->
             ctx_codeSnippet context = getTextIn (range (location x))))
      aiAnomalies out.
Proof.
  intros env ais fileName content s out s' document getTextIn Hrun.
  apply parseAnomaliesFrom_items in Hrun.
  pose proof (length_split_nl content) as Hn.
  eapply Forall2_impl; [|exact Hrun].
  intros a x (i & now & Hx). cbv zeta.
  destruct (parseAnomaly_inv _ _ _ _ _ Hx)
    as (Hfinal & Hlines & Hfile & _ & Htype & _ & Htitle & Hdesc & _).
  unfold rangeLines in Hlines. injection Hlines as Hstart Hend.
  unfold buildAnomalyContext.
  cbn [ctx_file ctx_title ctx_description ctx_language ctx_type ctx_start ctx_end
       ctx_codeSnippet].
  rewrite Hstart, Hend, Hfile, Htype, Htitle, Hdesc.
  repeat split; auto; try lia.
  - intros t Ht. rewrite Ht, mapAnomalyType_string. reflexivity.
  - intros H. apply truthy_true in H. now rewrite H.
  - intros H. apply truthy_false in H. now rewrite H.
Qed.

Lemma buildAnomalyContext_of_parsed_witness :
  exists out s',
    parseAnomalies Fixture.reviewed [Samples.reported] "/ws/a.ts" Fixture.tenLines
      Fixture.initial = (Normal out, s')
    /\ map (fun x =>
              let context :=
                buildAnomalyContext x
                  {| getText := Fixture.tenLines; languageId := "typescript" |}
                  (fun _ => "live") in
              (ctx_start context, ctx_end context, ctx_codeSnippet context)) out
       = [(5%Z, 5%Z, "l5")].
Proof.
  destruct (parseAnomalies Fixture.reviewed [Samples.reported] "/ws/a.ts"
              Fixture.tenLines Fixture.initial) as [[out | e] s'] eqn:Hrun;
    [|vm_compute in Hrun; discriminate Hrun].
  exists out, s'. split; [reflexivity|].
  pose proof (@buildAnomalyContext_of_parsed _ _ _ _ _ _ _
                {| getText := Fixture.tenLines; languageId := "typescript" |}
                (fun _ => "live") Hrun) as H.
  inversion H as [|a x ais out' Hx Hrest]; subst.
  inversion Hrest; subst.
  cbv zeta in Hx.
  destruct Hx as (_ & _ & _ & _ & _ & Hstart & Hend & _ & Hsnippet & _).
  assert (Hordered : (startLine Samples.reported <= endLine Samples.reported)%Z)
    by (vm_compute; discriminate).
  assert (Hwithin : (1 <= 5 <= lineCount Fixture.tenLines)%Z)
    by (split; vm_compute; discriminate).
  cbn [map]. cbv zeta.
  rewrite (Hstart Hordered Hwithin), (Hend Hordered Hwithin), Hsnippet.
  - vm_compute in Hrun. injection Hrun as <- _. reflexivity.
  - vm_compute in Hrun. injection Hrun as <- _. vm_compute. discriminate.
Defined.

(** ** Every anomaly belongs to the file that was analysed *)

Lemma analyze_files env context customRules s raw s' :
  analyze env context customRules s = (Normal raw, s') ->
  Forall (fun x => file (location x) = fileName context) raw.
Proof.
  unfold analyze. js_unfold.
  destruct (client s); cbn [negb]; [|discriminate].
  destruct (createCompletion env (answers s) _) as [e | [text|]].
  - discriminate.
  - destruct (truthy text); cbn [negb].
    + destruct (JSON_parse env text) as [e | result]; [discriminate|].
      js_unfold.
      destruct (parseAnomalies env (ai_anomalies result) (fileName context)
                  (ac_content context) (set_answers (S (answers s)) s))
        as [[out | e] s1] eqn:Hrun; [|discriminate].
      intros [= <- <-].
      apply parseAnomaliesFrom_items in Hrun.
      induction Hrun as [|a x ais out (i & now & Hx) Hrest IH]; constructor; auto.
      now destruct (parseAnomaly_inv _ _ _ _ _ Hx) as (_ & _ & Hfile & _).
    + intros [= <- <-]. constructor.
  - intros [= <- <-]. constructor.
Qed.

Lemma analyzeFile_files env uri s found s' :
  analyzeFile env uri s = (Normal found, s') ->
  Forall (fun a => file (location a) = uri) found.
Proof.
  intros Hrun. apply analyzeFile_inv in Hrun.
  destruct Hrun as (raw & now & context & customRules & sa & sb
                    & Ha & Hname & _ & -> & _ & _).
  apply analyze_files in Ha. rewrite Forall_forall in *.
  intros a Hin. rewrite <- Hname. apply Ha.
  unfold filterBySeverity in Hin. apply filter_In in Hin. tauto.
Qed.

(** X5. Every anomaly [analyzeFile] returns is located in the file that was
    analysed and, when the configured threshold is a severity, has a rank
    that is at most the rank of the threshold. *)
Theorem analyzeFile_anomalies_of_file :
  forall (env : Env) (uri : string) (s : State) (found : list Anomaly) (s' : State),
    analyzeFile env uri s = (Normal found, s') ->
    forall a, In a found ->
      file (location a) = uri
      /\ (forall t, severityThreshold (config s) = severity_string t ->
            (rank (severity a) <= rank t)%Z).
Proof.
  intros env uri s found s' Hrun a Hin.
  split.
  - pose proof (analyzeFile_files _ _ _ Hrun) as Hfiles.
    rewrite Forall_forall in Hfiles. now apply Hfiles.
  - apply analyzeFile_inv in Hrun.
    destruct Hrun as (raw & now & context & customRules & sa & sb
                      & Ha & Hname & _ & -> & _ & _).
    intros t Ht. rewrite Ht, filterBySeverity_by_rank in Hin.
    apply filter_In in Hin. destruct Hin as [_ Hr]. now apply Z.leb_le.
Qed.

Lemma analyzeFile_anomalies_of_file_witness :
  Forall (fun a => file (location a) = "/ws/a.ts") Fixture.found.
Proof.
  apply Forall_forall. intros a Hin.
  assert (Hrun : analyzeFile Fixture.reviewed "/ws/a.ts" Fixture.initial
                 = (Normal Fixture.found, Fixture.analysed)).
  { vm_compute. reflexivity. }
  exact (proj1 (analyzeFile_anomalies_of_file Fixture.reviewed "/ws/a.ts"
                  Fixture.initial Hrun a Hin)).
Defined.

(** ** Commands: the current anomalies after an analysis *)

Lemma filter_all {A : Type} (f : A -> bool) (l : list A) :
  Forall (fun x => f x = true) l -> filter f l = l.
Proof.
  induction 1 as [|x l Hx Hl IH]; [reflexivity|].
  cbn [filter]. now rewrite Hx, IH.
Qed.

Lemma filter_none {A : Type} (f : A -> bool) (l : list A) :
  Forall (fun x => f x = false) l -> filter f l = [].
Proof.
  induction 1 as [|x l Hx Hl IH]; [reflexivity|].
  cbn [filter]. now rewrite Hx, IH.
Qed.

(** X6. After a file was analysed and the current anomalies were updated
    with the result, the current anomalies of that file are exactly the
    anomalies the analysis returned, in their order, and the current
    anomalies of every other file are what they were. *)
Theorem updateCurrentAnomalies_after_analyzeFile :
  forall (env : Env) (uri : string) (s : State) (found : list Anomaly) (s' : State)
         (currentAnomalies : list Anomaly),
    analyzeFile env uri s = (Normal found, s') ->
    fileAnomalies (updateCurrentAnomalies currentAnomalies uri found) uri = found
    /\ (forall path, path <> uri ->
          fileAnomalies (updateCurrentAnomalies currentAnomalies uri found) path
          = fileAnomalies currentAnomalies path).
Proof.
  intros env uri s found s' current Hrun.
  pose proof (analyzeFile_files _ _ _ Hrun) as Hfound.
  unfold fileAnomalies, updateCurrentAnomalies. split.
  - rewrite filter_app, filter_twice.
    rewrite (filter_none (fun x => negb (String.eqb (file (location x)) uri)
                                   && String.eqb (file (location x)) uri)).
    + cbn [app]. apply filter_all.
      eapply Forall_impl; [|exact Hfound].
      intros a ->. apply String.eqb_refl.
    + apply Forall_forall. intros a _.
      destruct (String.eqb (file (location a)) uri); reflexivity.
  - intros path Hpath. rewrite filter_app, filter_twice.
    rewrite (filter_none (fun a => String.eqb (file (location a)) path) (l := found)).
    + rewrite app_nil_r. apply filter_ext. intros a.
      destruct (String.eqb_spec (file (location a)) uri) as [-> | Hne]; cbn [negb andb].
      * symmetry. apply String.eqb_neq. congruence.
      * reflexivity.
    + eapply Forall_impl; [|exact Hfound].
      intros a ->. apply String.eqb_neq. congruence.
Qed.

Lemma updateCurrentAnomalies_after_analyzeFile_witness :
  fileAnomalies
    (updateCurrentAnomalies
       [Fixture.anAnomaly sev_info "stale" None] "/ws/a.ts" Fixture.found)
    "/ws/a.ts"
  = Fixture.found.
Proof.
  assert (Hrun : analyzeFile Fixture.reviewed "/ws/a.ts" Fixture.initial
                 = (Normal Fixture.found, Fixture.analysed)).
  { vm_compute. reflexivity. }
  exact (proj1 (updateCurrentAnomalies_after_analyzeFile
                  Fixture.reviewed "/ws/a.ts" Fixture.initial
                  [Fixture.anAnomaly sev_info "stale" None] Hrun)).
Defined.

(** ** Diagnostics *)

Lemma set_fresh {V : Type} (k : string) (v : V) (m : JsMap.t V) :
  ~ In k (JsMap.keys m) -> JsMap.set k v m = m ++ [(k, v)].
Proof.
  induction m as [|[k' v'] m IH]; cbn; [reflexivity|].
  intros H. destruct (String.eqb_spec k k') as [-> | Hne]; [tauto|].
  rewrite IH; [reflexivity | tauto].
Qed.

(** Setting the entries of a map with distinct keys, one after the other,
    onto a map that has none of these keys, appends them in order. *)
Lemma fold_set_fresh {V W : Type} (F : V -> W) :
  forall (M : JsMap.t V) (acc : JsMap.t W),
    NoDup (JsMap.keys acc ++ JsMap.keys M) ->
    fold_left (fun c g => JsMap.set (fst g) (F (snd g)) c) M acc
    = acc ++ map (fun g => (fst g, F (snd g))) M.
Proof.
  induction M as [|[k v] M IH]; intros acc Hnd; cbn [fold_left map].
  - now rewrite app_nil_r.
  - cbn [fst snd]. cbn [JsMap.keys map fst] in Hnd.
    rewrite set_fresh.
    + rewrite IH.
      * now rewrite <- app_assoc.
      * unfold JsMap.keys in *. rewrite map_app. cbn [map fst].
        rewrite <- app_assoc. exact Hnd.
    + apply NoDup_remove_2 in Hnd. intros Hin. apply Hnd.
      apply in_or_app. now left.
Qed.

Lemma get_map_values {V W : Type} (F : V -> W) (k : string) (M : JsMap.t V) :
  JsMap.get k (map (fun g => (fst g, F (snd g))) M) = option_map F (JsMap.get k M).
Proof.
  induction M as [|[k' v] M IH]; cbn; [reflexivity|].
  destruct (String.eqb k k'); [reflexivity | exact IH].
Qed.

Lemma groupStep_get (m : JsMap.t (list Anomaly)) (a : Anomaly) (path : string) :
  JsMap.get path (groupStep m a)
  = if String.eqb (file (location a)) path
    then Some (orElse (JsMap.get path m) [] ++ [a])
    else JsMap.get path m.
Proof.
  unfold groupStep.
  destruct (String.eqb_spec (file (location a)) path) as [<- | Hne].
  - destruct (JsMap.get (file (location a)) m) as [l|] eqn:E.
    + rewrite JsMapFacts.get_set_same, ?E. reflexivity.
    + rewrite !JsMapFacts.get_set_same, ?E. reflexivity.
  - destruct (JsMap.get (file (location a)) m) as [l|] eqn:E.
    + now apply JsMapFacts.get_set_other.
    + rewrite JsMapFacts.get_set_other by exact Hne.
      now apply JsMapFacts.get_set_other.
Qed.

Lemma groupStep_wf (m : JsMap.t (list Anomaly)) (a : Anomaly) :
  JsMap.wf m -> JsMap.wf (groupStep m a).
Proof.
  intros Hwf. unfold groupStep.
  destruct (JsMap.get (file (location a)) m); repeat apply JsMapFacts.wf_set; exact Hwf.
Qed.

Lemma group_fold_wf (l : list Anomaly) :
  forall m, JsMap.wf m -> JsMap.wf (fold_left groupStep l m).
Proof.
  induction l as [|a l IH]; intros m Hwf; cbn [fold_left]; auto.
  apply IH. now apply groupStep_wf.
Qed.

Lemma group_fold_get (path : string) (l : list Anomaly) :
  forall m,
    JsMap.get path (fold_left groupStep l m)
    = match fileAnomalies l path with
      | [] => JsMap.get path m
      | a :: rest => Some (orElse (JsMap.get path m) [] ++ a :: rest)
      end.
Proof.
  unfold fileAnomalies.
  induction l as [|a l IH]; intros m; cbn [fold_left filter]; [reflexivity|].
  rewrite IH, groupStep_get.
  destruct (String.eqb (file (location a)) path).
  - destruct (filter (fun a0 => String.eqb (file (location a0)) path) l).
    + reflexivity.
    + cbn [orElse]. now rewrite <- app_assoc.
  - reflexivity.
Qed.

(** The collection [updateDiagnostics] builds: one entry per group. *)
Lemma updateDiagnostics_entries (l : list Anomaly)
  (collection : JsMap.t (list Diagnostic)) :
  updateDiagnostics l collection
  = map (fun g => (fst g, map createDiagnostic (snd g))) (groupByFile l).
Proof.
  unfold updateDiagnostics.
  rewrite (fold_set_fresh (map createDiagnostic)); [reflexivity|].
  change (JsMap.wf (fold_left groupStep l JsMap.empty)).
  apply group_fold_wf, JsMapFacts.wf_empty.
Qed.

(** X7. After [updateDiagnostics], the diagnostics of a file are those of
    the anomalies of that file, one for each and in their order, whatever
    the collection held before; the collection has an entry for a file
    exactly when the file has an anomaly, and one entry at most. *)
Theorem updateDiagnostics_groups_by_file :
  forall (l : list Anomaly) (collection : JsMap.t (list Diagnostic)) (path : string),
    diagnosticsOf path (updateDiagnostics l collection)
    = map createDiagnostic (fileAnomalies l path)
    /\ (JsMap.get path (updateDiagnostics l collection) = None
        <-> fileAnomalies l path = [])
    /\ JsMap.occurrences path (updateDiagnostics l collection) <= 1.
Proof.
  intros l collection path.
  assert (Hget : JsMap.get path (updateDiagnostics l collection)
                 = match fileAnomalies l path with
                   | [] => None
                   | a :: rest => Some (map createDiagnostic (a :: rest))
                   end).
  { rewrite updateDiagnostics_entries, get_map_values.
    unfold groupByFile. rewrite group_fold_get.
    destruct (fileAnomalies l path); reflexivity. }
  split; [|split].
  - unfold diagnosticsOf. rewrite Hget.
    destruct (fileAnomalies l path); reflexivity.
  - rewrite Hget. destruct (fileAnomalies l path); split; congruence.
  - apply JsMapFacts.wf_occurrences.
    rewrite updateDiagnostics_entries. unfold JsMap.wf, JsMap.keys.
    rewrite map_map. cbn [fst].
    change (JsMap.wf (fold_left groupStep l JsMap.empty)).
    apply group_fold_wf, JsMapFacts.wf_empty.
Qed.



Lemma updateDiagnostics_groups_by_file_witness :
  JsMap.get "/ws/z.ts" (updateDiagnostics Fixture.found JsMap.empty) = None.
Proof.
  apply (proj1 (proj2 (updateDiagnostics_groups_by_file
                         Fixture.found JsMap.empty "/ws/z.ts"))).
  vm_compute. reflexivity.
Defined.

(** ** Decorations *)

Lemma decorate_fold (editorPath : string) (l : list Anomaly) :
  forall acc,
    fold_left (decorateStep editorPath) l acc
    = {| errors := errors acc
                   ++ map createDecoration (ofFileAndSeverity editorPath sev_error l);
         warnings := warnings acc
                     ++ map createDecoration (ofFileAndSeverity editorPath sev_warning l);
         infos := infos acc
                  ++ map createDecoration (ofFileAndSeverity editorPath sev_info l) |}.
Proof.
  unfold ofFileAndSeverity.
  induction l as [|a l IH]; intros acc; cbn [fold_left filter map].
  - rewrite !app_nil_r. destruct acc; reflexivity.
  - rewrite IH. unfold decorateStep.
    destruct (String.eqb (file (location a)) editorPath); cbn [negb andb].
    + destruct (severity a); cbn [severity_eqb errors warnings infos map];
        rewrite <- ?app_assoc; reflexivity.
    + reflexivity.
Qed.

(** X9. [updateDecorations] sets, for each of the three decoration types,
    the decorations of the anomalies of the editor's file that have the
    type's severity, in their order; every anomaly of the file is decorated
    once and no anomaly of another file is. *)
Theorem updateDecorations_partitions :
  forall (editorPath : string) (l : list Anomaly),
    errors (updateDecorations editorPath l)
    = map createDecoration (ofFileAndSeverity editorPath sev_error l)
    /\ warnings (updateDecorations editorPath l)
       = map createDecoration (ofFileAndSeverity editorPath sev_warning l)
    /\ infos (updateDecorations editorPath l)
       = map createDecoration (ofFileAndSeverity editorPath sev_info l)
    /\ length (errors (updateDecorations editorPath l))
       + length (warnings (updateDecorations editorPath l))
       + length (infos (updateDecorations editorPath l))
       = length (fileAnomalies l editorPath).
Proof.
  intros editorPath l. unfold updateDecorations. rewrite decorate_fold.
  cbn [errors warnings infos app]. repeat split.
  rewrite !length_map. unfold ofFileAndSeverity, fileAnomalies.
  induction l as [|a l IH]; [reflexivity|].
  cbn [filter]. destruct (String.eqb (file (location a)) editorPath); cbn [andb].
  - destruct (severity a); cbn [severity_eqb length]; lia.
  - exact IH.
Qed.

(** ** Model client: chat replies, fix suggestions, the client *)

(** X10. With a client, [chat] returns whenever the remote replies. When
    [chat] returns, its text is never empty: it is the content of the
    remote's reply when the reply has a content that is not empty, and the
    apology when the reply has no content or an empty one; the remote was
    asked once and nothing else changed. *)
Theorem chat_reply_never_empty :
  forall (env : Env) (history : list Message) (anomalyContext : AnomalyContext)
         (s : State),
    let request := chatRequest (model (config s)) history anomalyContext in
    (forall reply,
       client s = true ->
       createCompletion env (answers s) request = inr reply ->
       exists text,
         chat env history anomalyContext s
         = (Normal text, set_answers (S (answers s)) s))
    /\ (forall (text : string) (s' : State),
          chat env history anomalyContext s = (Normal text, s') ->
          text <> ""
          /\ client s = true
          /\ (exists reply,
                createCompletion env (answers s) request = inr reply
                /\ (forall content,
                      reply = Some content -> content <> "" -> text = content)
                /\ (reply = None \/ reply = Some "" ->
                    text = "Sorry, I could not generate a response."))
          /\ s' = set_answers (S (answers s)) s).
Proof.
  intros env history anomalyContext s request. subst request. split.
  - intros reply Hclient Hreply. unfold chat. js_unfold.
    rewrite Hclient. cbn [negb]. rewrite Hreply.
    destruct reply as [content|]; [destruct (truthy content)|];
      eexists; reflexivity.
  - intros text s'. unfold chat. js_unfold.
    destruct (client s); cbn [negb]; [|discriminate].
    destruct (createCompletion env (answers s)
                (chatRequest (model (config s)) history anomalyContext))
      as [e | [content|]].
    + discriminate.
    + destruct (truthy content) eqn:E; intros [= <- <-].
      * apply truthy_true in E.
        split; [exact E|]. split; [reflexivity|]. split; [|reflexivity].
        exists (Some content). split; [reflexivity|]. split.
        -- intros c [= <-] _. reflexivity.
        -- intros [H | [= H]]; [discriminate H | congruence].
      * apply truthy_false in E. subst content.
        split; [discriminate|]. split; [reflexivity|]. split; [|reflexivity].
        exists (Some ""). split; [reflexivity|]. split.
        -- intros c [= <-] H. now destruct H.
        -- reflexivity.
    + intros [= <- <-].
      split; [discriminate|]. split; [reflexivity|]. split; [|reflexivity].
      exists None. split; [reflexivity|]. split.
      * intros c H. discriminate H.
      * reflexivity.
Qed.

Lemma chat_reply_never_empty_witness :
  (exists s',
     chat (Fixture.env (fun _ => Fixture.open) (Fixture.always ""))
       [] Fixture.aContext Fixture.initial
     = (Normal "Sorry, I could not generate a response.", s'))
  /\ (exists s',
        chat (Fixture.env (fun _ => Fixture.open) (Fixture.always "Because."))
          [] Fixture.aContext Fixture.initial
        = (Normal "Because.", s')).
Proof.
  split.
  - destruct (proj1 (chat_reply_never_empty
                       (Fixture.env (fun _ => Fixture.open) (Fixture.always ""))
                       [] Fixture.aContext Fixture.initial)
                (Some "") eq_refl eq_refl) as (text & Hrun).
    destruct (proj2 (chat_reply_never_empty
                       (Fixture.env (fun _ => Fixture.open) (Fixture.always ""))
                       [] Fixture.aContext Fixture.initial) _ _ Hrun)
      as (_ & _ & (reply & Hreply & _ & Hempty) & _).
    injection Hreply as <-.
    rewrite (Hempty (or_intror eq_refl)) in Hrun. eexists. exact Hrun.
  - destruct (proj1 (chat_reply_never_empty
                       (Fixture.env (fun _ => Fixture.open) (Fixture.always "Because."))
                       [] Fixture.aContext Fixture.initial)
                (Some "Because.") eq_refl eq_refl) as (text & Hrun).
    destruct (proj2 (chat_reply_never_empty
                       (Fixture.env (fun _ => Fixture.open) (Fixture.always "Because."))
                       [] Fixture.aContext Fixture.initial) _ _ Hrun)
      as (_ & _ & (reply & Hreply & Hcontent & _) & _).
    injection Hreply as <-.
    rewrite (Hcontent "Because." eq_refl) in Hrun by discriminate.
    eexists. exact Hrun.
Defined.

(** X11. With a client, [suggestFix] never throws. It returns a fix exactly
    when the remote replies with a non-empty content that parses; the fix
    then has a single edit, on the file and the range of the anomaly, whose
    text is the parsed new code. A rejected call and an unparsable content
    are logged and give no fix; a missing or empty content gives no fix.
    Nothing but the console and the count of answers changes. *)
Theorem suggestFix_best_effort :
  forall (env : Env) (JSON_parse_fix : string -> JsError + FixResponse)
         (anomaly : Anomaly) (fileContent : string) (s : State),
    client s = true ->
    let reply :=
      createCompletion env (answers s)
        (fixRequest (model (config s)) anomaly fileContent) in
    exists (r : option CodeFix) (s' : State),
      suggestFix env JSON_parse_fix anomaly fileContent s = (Normal r, s')
      /\ quiet s s'
      /\ (forall codeFix, r = Some codeFix <->
            exists text result,
              reply = inr (Some text) /\ text <> ""
              /\ JSON_parse_fix text = inr result
              /\ codeFix = {| fix_description := fr_description result;
                          edits := [{| edit_file := file (location anomaly);
                                       edit_range := range (location anomaly);
                                       newText := newCode result |}] |})
      /\ (forall e, reply = inl e
                    \/ (exists text, reply = inr (Some text) /\ text <> ""
                                     /\ JSON_parse_fix text = inl e) ->
            r = None
            /\ console s' = console s ++ [("OpenAI fix suggestion error:", e)]).
Proof.
  intros env JSON_parse_fix anomaly fileContent s Hclient reply. subst reply.
  unfold suggestFix. js_unfold. rewrite Hclient. cbn [negb].
  destruct (createCompletion env (answers s)
              (fixRequest (model (config s)) anomaly fileContent))
    as [e | [text|]].
  - eexists _, _. split; [reflexivity|]. split; [repeat split|]. split.
    + intros codeFix. split; [discriminate|].
      intros (text & result & H & _). discriminate.
    + intros e' [[= <-] | (text & H & _)]; [|discriminate]. split; reflexivity.
  - destruct (truthy text) eqn:Etext; cbn [negb].
    + apply truthy_true in Etext.
      destruct (JSON_parse_fix text) as [e | result] eqn:Eparse.
      * eexists _, _. split; [reflexivity|]. split; [repeat split|]. split.
        -- intros codeFix. split; [discriminate|].
           intros (text' & result & [= <-] & _ & H & _). congruence.
        -- intros e' [H | (text' & [= <-] & _ & H)]; [discriminate|].
           assert (e' = e) by congruence. subst e'. split; reflexivity.
      * eexists _, _. split; [reflexivity|]. split; [repeat split|]. split.
        -- intros codeFix. split.
           ++ intros [= <-]. exists text, result. auto.
           ++ intros (text' & result' & [= <-] & _ & H & ->).
              assert (result' = result) by congruence. now subst.
        -- intros e' [H | (text' & [= <-] & _ & H)]; [discriminate | congruence].
    + apply truthy_false in Etext. subst text.
      eexists _, _. split; [reflexivity|]. split; [repeat split|]. split.
      * intros codeFix. split; [discriminate|].
        intros (text' & result & [= <-] & H & _). congruence.
      * intros e' [H | (text' & [= <-] & H & _)]; [discriminate | congruence].
  - eexists _, _. split; [reflexivity|]. split; [repeat split|]. split.
    + intros codeFix. split; [discriminate|].
      intros (text' & result & H & _). discriminate.
    + intros e' [H | (text' & H & _)]; discriminate.
Qed.

Lemma suggestFix_best_effort_witness :
  exists r s',
    suggestFix Samples.fixing Samples.parseFixResponse
      (Fixture.anAnomaly sev_error "k" None) Fixture.tenLines Fixture.initial
    = (Normal r, s')
    /\ option_map (fun codeFix => map newText (edits codeFix)) r
       = Some ["for (i = 0; i < n; i++)"].
Proof.
  destruct (suggestFix_best_effort Samples.fixing Samples.parseFixResponse
              (Fixture.anAnomaly sev_error "k" None) Fixture.tenLines
              Fixture.initial eq_refl) as (r & s' & Hrun & _ & Hfix & _).
  exists r, s'. split; [exact Hrun|].
  cbv zeta in Hfix.
  rewrite (proj2 (Hfix {| fix_description := "Use a strict bound";
                          edits := [{| edit_file := "/ws/a.ts";
                                       edit_range :=
                                         {| start := {| line := 4; character := 0 |};
                                            end_ := {| line := 4; character := 2 |} |};
                                       newText := "for (i = 0; i < n; i++)" |}] |})).
  - reflexivity.
  - exists Samples.aFix, {| fr_description := "Use a strict bound";
                            newCode := "for (i = 0; i < n; i++)" |}.
    repeat split; try (vm_compute; reflexivity).
    vm_compute. discriminate.
Defined.

(** A fix suggestion without a client fails before the remote is asked. *)
Lemma suggestFix_without_client env JSON_parse_fix anomaly fileContent s :
  client s = false ->
  suggestFix env JSON_parse_fix anomaly fileContent s
  = (Throw (Error "OpenAI API key not configured"), s).
Proof.
  intros H. unfold suggestFix. js_unfold. rewrite H. reflexivity.
Qed.

Lemma length_pos_truthy (text : string) :
  (0 <? String.length text)%nat = truthy text.
Proof. destruct text; reflexivity. Qed.

(** X12. After the key is changed in the settings and the client
    refreshed, the services are configured exactly when the new key is not
    empty. A client that exists is kept even when the key is emptied; file
    and repository analysis then refuse with the not-configured error
    without asking the environment and without touching the state. *)
Theorem changeApiKey_configures :
  forall (key : string) (s : State),
    let s' := snd (changeApiKey key s) in
    isConfigured s' = truthy key
    /\ (client s = true -> client s' = true)
    /\ openaiApiKey (config s') = key
    /\ analysisCache s' = analysisCache s
    /\ conversations s' = conversations s
    /\ (key = "" ->
        forall (env : Env) (uri : string) (report : bool),
          analyzeFile env uri s'
          = (Throw (Error "OpenAI API key not configured. Please set it in settings."),
             s')
          /\ analyzeRepository env report s'
             = (Throw (Error "OpenAI API key not configured. Please set it in settings."),
                s')).
Proof.
  intros key s s'. subst s'.
  unfold changeApiKey, refreshClient, initializeClient. js_unfold.
  cbn [snd config set_config openaiApiKey].
  assert (Hconf : forall st, openaiApiKey (config st) = key ->
            isConfigured st = client st && truthy key).
  { intros st Hst. unfold isConfigured, isApiKeyConfigured.
    now rewrite Hst, length_pos_truthy. }
  destruct (truthy key) eqn:E; cbn [snd].
  - split; [rewrite Hconf by reflexivity; rewrite ?E; reflexivity|].
    split; [intros _; reflexivity|].
    split; [reflexivity|]. split; [reflexivity|]. split; [reflexivity|].
    intros ->. discriminate E.
  - split; [rewrite Hconf by reflexivity; rewrite ?E; apply andb_false_r|].
    split; [intros H; exact H|].
    split; [reflexivity|]. split; [reflexivity|]. split; [reflexivity|].
    intros _ env uri report.
    unfold analyzeFile, analyzeRepository. js_unfold.
    rewrite Hconf by reflexivity. rewrite ?E, andb_false_r. split; reflexivity.
Qed.

Lemma changeApiKey_configures_witness :
  client (snd (changeApiKey "" Fixture.initial)) = true
  /\ analyzeFile Fixture.reviewed "/ws/a.ts" (snd (changeApiKey "" Fixture.initial))
     = (Throw (Error "OpenAI API key not configured. Please set it in settings."),
        snd (changeApiKey "" Fixture.initial)).
Proof.
  destruct (changeApiKey_configures "" Fixture.initial)
    as (_ & Hclient & _ & _ & _ & Hrefuse).
  split.
  - apply Hclient. reflexivity.
  - exact (proj1 (Hrefuse eq_refl Fixture.reviewed "/ws/a.ts" true)).
Defined.

(** ** Analysis engine: related files *)

Lemma str_prefix_length (n : nat) (text : string) :
  String.length (str_prefix n text) <= n.
Proof.
  unfold str_prefix. revert text.
  induction n as [|n IH]; intros [|c rest]; cbn; try lia.
  specialize (IH rest). lia.
Qed.

(** What [openFirst] returns is the document that opened, under the first
    extension of the list for which a document opens: the extensions before
    it were tried, one answer of the environment each, and refused. *)
Lemma openFirst_opened env basePath :
  forall exts s f s',
    openFirst env basePath exts s = (Normal (Some f), s') ->
    exists pre ext post document,
      exts = pre ++ ext :: post
      /\ fi_uri f = basePath +++ ext
      /\ openTextDocument env (answers s + length pre) (basePath +++ ext)
         = inr document
      /\ fi_content f = str_prefix 3000 (getText document)
      /\ fi_language f = languageId document
      /\ (forall i e,
            nth_error pre i = Some e ->
            exists err,
              openTextDocument env (answers s + i) (basePath +++ e) = inl err).
Proof.
  induction exts as [|ext exts IH]; intros s f s' Hrun.
  - discriminate Hrun.
  - cbn [openFirst] in Hrun. revert Hrun. js_unfold.
    destruct (openTextDocument env (answers s) (basePath +++ ext)) as [e | doc] eqn:Hopen.
    + intros Hrun. apply IH in Hrun.
      destruct Hrun as (pre & ext' & post & document & -> & Huri & Hdoc & Hc & Hl & Hpre).
      cbn [answers set_answers] in Hdoc, Hpre.
      exists (ext :: pre), ext', post, document.
      split; [reflexivity|]. split; [exact Huri|].
      split.
      { cbn [length]. rewrite <- Hdoc. f_equal. lia. }
      split; [exact Hc|]. split; [exact Hl|].
      intros [|i] e0 Hnth.
      * cbn in Hnth. injection Hnth as <-. exists e.
        now rewrite Nat.add_0_r.
      * cbn [nth_error] in Hnth. destruct (Hpre i e0 Hnth) as (err & Herr).
        exists err. rewrite <- Herr. f_equal. lia.
    + intros [= <- <-]. exists [], ext, exts, doc.
      cbn [fi_content fi_uri fi_language length app].
      rewrite Nat.add_0_r.
      repeat split; auto.
      intros [|i] e0 Hnth; discriminate Hnth.
Qed.

Lemma relatedLoop_bounded env uri (P : FileInfo -> Prop) (all : list string) :
  (forall imp f s s',
      In imp all -> startsWith "." imp = true ->
      openFirst env (joinPath env uri [".."; imp]) extensions s = (Normal (Some f), s') ->
      P f) ->
  forall imports count related s r s',
    relatedLoop env uri imports count related s = (Normal r, s') ->
    incl imports all ->
    Z.of_nat (length related) = count ->
    (count <= 3)%Z ->
    Forall P related ->
    length r <= 3 /\ Forall P r.
Proof.
  intros HP.
  induction imports as [|imp imports IH]; intros count related s r s' Hrun Hincl Hc H3 HF.
  - cbn in Hrun. injection Hrun as <- <-. split; [lia | exact HF].
  - cbn [relatedLoop] in Hrun.
    assert (Hincl' : incl imports all).
    { intros x Hx. apply Hincl. now right. }
    destruct (Z.leb_spec 3 count).
    + cbn in Hrun. injection Hrun as <- <-. split; [lia | exact HF].
    + destruct (startsWith "." imp) eqn:Hrel; [|eapply IH; eauto].
      unfold bind in Hrun.
      destruct (openFirst env (joinPath env uri [".."; imp]) extensions s)
        as [[[f|] | e] s1] eqn:Hopen.
      * eapply IH; [exact Hrun | exact Hincl' | | lia |].
        -- rewrite length_app. cbn [length]. lia.
        -- apply Forall_app. split; [exact HF|]. constructor; [|constructor].
           eapply HP; [apply Hincl; now left | exact Hrel | exact Hopen].
      * eapply IH; eauto.
      * discriminate Hrun.
Qed.

(** X13. [getRelatedFiles] never throws and returns at most three files.
    Each is the document the environment opened for a relative import of the
    file, under the first of the known extensions for which a document
    opens: its path is the import joined to the directory of the file,
    followed by that extension; its content is the first 3000 characters of
    the text of that document, and its language is that of the document. *)
Theorem getRelatedFiles_bounded :
  forall (env : Env) (uri content : string) (s : State),
  exists (r : list FileInfo) (s' : State),
    getRelatedFiles env uri content s = (Normal r, s')
    /\ quiet s s'
    /\ length r <= 3
    /\ Forall
         (fun f =>
            String.length (fi_content f) <= 3000
            /\ exists imp pre ext post k document,
                 In imp (flat_map (fun p => regexCaptures env p content) importPatterns)
                 /\ startsWith "." imp = true
                 /\ extensions = pre ++ ext :: post
                 /\ fi_uri f = joinPath env uri [".."; imp] +++ ext
                 /\ openTextDocument env (k + length pre) (fi_uri f) = inr document
                 /\ fi_content f = str_prefix 3000 (getText document)
                 /\ fi_language f = languageId document
                 /\ (forall i e,
                       nth_error pre i = Some e ->
                       exists err,
                         openTextDocument env (k + i)
                           (joinPath env uri [".."; imp] +++ e) = inl err))
         r.
Proof.
  intros env uri content s.
  destruct (getRelatedFiles_quiet env uri content s) as (r & s' & Hrun & Hq).
  exists r, s'. split; [exact Hrun|]. split; [exact Hq|].
  unfold getRelatedFiles in Hrun. revert Hrun. js_unfold.
  destruct (getWorkspaceFolder env (answers s) uri).
  - intros Hrun.
    eapply relatedLoop_bounded
      with (all := flat_map (fun p => regexCaptures env p content) importPatterns);
      [| exact Hrun | apply incl_refl | reflexivity | lia | constructor].
    intros imp f sa sb Hin Hrel Hopen. cbv beta.
    apply openFirst_opened in Hopen.
    destruct Hopen as (pre & ext & post & document & Hexts & Huri & Hdoc & Hc & Hl & Hpre).
    split; [rewrite Hc; apply str_prefix_length|].
    exists imp, pre, ext, post, (answers sa), document.
    rewrite Huri. repeat split; auto.
  - intros [= <- <-]. split; [cbn; lia | constructor].
Qed.

Lemma getRelatedFiles_bounded_witness :
  exists r s',
    getRelatedFiles Samples.importing "/ws/a.ts" Fixture.tenLines Fixture.initial
    = (Normal r, s')
    /\ map fi_uri r = ["/ws/b.ts"]
    /\ map fi_content r = ["let b = 2;"].
Proof.
  destruct (getRelatedFiles_bounded Samples.importing "/ws/a.ts" Fixture.tenLines
              Fixture.initial) as (r & s' & Hrun & _ & _ & Hall).
  exists r, s'. split; [exact Hrun|].
  vm_compute in Hrun. injection Hrun as <- _.
  inversion Hall as [|f fs Hf _]; subst. clear Hall.
  destruct Hf as (_ & imp & pre & ext & post & k & document & _ & _ & _ & Huri
                  & Hdoc & Hc & _).
  split; [reflexivity|].
  cbn [map]. rewrite Hc. cbn [fi_uri] in Hdoc.
  vm_compute in Hdoc. injection Hdoc as <-. reflexivity.
Defined.

(** The related files of [a.ts] in a workspace whose [a.ts] imports [./b]
    and [lodash], run: only the relative import is followed. *)
Example getRelatedFiles_importing :
  match fst (getRelatedFiles Samples.importing "/ws/a.ts" Fixture.tenLines
               Fixture.initial) with
  | Normal r => map fi_uri r = ["/ws/b.ts"]
  | Throw _ => False
  end.
Proof. vm_compute. reflexivity. Qed.

(** ** Analysis engine: what a scan returns and what it leaves cached *)



Lemma getFilesToAnalyze_quiet env workspaceUri s :
  exists files s',
    getFilesToAnalyze env workspaceUri s = (Normal files, s') /\ quiet s s'.
Proof.
  unfold getFilesToAnalyze. unfold bind at 1. unfold read at 1.
  apply findLoop_total.
Qed.

Lemma announced_quiet report f s :
  config (announced report f s) = config s
  /\ analysisCache (announced report f s) = analysisCache s.
Proof. destruct report; split; reflexivity. Qed.




Lemma NoDup_slice {A : Type} (xs : list A) (from to : Z) :
  NoDup xs -> NoDup (slice xs from to).
Proof.
  intros H. unfold slice.
  set (k := Z.to_nat (sliceIndex (Z.of_nat (length xs)) from)).
  set (n := Z.to_nat (sliceIndex (Z.of_nat (length xs)) to
                      - sliceIndex (Z.of_nat (length xs)) from)).
  rewrite <- (firstn_skipn k xs) in H. apply NoDup_app_remove_l in H.
  rewrite <- (firstn_skipn n (skipn k xs)) in H. now apply NoDup_app_remove_r in H.
Qed.

Lemma slice_map {A B : Type} (f : A -> B) (xs : list A) (from to : Z) :
  map f (slice xs from to) = slice (map f xs) from to.
Proof. unfold slice. now rewrite length_map, skipn_map, firstn_map. Qed.

(** A scan of files with distinct paths, none of which is cached, appends
    one entry per analysed file to the cache. *)
Lemma Scanned_cache env report files s anoms paths s' :
  Scanned env report files s anoms paths s' ->
  NoDup (map fi_uri files) ->
  (forall f, In f files -> ~ In (fi_uri f) (JsMap.keys (analysisCache s))) ->
  exists entries,
    analysisCache s' = analysisCache s ++ entries
    /\ JsMap.keys entries = paths
    /\ flat_map anomalies (JsMap.values entries) = anoms
    /\ flat_map analyzedFiles (JsMap.values entries) = paths.
Proof.
  induction 1 as [s | f rest s found s1 anoms paths s' Hrun Hscan IH
                    | f rest s e s1 anoms paths s' Hrun Hscan IH];
    intros Hnd Hfresh.
  - exists []. rewrite app_nil_r. repeat split.
  - cbn [map] in Hnd. inversion Hnd as [|? ? Hnotin Hnd']; subst.
    apply analyzeFile_inv in Hrun.
    destruct Hrun as (raw & now & context & customRules & sa & sb
                      & _ & _ & _ & _ & -> & Q).
    destruct Q as (_ & _ & Hcache & _).
    rewrite (proj2 (announced_quiet report f s)) in Hcache.
    destruct IH as (entries & Hc & Hk & Ha & Hf); [exact Hnd'| |].
    + intros g Hg. cbn [analysisCache set_analysisCache].
      rewrite Hcache, set_fresh by (apply Hfresh; now left).
      unfold JsMap.keys. rewrite map_app. cbn [map fst].
      intros Hin. apply in_app_or in Hin. destruct Hin as [Hin | [Heq | []]].
      * apply (Hfresh g); [now right | exact Hin].
      * apply Hnotin. rewrite Heq. now apply in_map.
    + cbn [analysisCache set_analysisCache] in Hc.
      rewrite Hcache, set_fresh in Hc by (apply Hfresh; now left).
      rewrite <- app_assoc in Hc. cbn [app] in Hc.
      eexists. split; [exact Hc|].
      cbn [JsMap.keys JsMap.values map fst snd flat_map anomalies analyzedFiles app].
      fold (JsMap.keys entries). fold (JsMap.values entries).
      rewrite Hk, Ha, Hf. repeat split.
  - cbn [map] in Hnd. apply NoDup_cons_iff in Hnd. destruct Hnd as [_ Hnd'].
    apply analyzeFile_inv in Hrun. destruct Hrun as (_ & _ & Hcache & _).
    rewrite (proj2 (announced_quiet report f s)) in Hcache.
    destruct IH as (entries & Hc & Hrest); [exact Hnd'| |].
    + intros g Hg. unfold logged. cbn [analysisCache set_console].
      rewrite Hcache. apply Hfresh. now right.
    + exists entries. split; [|exact Hrest].
      unfold logged in Hc. cbn [analysisCache set_console] in Hc.
      now rewrite Hcache in Hc.
Qed.

(** X15. After a scan that started with an empty cache and listed files
    with distinct paths, the cache holds one entry per analysed file, in the
    order of the scan, and [getCachedResults] without a path returns the
    anomalies and the analysed files the scan returned, or nothing when the
    scan found no anomaly. *)
Theorem analyzeRepository_fills_cache :
  forall (env : Env) (report : bool) (s : State) (folder : string)
         (files : list FileInfo) (s0 : State),
    isConfigured s = true ->
    workspaceFolders env (answers s) = Some folder ->
    getFilesToAnalyze env folder (set_answers (S (answers s)) s) = (Normal files, s0) ->
    NoDup (map fi_uri files) ->
    analysisCache s = [] ->
    exists result s',
      analyzeRepository env report s = (Normal result, s')
      /\ JsMap.keys (analysisCache s') = analyzedFiles result
      /\ (anomalies result <> [] ->
          exists aggregate s'',
            getCachedResults env None s' = (Normal (Some aggregate), s'')
            /\ anomalies aggregate = anomalies result
            /\ analyzedFiles aggregate = analyzedFiles result)
      /\ (anomalies result = [] ->
          getCachedResults env None s' = (Normal None, s')).
Proof.
  intros env report s folder files s0 Hconf Hfolder Hfiles Hnd Hempty.
  destruct (analyzeRepository_total env report s Hconf Hfolder)
    as (files' & s0' & anoms & paths & s1 & Hfiles' & Hscan & Hrun).
  rewrite Hfiles in Hfiles'. injection Hfiles' as <- <-.
  destruct (getFilesToAnalyze_quiet env folder (set_answers (S (answers s)) s))
    as (files' & s0' & Hfiles' & Hq).
  rewrite Hfiles in Hfiles'. injection Hfiles' as <- <-.
  destruct Hq as (_ & _ & Hcache0 & _). cbn [analysisCache set_answers] in Hcache0.
  rewrite Hempty in Hcache0.
  destruct (Scanned_cache Hscan) as (entries & Hc & Hk & Ha & Hf).
  { rewrite slice_map. now apply NoDup_slice. }
  { intros f _. rewrite Hcache0. cbn. tauto. }
  rewrite Hcache0 in Hc. cbn [app] in Hc.
  eexists _, _. split; [exact Hrun|].
  cbn [analysisCache set_answers anomalies analyzedFiles].
  split; [now rewrite Hc|].
  rewrite getCachedResults_all.
  cbn [analysisCache set_answers]. rewrite Hc, Ha, Hf.
  split.
  - intros Hne. destruct anoms as [|a anoms]; [congruence|].
    eexists _, _. split; [reflexivity|]. split; reflexivity.
  - intros ->. reflexivity.
Qed.

Lemma analyzeRepository_fills_cache_witness :
  exists result s',
    analyzeRepository Fixture.flaky true Fixture.initial = (Normal result, s')
    /\ JsMap.keys (analysisCache s') = analyzedFiles result.
Proof.
  destruct (getFilesToAnalyze Fixture.flaky "/ws" (set_answers 1 Fixture.initial))
    as [[files | e] s0] eqn:Hfiles; [|vm_compute in Hfiles; discriminate Hfiles].
  destruct (analyzeRepository_fills_cache Fixture.flaky true Fixture.initial
              eq_refl eq_refl Hfiles) as (result & s' & Hrun & Hkeys & _).
  - vm_compute in Hfiles. injection Hfiles as <- _.
    cbn. repeat constructor; cbn; intuition discriminate.
  - reflexivity.
  - exists result, s'. split; [exact Hrun | exact Hkeys].
Defined.

(** ** Conversation store: the successful send, deletion and restart *)

(** The successful send: the result and the state it leaves. *)
Lemma sendMessage_returns env anomalyId text anomalyContext s c :
  JsMap.get anomalyId (conversations s) = Some c ->
  let userMessage :=
    {| msg_id := "msg-" +++ num (Date_now env (answers s));
       role := user;
       content := text;
       msg_timestamp := Date_now env (1 + answers s) |} in
  let c1 := touch (pushMessage c userMessage) (Date_now env (2 + answers s)) in
  let mid :=
    set_conversations (JsMap.set anomalyId c1 (conversations s))
      (set_answers (3 + answers s) s) in
  forall response s1,
    chat env (filter notSystem (messages c1)) anomalyContext mid
    = (Normal response, s1) ->
    let assistantMessage :=
      {| msg_id := "msg-" +++ num (Date_now env (answers s1) + 1);
         role := assistant;
         content := response;
         msg_timestamp := Date_now env (1 + answers s1) |} in
    let c2 := touch (pushMessage c1 assistantMessage) (Date_now env (2 + answers s1)) in
    let stored := JsMap.set anomalyId c2 (conversations s1) in
    sendMessage env anomalyId text anomalyContext s
    = (Normal assistantMessage,
       set_emitted (emitted s1 ++ [c2])
         (set_globalState stored
            (set_conversations stored (set_answers (3 + answers s1) s1)))).
Proof.
  intros Hc userMessage c1 mid response s1 Hchat assistantMessage c2 stored.
  unfold sendMessage. unfold bind at 1. unfold read at 1. rewrite Hc.
  unfold mutated. js_unfold.
  cbn [answers set_answers conversations set_conversations].
  rewrite set_set_same.
  match goal with
  | |- context [chat env ?h anomalyContext ?st] =>
      change (chat env h anomalyContext st)
        with (chat env (filter notSystem (messages c1)) anomalyContext mid)
  end.
  rewrite Hchat. unfold saveConversations. js_unfold.
  cbn [answers set_answers conversations set_conversations
       globalState set_globalState emitted set_emitted].
  rewrite set_set_same. reflexivity.
Qed.

(** X16. When the conversation exists and the [chat] call inside
    [sendMessage] returns a reply, [sendMessage] returns an assistant message
    holding that reply; the conversation of the map holds the user message
    and the assistant message, in this order, after the messages it had; its
    [updatedAt] is the last clock reading; the other conversations are
    untouched; the saved store equals the map; and the conversation is
    emitted once, after what was emitted before. *)
Theorem sendMessage_appends_both :
  forall (env : Env) (anomalyId text : string) (anomalyContext : AnomalyContext)
         (s : State) (c : Conversation),
    JsMap.get anomalyId (conversations s) = Some c ->
    let userMessage :=
      {| msg_id := "msg-" +++ num (Date_now env (answers s));
         role := user;
         content := text;
         msg_timestamp := Date_now env (1 + answers s) |} in
    let c1 := touch (pushMessage c userMessage) (Date_now env (2 + answers s)) in
    let mid :=
      set_conversations (JsMap.set anomalyId c1 (conversations s))
        (set_answers (3 + answers s) s) in
    forall (response : string) (s1 : State),
      chat env (filter notSystem (messages c1)) anomalyContext mid
      = (Normal response, s1) ->
      let assistantMessage :=
        {| msg_id := "msg-" +++ num (Date_now env (answers s1) + 1);
           role := assistant;
           content := response;
           msg_timestamp := Date_now env (1 + answers s1) |} in
      exists (c2 : Conversation) (s' : State),
        sendMessage env anomalyId text anomalyContext s
        = (Normal assistantMessage, s')
        /\ JsMap.get anomalyId (conversations s') = Some c2
        /\ messages c2 = messages c ++ [userMessage; assistantMessage]
        /\ updatedAt c2 = Date_now env (2 + answers s1)
        /\ conv_id c2 = conv_id c
        /\ createdAt c2 = createdAt c
        /\ (forall k, k <> anomalyId ->
              JsMap.get k (conversations s') = JsMap.get k (conversations s))
        /\ globalState s' = conversations s'
        /\ emitted s' = emitted s ++ [c2].
Proof.
  intros env anomalyId text anomalyContext s c Hc userMessage c1 mid
         response s1 Hchat assistantMessage.
  destruct (@chat_frame env _ _ _ _ _ Hchat) as (Hconv & _ & Hemitted & _).
  exists (touch (pushMessage c1 assistantMessage) (Date_now env (2 + answers s1))).
  eexists. split.
  { exact (@sendMessage_returns env anomalyId text anomalyContext s c Hc
             response s1 Hchat). }
  cbn [answers set_answers conversations set_conversations
       globalState set_globalState emitted set_emitted].
  split; [apply JsMapFacts.get_set_same|].
  split.
  { subst c1. cbn [messages touch pushMessage]. now rewrite <- app_assoc. }
  split; [reflexivity|]. split; [reflexivity|]. split; [reflexivity|].
  split.
  { intros k Hk. rewrite JsMapFacts.get_set_other by congruence.
    rewrite Hconv. subst mid. cbn [conversations set_conversations].
    apply JsMapFacts.get_set_other. congruence. }
  split; [reflexivity|].
  now rewrite Hemitted.
Qed.

Lemma sendMessage_appends_both_witness :
  exists m s',
    sendMessage (Fixture.env (fun _ => Fixture.open) (Fixture.always "Because."))
      "k" "why?" Fixture.aContext Fixture.chatting
    = (Normal m, s')
    /\ content m = "Because."
    /\ option_map (fun c => map role (messages c)) (JsMap.get "k" (conversations s'))
       = Some [assistant; user; assistant]
    /\ globalState s' = conversations s'.
Proof.
  pose proof (@sendMessage_appends_both
                (Fixture.env (fun _ => Fixture.open) (Fixture.always "Because."))
                "k" "why?" Fixture.aContext Fixture.chatting _ eq_refl) as H.
  cbv zeta in H.
  edestruct H as (c2 & s' & Hrun & Hget & Hmsgs & _ & _ & _ & _ & Hsaved & _);
    [reflexivity|].
  eexists _, s'. split; [exact Hrun|].
  split; [reflexivity|].
  split; [rewrite Hget; cbn [option_map]; rewrite Hmsgs; reflexivity|].
  exact Hsaved.
Defined.

(** X17. [deleteConversation] removes the conversation of the anomaly from
    the map and from the saved store, leaves the other conversations as they
    were and emits nothing; a later [startConversation] for that anomaly
    does not bring the old messages back: it creates a conversation that
    holds the opening message only. *)
Theorem deleteConversation_forgets :
  forall (env : Env) (anomaly : Anomaly) (s : State),
  exists (s1 : State),
    deleteConversation (id anomaly) s = (Normal tt, s1)
    /\ JsMap.get (id anomaly) (conversations s1) = None
    /\ (forall k, k <> id anomaly ->
          JsMap.get k (conversations s1) = JsMap.get k (conversations s))
    /\ globalState s1 = conversations s1
    /\ emitted s1 = emitted s
    /\ exists (c : Conversation) (s2 : State),
         startConversation env anomaly s1 = (Normal c, s2)
         /\ (exists m, messages c = [m] /\ role m = assistant
                       /\ content m = openingContent anomaly)
         /\ JsMap.get (id anomaly) (conversations s2) = Some c
         /\ globalState s2 = conversations s2.
Proof.
  intros env anomaly s.
  eexists. split.
  { unfold deleteConversation, saveConversations. js_unfold. reflexivity. }
  cbn [conversations set_conversations globalState set_globalState
       emitted set_emitted].
  split; [apply JsMapFacts.get_delete_same|].
  split.
  { intros k Hk. apply JsMapFacts.get_delete_other. congruence. }
  split; [reflexivity|]. split; [reflexivity|].
  eexists _, _. split.
  { apply startConversation_fresh.
    cbn [conversations set_conversations globalState set_globalState].
    apply JsMapFacts.get_delete_same. }
  split.
  { eexists. split; [reflexivity|]. split; reflexivity. }
  cbn [conversations set_conversations globalState set_globalState].
  split; [apply JsMapFacts.get_set_same | reflexivity].
Qed.

Lemma deleteConversation_forgets_witness :
  exists s1,
    deleteConversation "k" Fixture.chatting = (Normal tt, s1)
    /\ JsMap.get "k" (conversations s1) = None
    /\ JsMap.get "j" (conversations s1) = JsMap.get "j" (conversations Fixture.chatting).
Proof.
  destruct (deleteConversation_forgets Fixture.reviewed
              (Fixture.anAnomaly sev_error "k" None) Fixture.chatting)
    as (s1 & Hrun & Hgone & Hkept & _).
  exists s1. split; [exact Hrun|]. split; [exact Hgone|].
  apply Hkept. discriminate.
Defined.

(** X18. [clearAllConversations] empties the map and the saved store, and
    any [sendMessage] after it fails with 'Conversation not found' and
    changes nothing. *)
Theorem clearAllConversations_then_sendMessage :
  forall (env : Env) (s : State) (anomalyId text : string)
         (anomalyContext : AnomalyContext),
  exists (s1 : State),
    clearAllConversations s = (Normal tt, s1)
    /\ conversations s1 = []
    /\ globalState s1 = []
    /\ getAllConversations s1 = (Normal [], s1)
    /\ sendMessage env anomalyId text anomalyContext s1
       = (Throw (Error "Conversation not found"), s1).
Proof.
  intros env s anomalyId text anomalyContext.
  eexists. split.
  { unfold clearAllConversations, saveConversations. js_unfold. reflexivity. }
  cbn [conversations set_conversations globalState set_globalState].
  split; [reflexivity|]. split; [reflexivity|].
  split.
  { unfold getAllConversations. js_unfold. reflexivity. }
  unfold sendMessage. js_unfold. reflexivity.
Qed.

(** X19. A manager started on a saved store (its map empty, as the
    constructor leaves it) loads every saved conversation, in the order of
    the store, and leaves the store as it is; after it, [startConversation]
    for an anomaly whose conversation was saved returns the saved
    conversation and creates nothing. *)
Theorem loadConversations_restores :
  forall (env : Env) (s : State),
    JsMap.wf (globalState s) ->
    conversations s = [] ->
    exists (s1 : State),
      loadConversations s = (Normal tt, s1)
      /\ conversations s1 = globalState s
      /\ globalState s1 = globalState s
      /\ getAllConversations s1 = (Normal (JsMap.values (globalState s)), s1)
      /\ (forall (anomaly : Anomaly) (c : Conversation),
            JsMap.get (id anomaly) (globalState s) = Some c ->
            startConversation env anomaly s1 = (Normal c, s1)).
Proof.
  intros env s Hwf Hempty.
  assert (Hload : fold_left (fun m kv => JsMap.set (fst kv) (snd kv) m)
                    (globalState s) (conversations s) = globalState s).
  { rewrite Hempty.
    rewrite (@fold_set_fresh Conversation Conversation (fun c => c)
               (globalState s) []) by exact Hwf.
    cbn [app]. rewrite <- (map_id (globalState s)) at 2.
    apply map_ext. now intros [k v]. }
  eexists. split.
  { unfold loadConversations. js_unfold. rewrite Hload. reflexivity. }
  cbn [conversations set_conversations globalState set_globalState].
  split; [reflexivity|]. split; [reflexivity|].
  split.
  { unfold getAllConversations. js_unfold. reflexivity. }
  intros anomaly c Hc. apply startConversation_existing. exact Hc.
Qed.

Lemma loadConversations_restores_witness :
  exists s1,
    loadConversations (set_conversations [] Fixture.chatting) = (Normal tt, s1)
    /\ JsMap.keys (conversations s1) = ["k"].
Proof.
  destruct (@loadConversations_restores Fixture.reviewed
              (set_conversations [] Fixture.chatting))
    as (s1 & Hrun & Hconv & _).
  - cbn. repeat constructor. cbn. tauto.
  - reflexivity.
  - exists s1. split; [exact Hrun|]. rewrite Hconv. reflexivity.
Defined.

(** ** Sidebar: the chat handler *)

(** Posting changes what was posted, and only with a resolved view. *)
Lemma postMessage_fields (m : Outbound) (sb : Sidebar) :
  _view (_postMessage m sb) = _view sb
  /\ _anomalies (_postMessage m sb) = _anomalies sb
  /\ _currentAnomalyId (_postMessage m sb) = _currentAnomalyId sb
  /\ shown (_postMessage m sb) = shown sb.
Proof. unfold _postMessage. destruct (_view sb) eqn:Hv; cbn; auto. Qed.

Lemma postMessage_resolved (m : Outbound) (sb : Sidebar) :
  _view sb = true -> posted (_postMessage m sb) = posted sb ++ [m].
Proof. unfold _postMessage. now intros ->. Qed.

Lemma postMessage_unresolved (m : Outbound) (sb : Sidebar) :
  _view sb = false -> _postMessage m sb = sb.
Proof. unfold _postMessage. now intros ->. Qed.

(** Three messages posted in a row. *)
Lemma postMessage_thrice (m1 m2 m3 : Outbound) (sb : Sidebar) :
  let sb' := _postMessage m3 (_postMessage m2 (_postMessage m1 sb)) in
  _anomalies sb' = _anomalies sb
  /\ _currentAnomalyId sb' = _currentAnomalyId sb
  /\ shown sb' = shown sb
  /\ (_view sb = true -> posted sb' = posted sb ++ [m1; m2; m3]).
Proof.
  intros sb'. subst sb'.
  destruct (postMessage_fields m1 sb) as (V1 & A1 & C1 & S1).
  destruct (postMessage_fields m2 (_postMessage m1 sb)) as (V2 & A2 & C2 & S2).
  destruct (postMessage_fields m3 (_postMessage m2 (_postMessage m1 sb)))
    as (V3 & A3 & C3 & S3).
  split; [congruence|]. split; [congruence|]. split; [congruence|].
  intros Hv.
  rewrite postMessage_resolved by congruence.
  rewrite postMessage_resolved by congruence.
  rewrite postMessage_resolved by congruence.
  now repeat rewrite <- app_assoc.
Qed.

(** X21. [_handleChatMessage] never fails and leaves the list of anomalies,
    the selection and the notifications of the provider as they are. With a
    resolved view it either posts nothing and changes nothing, or posts
    exactly three messages: the loading flag set, then the updated
    conversation of the selected anomaly or a chat error, then the loading
    flag reset. It does nothing when no anomaly is selected or when the
    content is missing or trims to the empty text. *)
Theorem handleChatMessage_brackets :
  forall (env : Env) (trim : string -> string)
         (getTextIn : TextDocument -> Range -> string)
         (content : option string) (sb : Sidebar) (s : State),
  exists (sb' : Sidebar) (s' : State),
    _handleChatMessage env trim getTextIn content sb s = (Normal sb', s')
    /\ _anomalies sb' = _anomalies sb
    /\ _currentAnomalyId sb' = _currentAnomalyId sb
    /\ shown sb' = shown sb
    /\ (_view sb = true ->
        (posted sb' = posted sb /\ s' = s)
        \/ (exists m,
              posted sb' = posted sb ++ [chatLoading true; m; chatLoading false]
              /\ ((exists k anomaly,
                     _currentAnomalyId sb = Some k
                     /\ In anomaly (_anomalies sb)
                     /\ id anomaly = k
                     /\ m = conversationUpdated k (serializeAnomaly anomaly)
                              (match JsMap.get k (conversations s') with
                               | Some c => messages c
                               | None => []
                               end))
                  \/ (exists e, m = chatError e))))
    /\ (_currentAnomalyId sb = None
        \/ content = None
        \/ (exists text, content = Some text /\ trim text = "") ->
        sb' = sb /\ s' = s).
Proof.
  intros env trim getTextIn content sb s.
  unfold _handleChatMessage.
  destruct (_currentAnomalyId sb) as [k|] eqn:Hk;
    [|exists sb, s; unfold ret; repeat split; auto].
  destruct content as [text|];
    [|exists sb, s; unfold ret; repeat split; auto].
  destruct (truthy k) eqn:Tk; cbn [negb orb];
    [|exists sb, s; unfold ret; repeat split; auto].
  destruct (truthy (trim text)) eqn:Tt; cbn [negb];
    [|exists sb, s; unfold ret; repeat split; auto].
  assert (Hblank : Some k = None \/ Some text = None
                   \/ (exists t, Some text = Some t /\ trim t = "") -> False).
  { intros [H | [H | (t & [= <-] & H)]]; try discriminate.
    apply truthy_false in H. congruence. }
  destruct (find (fun a => String.eqb (id a) k) (_anomalies sb))
    as [anomaly|] eqn:Hfind;
    [|exists sb, s; unfold ret; repeat split; auto].
  apply find_some in Hfind. destruct Hfind as [Hin Hid].
  apply String.eqb_eq in Hid.
  unfold bind at 1. unfold tryCatch.
  unfold bind at 1. unfold await at 1.
  destruct (openTextDocument env (answers s) (file (location anomaly)))
    as [e | document].
  { eexists _, _. unfold ret. split; [reflexivity|].
    destruct (postMessage_thrice (chatLoading true) (chatError (message e))
                (chatLoading false) sb) as (HA & HC & HS & HP).
    split; [exact HA|]. split; [congruence|]. split; [exact HS|].
    split; [|intros H; destruct (Hblank H)].
    intros Hv. right. eexists. split; [exact (HP Hv)|].
    right. eexists. reflexivity. }
  unfold bind at 1.
  destruct (sendMessage env k text
              (buildAnomalyContext anomaly document (getTextIn document))
              (set_answers (S (answers s)) s)) as [[response | e] s2].
  - unfold getConversation. js_unfold.
    eexists _, _. split; [reflexivity|].
    match goal with
    | |- context [_postMessage (chatLoading false) (_postMessage ?m _)] =>
        destruct (postMessage_thrice (chatLoading true) m (chatLoading false) sb)
          as (HA & HC & HS & HP)
    end.
    split; [exact HA|]. split; [congruence|]. split; [exact HS|].
    split; [|intros H; destruct (Hblank H)].
    intros Hv. right. eexists. split; [exact (HP Hv)|].
    left. exists k, anomaly. auto.
  - eexists _, _. unfold ret. split; [reflexivity|].
    destruct (postMessage_thrice (chatLoading true) (chatError (message e))
                (chatLoading false) sb) as (HA & HC & HS & HP).
    split; [exact HA|]. split; [congruence|]. split; [exact HS|].
    split; [|intros H; destruct (Hblank H)].
    intros Hv. right. eexists. split; [exact (HP Hv)|].
    right. eexists. reflexivity.
Qed.

Lemma handleChatMessage_brackets_witness :
  exists sb' s',
    _handleChatMessage Samples.answering Samples.trim Samples.wholeText
      (Some "why?") Samples.viewing Fixture.chatting = (Normal sb', s')
    /\ length (posted sb') = 3.
Proof.
  destruct (handleChatMessage_brackets Samples.answering Samples.trim
              Samples.wholeText (Some "why?") Samples.viewing Fixture.chatting)
    as (sb' & s' & Hrun & _ & _ & _ & Hposted & _).
  exists sb', s'. split; [exact Hrun|].
  destruct (Hposted eq_refl) as [[Hsame _] | (m & Hm & _)].
  - vm_compute in Hrun. injection Hrun as <- _.
    vm_compute in Hsame. discriminate Hsame.
  - rewrite Hm. reflexivity.
Defined.

(** X22. With a resolved view, a selected anomaly of the list, a content
    that does not trim to the empty text, a document that opens and a
    conversation for which [chat] returns a reply, [_handleChatMessage]
    stores the content as it was given, untrimmed, and posts between the two
    loading flags the history that the store now holds: the messages the
    conversation had, the user message and the assistant message with the
    reply. The saved store equals the map. *)
Theorem handleChatMessage_posts_history :
  forall (env : Env) (trim : string -> string)
         (getTextIn : TextDocument -> Range -> string)
         (text : string) (sb : Sidebar) (s : State)
         (k : string) (anomaly : Anomaly) (document : TextDocument)
         (c : Conversation),
    _view sb = true ->
    _currentAnomalyId sb = Some k ->
    k <> "" ->
    trim text <> "" ->
    find (fun a => String.eqb (id a) k) (_anomalies sb) = Some anomaly ->
    openTextDocument env (answers s) (file (location anomaly)) = inr document ->
    JsMap.get k (conversations s) = Some c ->
    let context := buildAnomalyContext anomaly document (getTextIn document) in
    let userMessage :=
      {| msg_id := "msg-" +++ num (Date_now env (1 + answers s));
         role := user;
         content := text;
         msg_timestamp := Date_now env (2 + answers s) |} in
    let c1 := touch (pushMessage c userMessage) (Date_now env (3 + answers s)) in
    let mid :=
      set_conversations (JsMap.set k c1 (conversations s))
        (set_answers (4 + answers s) s) in
    forall (response : string) (s1 : State),
      chat env (filter notSystem (messages c1)) context mid = (Normal response, s1) ->
      exists (sb' : Sidebar) (s' : State) (assistantMessage : Message),
        _handleChatMessage env trim getTextIn (Some text) sb s = (Normal sb', s')
        /\ role assistantMessage = assistant
        /\ content assistantMessage = response
        /\ posted sb'
           = posted sb
             ++ [chatLoading true;
                 conversationUpdated k (serializeAnomaly anomaly)
                   (messages c ++ [userMessage; assistantMessage]);
                 chatLoading false]
        /\ option_map messages (JsMap.get k (conversations s'))
           = Some (messages c ++ [userMessage; assistantMessage])
        /\ globalState s' = conversations s'.
Proof.
  intros env trim getTextIn text sb s k anomaly document c
         Hv Hk Hkey Htext Hfind Hopen Hc context userMessage c1 mid
         response s1 Hchat.
  pose proof (@sendMessage_returns env k text context
                (set_answers (S (answers s)) s) c Hc response s1 Hchat) as Hsend.
  cbv zeta in Hsend.
  eexists _, _,
    {| msg_id := "msg-" +++ num (Date_now env (answers s1) + 1);
       role := assistant;
       content := response;
       msg_timestamp := Date_now env (1 + answers s1) |}.
  split.
  { unfold _handleChatMessage. rewrite Hk.
    rewrite (proj2 (truthy_true k) Hkey), (proj2 (truthy_true (trim text)) Htext).
    cbn [negb orb]. rewrite Hfind.
    unfold bind at 1. unfold tryCatch.
    unfold bind at 1. unfold await at 1. rewrite Hopen.
    unfold bind at 1. fold context. rewrite Hsend.
    unfold getConversation. js_unfold.
    cbn [conversations set_conversations set_emitted set_globalState].
    rewrite JsMapFacts.get_set_same. reflexivity. }
  split; [reflexivity|]. split; [reflexivity|].
  split.
  { match goal with
    | |- context [_postMessage (chatLoading false) (_postMessage ?m _)] =>
        destruct (postMessage_thrice (chatLoading true) m (chatLoading false) sb)
          as (_ & _ & _ & HP)
    end.
    rewrite (HP Hv). cbn [messages touch pushMessage].
    now rewrite <- app_assoc. }
  cbn [conversations set_conversations set_emitted set_globalState globalState].
  split; [|reflexivity].
  rewrite JsMapFacts.get_set_same. cbn [option_map messages touch pushMessage].
  now rewrite <- app_assoc.
Qed.

Lemma handleChatMessage_posts_history_witness :
  exists sb' s',
    _handleChatMessage Samples.answering Samples.trim Samples.wholeText
      (Some " why? ") Samples.viewing Fixture.chatting = (Normal sb', s')
    /\ option_map (fun l => map content (tl l))
         (option_map messages (JsMap.get "k" (conversations s')))
       = Some [" why? "; "Because."]
    /\ globalState s' = conversations s'.
Proof.
  assert (Hkey : "k" <> "") by discriminate.
  assert (Htext : Samples.trim " why? " <> "") by (vm_compute; discriminate).
  pose proof (@handleChatMessage_posts_history
                Samples.answering Samples.trim Samples.wholeText " why? "
                Samples.viewing Fixture.chatting "k" _ _ _
                eq_refl eq_refl Hkey Htext eq_refl eq_refl eq_refl) as H.
  cbv zeta in H.
  edestruct H as (sb' & s' & am & Hrun & _ & Hreply & _ & Hstore & Hsaved);
    [reflexivity|].
  exists sb', s'. split; [exact Hrun|].
  split; [|exact Hsaved].
  rewrite Hstore. cbn [option_map Fixture.chatting]. cbn. rewrite Hreply.
  reflexivity.
Defined.

(** X23. With a resolved view, a selected anomaly of the list and a content
    that does not trim to the empty text, a failure inside
    [_handleChatMessage] is reported to the view and not raised: the message
    between the two loading flags is a chat error with the message of the
    error. When the document cannot be opened nothing is stored; when the
    anomaly has no conversation the error is 'Conversation not found' and
    the conversations are as they were; when [chat] fails the user message
    stays in the conversation of the map. *)
Theorem handleChatMessage_reports_failure :
  forall (env : Env) (trim : string -> string)
         (getTextIn : TextDocument -> Range -> string)
         (text : string) (sb : Sidebar) (s : State)
         (k : string) (anomaly : Anomaly),
    _view sb = true ->
    _currentAnomalyId sb = Some k ->
    k <> "" ->
    trim text <> "" ->
    find (fun a => String.eqb (id a) k) (_anomalies sb) = Some anomaly ->
    let failed (e : JsError) (sb' : Sidebar) :=
      posted sb'
      = posted sb ++ [chatLoading true; chatError (message e); chatLoading false] in
    (forall e,
       openTextDocument env (answers s) (file (location anomaly)) = inl e ->
       exists sb',
         _handleChatMessage env trim getTextIn (Some text) sb s
         = (Normal sb', set_answers (S (answers s)) s)
         /\ failed e sb')
    /\ (forall document,
          openTextDocument env (answers s) (file (location anomaly)) = inr document ->
          JsMap.get k (conversations s) = None ->
          exists sb',
            _handleChatMessage env trim getTextIn (Some text) sb s
            = (Normal sb', set_answers (S (answers s)) s)
            /\ failed (Error "Conversation not found") sb')
    /\ (forall document c,
          openTextDocument env (answers s) (file (location anomaly)) = inr document ->
          JsMap.get k (conversations s) = Some c ->
          let context := buildAnomalyContext anomaly document (getTextIn document) in
          let userMessage :=
            {| msg_id := "msg-" +++ num (Date_now env (1 + answers s));
               role := user;
               content := text;
               msg_timestamp := Date_now env (2 + answers s) |} in
          let c1 := touch (pushMessage c userMessage) (Date_now env (3 + answers s)) in
          let mid :=
            set_conversations (JsMap.set k c1 (conversations s))
              (set_answers (4 + answers s) s) in
          forall e s1,
            chat env (filter notSystem (messages c1)) context mid = (Throw e, s1) ->
            exists sb',
              _handleChatMessage env trim getTextIn (Some text) sb s
              = (Normal sb', s1)
              /\ failed e sb'
              /\ option_map messages (JsMap.get k (conversations s1))
                 = Some (messages c ++ [userMessage])
              /\ globalState s1 = globalState s).
Proof.
  intros env trim getTextIn text sb s k anomaly Hv Hk Hkey Htext Hfind failed.
  assert (Hhead :
            _handleChatMessage env trim getTextIn (Some text) sb s
            = (sb0 <- tryCatch
                 (document <- await (fun n =>
                    openTextDocument env n (file (location anomaly))) ;;
                  let context :=
                    buildAnomalyContext anomaly document (getTextIn document) in
                  response <- sendMessage env k text context ;;
                  conversation <- getConversation k ;;
                  ret (_postMessage
                         (conversationUpdated k (serializeAnomaly anomaly)
                            (match conversation with
                             | Some c => messages c
                             | None => []
                             end)) (_postMessage (chatLoading true) sb)))
                 (fun error =>
                    ret (_postMessage (chatError (message error))
                           (_postMessage (chatLoading true) sb))) ;;
               ret (_postMessage (chatLoading false) sb0))%js s).
  { unfold _handleChatMessage. rewrite Hk.
    rewrite (proj2 (truthy_true k) Hkey), (proj2 (truthy_true (trim text)) Htext).
    cbn [negb orb]. rewrite Hfind. reflexivity. }
  assert (Hfail : forall e,
            failed e (_postMessage (chatLoading false)
                        (_postMessage (chatError (message e))
                           (_postMessage (chatLoading true) sb)))).
  { intros e. unfold failed.
    destruct (postMessage_thrice (chatLoading true) (chatError (message e))
                (chatLoading false) sb) as (_ & _ & _ & HP).
    exact (HP Hv). }
  split; [|split].
  - intros e Hopen. eexists. split; [|apply Hfail].
    rewrite Hhead. unfold bind at 1. unfold tryCatch.
    unfold bind at 1. unfold await at 1. rewrite Hopen. reflexivity.
  - intros document Hopen Hnone. eexists.
    split; [|apply (Hfail (Error "Conversation not found"))].
    rewrite Hhead. unfold bind at 1. unfold tryCatch.
    unfold bind at 1. unfold await at 1. rewrite Hopen.
    unfold bind at 1. unfold sendMessage. unfold bind at 1. unfold read at 1.
    cbn [conversations set_answers]. rewrite Hnone. reflexivity.
  - intros document c Hopen Hc context userMessage c1 mid e s1 Hchat.
    pose proof (@sendMessage_run env k text context
                  (set_answers (S (answers s)) s) c Hc e s1 Hchat) as Hsend.
    destruct (@chat_frame env _ _ _ _ _ Hchat) as (Hconv & Hsaved & _ & _).
    eexists. split; [|split; [apply Hfail|]].
    + rewrite Hhead. unfold bind at 1. unfold tryCatch.
      unfold bind at 1. unfold await at 1. rewrite Hopen.
      unfold bind at 1. fold context. rewrite Hsend. reflexivity.
    + rewrite Hconv, Hsaved. subst mid.
      cbn [conversations set_conversations globalState set_answers].
      rewrite JsMapFacts.get_set_same. split; reflexivity.
Qed.

Lemma handleChatMessage_reports_failure_witness :
  exists sb',
    _handleChatMessage Fixture.offline Samples.trim Samples.wholeText
      (Some "why?") Samples.viewing Fixture.initial
    = (Normal sb', set_answers 1 Fixture.initial)
    /\ posted sb'
       = [chatLoading true; chatError "Conversation not found"; chatLoading false].
Proof.
  assert (Hkey : "k" <> "") by discriminate.
  assert (Htext : Samples.trim "why?" <> "") by (vm_compute; discriminate).
  pose proof (@handleChatMessage_reports_failure
                Fixture.offline Samples.trim Samples.wholeText "why?"
                Samples.viewing Fixture.initial "k" _
                eq_refl eq_refl Hkey Htext eq_refl) as H.
  cbv zeta in H. destruct H as (_ & Hmissing & _).
  edestruct Hmissing as (sb' & Hrun & Hposted); [reflexivity | reflexivity |].
  exists sb'. split; [exact Hrun | exact Hposted].
Defined.

(** ** Sidebar: analyses and the initial state *)

(** X24. The repository analysis of the sidebar never fails. With a
    resolved view it posts that the analysis started and then exactly one
    message. When [analyzeRepository] returns, the message is the
    completion with the serialized anomalies and the number of analysed
    files of the result, the anomalies become the list of the provider and
    nothing is shown; when it fails, the message is the error with the
    message of the failure, the list of the provider stays and the failure
    is shown. Once the credentials and a workspace folder are there, the
    message is the completion. *)
Theorem sidebar_analyzeRepository_reports :
  forall (env : Env) (sb : Sidebar) (s : State),
    _view sb = true ->
    exists (sb' : Sidebar) (s' : State),
      _analyzeRepository env sb s = (Normal sb', s')
      /\ ((exists result,
             analyzeRepository env true s = (Normal result, s')
             /\ _anomalies sb' = anomalies result
             /\ posted sb'
                = posted sb
                  ++ [analysisStarted;
                      analysisComplete (serializeAnomalies (anomalies result))
                        (length (analyzedFiles result))]
             /\ shown sb' = shown sb)
          \/ (exists e,
                analyzeRepository env true s = (Throw e, s')
                /\ _anomalies sb' = _anomalies sb
                /\ posted sb'
                   = posted sb ++ [analysisStarted; analysisError (message e)]
                /\ shown sb'
                   = shown sb ++ [ErrorMessage ("Analysis failed: " +++ message e)]))
      /\ (forall folder,
            isConfigured s = true ->
            workspaceFolders env (answers s) = Some folder ->
            exists sent n,
              posted sb' = posted sb ++ [analysisStarted; analysisComplete sent n]).
Proof.
  intros env sb s Hv.
  unfold _analyzeRepository. unfold tryCatch, bind.
  destruct (postMessage_fields analysisStarted sb) as (V1 & A1 & C1 & S1).
  pose proof (postMessage_resolved analysisStarted sb Hv) as P1.
  destruct (analyzeRepository env true s) as [[result | e] s1] eqn:Hrun.
  - eexists _, _. unfold ret. split; [reflexivity|].
    assert (Hposted :
              posted (_postMessage
                        (analysisComplete (serializeAnomalies (anomalies result))
                           (length (analyzedFiles result)))
                        (set_anomalies (anomalies result)
                           (_postMessage analysisStarted sb)))
              = posted sb
                ++ [analysisStarted;
                    analysisComplete (serializeAnomalies (anomalies result))
                      (length (analyzedFiles result))]).
    { rewrite postMessage_resolved by (cbn [_view set_anomalies]; congruence).
      cbn [posted set_anomalies]. rewrite P1. now rewrite <- app_assoc. }
    split.
    + left. exists result. split; [reflexivity|].
      destruct (postMessage_fields
                  (analysisComplete (serializeAnomalies (anomalies result))
                     (length (analyzedFiles result)))
                  (set_anomalies (anomalies result)
                     (_postMessage analysisStarted sb))) as (_ & A2 & _ & S2).
      split; [rewrite A2; reflexivity|].
      split; [exact Hposted|].
      rewrite S2. cbn [shown set_anomalies]. exact S1.
    + intros folder _ _. eexists _, _. exact Hposted.
  - eexists _, _. unfold ret. split; [reflexivity|].
    destruct (postMessage_fields (analysisError (message e))
                (_postMessage analysisStarted sb)) as (_ & A2 & _ & S2).
    split.
    + right. exists e. split; [reflexivity|].
      cbn [_anomalies posted shown show].
      split; [congruence|].
      split; [|congruence].
      rewrite postMessage_resolved by congruence.
      rewrite P1. now rewrite <- app_assoc.
    + intros folder Hconf Hfolder.
      destruct (analyzeRepository_total env true s Hconf Hfolder)
        as (files & s0 & anoms & paths & s2 & _ & _ & Hok).
      rewrite Hok in Hrun. discriminate Hrun.
Qed.

Lemma sidebar_analyzeRepository_reports_witness :
  exists sb' s',
    _analyzeRepository Fixture.flaky Samples.viewing Fixture.initial = (Normal sb', s')
    /\ length (posted sb') = 2.
Proof.
  destruct (@sidebar_analyzeRepository_reports Fixture.flaky Samples.viewing
              Fixture.initial eq_refl) as (sb' & s' & Hrun & _ & Hdone).
  destruct (Hdone "/ws" eq_refl eq_refl) as (sent & n & Hposted).
  exists sb', s'. split; [exact Hrun|]. rewrite Hposted. reflexivity.
Defined.

(** X25. The file analysis of the sidebar never fails. Without an active
    editor it shows a warning, posts nothing and leaves the services as they
    are. With one and a resolved view it posts that the analysis started and
    then, when [analyzeFile] returns, the completion with the serialized
    anomalies and the count 1, and the list of the provider becomes the
    anomalies found, all of them located in the file; when [analyzeFile]
    fails, the error, and the list of the provider stays. *)
Theorem sidebar_analyzeCurrentFile_reports :
  forall (env : Env) (sb : Sidebar) (s : State),
    _view sb = true ->
    _analyzeCurrentFile env None sb s
    = (Normal (show (WarningMessage "No file is currently open") sb), s)
    /\ forall uri,
       exists (sb' : Sidebar) (s' : State),
         _analyzeCurrentFile env (Some uri) sb s = (Normal sb', s')
         /\ ((exists found,
                analyzeFile env uri s = (Normal found, s')
                /\ _anomalies sb' = found
                /\ Forall (fun a => file (location a) = uri) (_anomalies sb')
                /\ posted sb'
                   = posted sb
                     ++ [analysisStarted;
                         analysisComplete (serializeAnomalies found) 1]
                /\ shown sb' = shown sb)
             \/ (exists e,
                   analyzeFile env uri s = (Throw e, s')
                   /\ _anomalies sb' = _anomalies sb
                   /\ posted sb'
                      = posted sb ++ [analysisStarted; analysisError (message e)]
                   /\ shown sb'
                      = shown sb
                        ++ [ErrorMessage ("Analysis failed: " +++ message e)])).
Proof.
  intros env sb s Hv. split; [reflexivity|].
  intros uri. cbn [_analyzeCurrentFile]. unfold tryCatch, bind.
  destruct (postMessage_fields analysisStarted sb) as (V1 & A1 & C1 & S1).
  pose proof (postMessage_resolved analysisStarted sb Hv) as P1.
  destruct (analyzeFile env uri s) as [[found | e] s1] eqn:Hrun.
  - eexists _, _. unfold ret. split; [reflexivity|].
    left. exists found. split; [reflexivity|].
    destruct (postMessage_fields
                (analysisComplete (serializeAnomalies found) 1)
                (set_anomalies found (_postMessage analysisStarted sb)))
      as (_ & A2 & _ & S2).
    rewrite A2, S2. cbn [_anomalies shown set_anomalies].
    split; [reflexivity|].
    split; [exact (@analyzeFile_files env uri s found s1 Hrun)|].
    split; [|exact S1].
    rewrite postMessage_resolved by (cbn [_view set_anomalies]; congruence).
    cbn [posted set_anomalies]. rewrite P1. now rewrite <- app_assoc.
  - eexists _, _. unfold ret. split; [reflexivity|].
    destruct (postMessage_fields (analysisError (message e))
                (_postMessage analysisStarted sb)) as (_ & A2 & _ & S2).
    right. exists e. split; [reflexivity|].
    cbn [_anomalies posted shown show].
    split; [congruence|].
    split; [|congruence].
    rewrite postMessage_resolved by congruence.
    rewrite P1. now rewrite <- app_assoc.
Qed.

Lemma sidebar_analyzeCurrentFile_reports_witness :
  exists sb' s',
    _analyzeCurrentFile Fixture.reviewed (Some "/ws/a.ts") Samples.viewing
      Fixture.initial = (Normal sb', s')
    /\ _anomalies sb' = Fixture.found.
Proof.
  destruct (proj2 (@sidebar_analyzeCurrentFile_reports Fixture.reviewed
                     Samples.viewing Fixture.initial eq_refl) "/ws/a.ts")
    as (sb' & s' & Hrun & [(found & Hfound & Hlist & _) | (e & He & _)]).
  - exists sb', s'. split; [exact Hrun|].
    rewrite Hlist. vm_compute in Hfound. injection Hfound as <- _.
    vm_compute. reflexivity.
  - vm_compute in He. discriminate He.
Defined.

(** X26. [_sendInitialState] never fails and, with a resolved view, posts
    one message: the initial state with the serialized list of the provider
    and whether the client is configured. The list of the provider becomes
    the anomalies of all the cached entries when there is one, and stays
    what it was when the cache holds no anomaly, also after the cache was
    cleared. *)
Theorem sendInitialState_sends_list :
  forall (env : Env) (sb : Sidebar) (s : State),
    _view sb = true ->
    exists (sb' : Sidebar) (s' : State),
      _sendInitialState env sb s = (Normal sb', s')
      /\ posted sb'
         = posted sb
           ++ [initialState (serializeAnomalies (_anomalies sb')) (isConfigured s)]
      /\ (flat_map anomalies (JsMap.values (analysisCache s)) <> [] ->
          _anomalies sb' = flat_map anomalies (JsMap.values (analysisCache s)))
      /\ (flat_map anomalies (JsMap.values (analysisCache s)) = [] ->
          _anomalies sb' = _anomalies sb /\ s' = s)
      /\ (forall s0, clearCache None s0 = (Normal tt, s) ->
          _anomalies sb' = _anomalies sb).
Proof.
  intros env sb s Hv.
  unfold _sendInitialState. unfold bind at 1. rewrite getCachedResults_all.
  destruct (flat_map anomalies (JsMap.values (analysisCache s)))
    as [|a l] eqn:Hall.
  - js_unfold. eexists _, _. split; [reflexivity|].
    destruct (postMessage_fields
                (initialState (serializeAnomalies (_anomalies sb)) (isConfigured s))
                sb) as (_ & A & _ & _).
    rewrite A. split; [now apply postMessage_resolved|].
    split; [congruence|]. split; auto.
  - js_unfold. eexists _, _. split; [reflexivity|].
    match goal with
    | |- context [_postMessage ?m ?b] =>
        destruct (postMessage_fields m b) as (_ & A & _ & _);
        pose proof (@postMessage_resolved m b) as P
    end.
    cbn [_view _anomalies set_anomalies anomalies] in *.
    rewrite A. split; [exact (P Hv)|].
    split; [reflexivity|]. split; [discriminate|].
    intros s0 Hclear. cbn [clearCache] in Hclear. unfold modify in Hclear.
    injection Hclear as <-. cbn in Hall. discriminate Hall.
Qed.

Lemma sendInitialState_sends_list_witness :
  exists sb' s',
    _sendInitialState Fixture.reviewed Samples.viewing Fixture.analysed
    = (Normal sb', s')
    /\ _anomalies sb' = Fixture.found.
Proof.
  destruct (@sendInitialState_sends_list Fixture.reviewed Samples.viewing
              Fixture.analysed eq_refl) as (sb' & s' & Hrun & _ & Hcached & _).
  exists sb', s'. split; [exact Hrun|].
  rewrite Hcached; [vm_compute; reflexivity | vm_compute; discriminate].
Defined.

(** ** The extension: the window shows the current anomalies *)

Lemma diagnosticsOf_updateDiagnostics (l : list Anomaly)
  (collection : JsMap.t (list Diagnostic)) (path : string) :
  diagnosticsOf path (updateDiagnostics l collection)
  = map createDiagnostic (fileAnomalies l path).
Proof.
  unfold diagnosticsOf.
  rewrite updateDiagnostics_entries, get_map_values.
  unfold groupByFile. rewrite group_fold_get.
  destruct (fileAnomalies l path); reflexivity.
Qed.

Lemma filter_filter_and {A : Type} (f g : A -> bool) (l : list A) :
  filter g (filter f l) = filter (fun a => f a && g a) l.
Proof.
  induction l as [|a l IH]; [reflexivity|].
  cbn [filter]. destruct (f a); cbn [andb filter]; [|exact IH].
  destruct (g a); now rewrite IH.
Qed.

(** The decorations of an editor depend on the anomalies of its file
    only. *)
Lemma updateDecorations_of_file (path : string) (l l' : list Anomaly) :
  fileAnomalies l path = fileAnomalies l' path ->
  updateDecorations path l = updateDecorations path l'.
Proof.
  intros H. unfold updateDecorations. rewrite !decorate_fold.
  unfold ofFileAndSeverity.
  rewrite <- !(filter_filter_and (fun a => String.eqb (file (location a)) path)).
  unfold fileAnomalies in H. now rewrite H.
Qed.

Lemma fileAnomalies_idem (l : list Anomaly) (path : string) :
  fileAnomalies (fileAnomalies l path) path = fileAnomalies l path.
Proof.
  unfold fileAnomalies. rewrite filter_filter_and.
  apply filter_ext. intros a. now destruct (String.eqb _ _).
Qed.

Lemma fileAnomalies_update_same (current found : list Anomaly) (uri : string) :
  fileAnomalies (updateCurrentAnomalies current uri found) uri
  = fileAnomalies found uri.
Proof.
  unfold fileAnomalies, updateCurrentAnomalies.
  rewrite filter_app, filter_filter_and.
  rewrite filter_none; [reflexivity|].
  apply Forall_forall. intros a _. now destruct (String.eqb _ _).
Qed.

Lemma fileAnomalies_update_other (current found : list Anomaly) (uri path : string) :
  Forall (fun a => file (location a) = uri) found ->
  path <> uri ->
  fileAnomalies (updateCurrentAnomalies current uri found) path
  = fileAnomalies current path.
Proof.
  intros Hfound Hne. unfold fileAnomalies, updateCurrentAnomalies.
  rewrite filter_app, filter_filter_and.
  rewrite (@filter_none _ _ found).
  - rewrite app_nil_r. apply filter_ext_in. intros a _.
    destruct (String.eqb_spec (file (location a)) uri) as [-> | _]; cbn [negb andb].
    + symmetry. apply String.eqb_neq. congruence.
    + reflexivity.
  - eapply Forall_impl; [|exact Hfound]. intros a ->.
    apply String.eqb_neq. congruence.
Qed.

Lemma decorationsOf_set_same (path : string) (d : Decorations) (ext : Extension) :
  decorationsOf path (setDecorations path d ext) = d.
Proof.
  unfold decorationsOf, setDecorations. cbn [decorations].
  now rewrite JsMapFacts.get_set_same.
Qed.

Lemma decorationsOf_set_other (path other : string) (d : Decorations)
  (ext : Extension) :
  other <> path ->
  decorationsOf other (setDecorations path d ext) = decorationsOf other ext.
Proof.
  intros Hne. unfold decorationsOf, setDecorations. cbn [decorations].
  rewrite JsMapFacts.get_set_other by congruence. reflexivity.
Qed.

(** The update after the analysis of a file keeps the window up to date,
    whether the decorations of the file were set or those of another
    editor are active. *)
Lemma upToDate_after_file (ext : Extension) (uri : string) (found : list Anomaly)
  (decorated : bool) :
  upToDate ext ->
  Forall (fun a => file (location a) = uri) found ->
  (activeTextEditor ext = Some uri -> decorated = true) ->
  let ext1 :=
    set_diagnosticCollection
      (updateFileDiagnostics uri found (diagnosticCollection ext))
      (set_currentAnomalies
         (updateCurrentAnomalies (currentAnomalies ext) uri found) ext) in
  upToDate (if decorated
            then setDecorations uri (updateDecorations uri found) ext1
            else ext1).
Proof.
  intros [Hdiag Hdec] Hfound Hactive ext1.
  assert (Hall : fileAnomalies found uri = found).
  { apply filter_all. eapply Forall_impl; [|exact Hfound].
    intros a ->. apply String.eqb_refl. }
  assert (Hdiag1 : forall path,
            diagnosticsOf path (diagnosticCollection ext1)
            = map createDiagnostic (fileAnomalies (currentAnomalies ext1) path)).
  { intros path. subst ext1.
    cbn [diagnosticCollection currentAnomalies set_diagnosticCollection
         set_currentAnomalies].
    unfold diagnosticsOf, updateFileDiagnostics.
    destruct (String.eqb_spec path uri) as [-> | Hne].
    - rewrite JsMapFacts.get_set_same, fileAnomalies_update_same. reflexivity.
    - rewrite JsMapFacts.get_set_other by congruence.
      rewrite fileAnomalies_update_other by assumption.
      apply Hdiag. }
  assert (Hdec1 : forall path,
            path <> uri ->
            activeTextEditor ext = Some path ->
            decorationsOf path ext
            = updateDecorations path
                (updateCurrentAnomalies (currentAnomalies ext) uri found)).
  { intros path Hne Hpath. rewrite (Hdec path Hpath).
    apply updateDecorations_of_file. symmetry.
    now apply fileAnomalies_update_other. }
  destruct decorated; split; try exact Hdiag1; intros path Hpath.
  - cbn [activeTextEditor setDecorations] in Hpath.
    destruct (String.eqb_spec path uri) as [-> | Hne].
    + rewrite decorationsOf_set_same.
      apply updateDecorations_of_file. symmetry.
      apply fileAnomalies_update_same.
    + rewrite decorationsOf_set_other by assumption.
      now apply Hdec1.
  - destruct (String.eqb_spec path uri) as [-> | Hne].
    + specialize (Hactive Hpath). discriminate Hactive.
    + now apply Hdec1.
Qed.

(** Every command and listener returns, and keeps the window up to date. *)
Lemma react_upToDate (env : Env) (ev : Event) (ext : Extension) (s : State) :
  upToDate ext ->
  exists ext' s',
    react env ev ext s = (Normal ext', s') /\ upToDate ext'.
Proof.
  intros Hup. pose proof Hup as [Hdiag Hdec].
  destruct ev as [| | | editor | autoAnalyze excluded uri]; cbn [react].
  - unfold syntaxtual_analyzeRepository. unfold bind at 1. unfold read at 1.
    destruct (isConfigured s); cbn [negb];
      [|eexists _, _; split; [reflexivity | exact Hup]].
    unfold tryCatch, bind.
    destruct (analyzeRepository env true s) as [[result | e] s1];
      [|eexists _, _; split; [reflexivity | exact Hup]].
    eexists _, _. split; [reflexivity|].
    unfold updateActiveEditorDecorations.
    cbn [activeTextEditor set_diagnosticCollection set_currentAnomalies].
    destruct (activeTextEditor ext) as [active|] eqn:Hactive; split.
    + intros path.
      exact (diagnosticsOf_updateDiagnostics (anomalies result)
               (diagnosticCollection ext) path).
    + intros path Hpath.
      cbn [activeTextEditor notify set_sidebarProvider setDecorations
           set_diagnosticCollection set_currentAnomalies] in Hpath.
      rewrite Hactive in Hpath. injection Hpath as ->.
      unfold decorationsOf.
      cbn [decorations notify set_sidebarProvider setDecorations
           currentAnomalies set_diagnosticCollection set_currentAnomalies].
      rewrite JsMapFacts.get_set_same. cbn [orElse].
      apply updateDecorations_of_file, fileAnomalies_idem.
    + intros path.
      exact (diagnosticsOf_updateDiagnostics (anomalies result)
               (diagnosticCollection ext) path).
    + intros path Hpath.
      cbn [activeTextEditor notify set_sidebarProvider
           set_diagnosticCollection set_currentAnomalies] in Hpath.
      rewrite Hactive in Hpath. discriminate Hpath.
  - unfold syntaxtual_reviewFile.
    destruct (activeTextEditor ext) as [uri|] eqn:Hactive;
      [|eexists _, _; split; [reflexivity | exact Hup]].
    unfold bind at 1. unfold read at 1.
    destruct (isConfigured s); cbn [negb];
      [|eexists _, _; split; [reflexivity | exact Hup]].
    unfold tryCatch, bind.
    destruct (analyzeFile env uri s) as [[found | e] s1] eqn:Hrun;
      [|eexists _, _; split; [reflexivity | exact Hup]].
    eexists _, _. split; [reflexivity|].
    exact (@upToDate_after_file ext uri found true Hup
             (@analyzeFile_files env uri s found s1 Hrun) (fun _ => eq_refl)).
  - unfold syntaxtual_clearAnalysis. js_unfold.
    eexists _, _. split; [reflexivity|].
    cbn [activeTextEditor set_diagnosticCollection set_currentAnomalies].
    destruct (activeTextEditor ext) as [active|] eqn:Hactive; split.
    + intros path. reflexivity.
    + intros path Hpath.
      cbn [activeTextEditor notify set_sidebarProvider clearDecorations
           setDecorations set_diagnosticCollection set_currentAnomalies] in Hpath.
      rewrite Hactive in Hpath. injection Hpath as ->.
      unfold decorationsOf.
      cbn [decorations notify set_sidebarProvider clearDecorations setDecorations].
      rewrite JsMapFacts.get_set_same. reflexivity.
    + intros path. reflexivity.
    + intros path Hpath.
      cbn [activeTextEditor notify set_sidebarProvider
           set_diagnosticCollection set_currentAnomalies] in Hpath.
      rewrite Hactive in Hpath. discriminate Hpath.
  - unfold ret. eexists _, _. split; [reflexivity|].
    unfold onDidChangeActiveTextEditor.
    destruct editor as [active|].
    + split; [exact Hdiag|].
      intros path Hpath.
      cbn [activeTextEditor setDecorations set_activeTextEditor] in Hpath.
      injection Hpath as ->.
      rewrite decorationsOf_set_same.
      apply updateDecorations_of_file, fileAnomalies_idem.
    + split; [exact Hdiag|]. intros path Hpath. discriminate Hpath.
  - unfold onDidSaveTextDocument.
    destruct autoAnalyze; cbn [negb];
      [|eexists _, _; split; [reflexivity | exact Hup]].
    unfold bind at 1. unfold read at 1.
    destruct (isConfigured s); cbn [negb];
      [|eexists _, _; split; [reflexivity | exact Hup]].
    destruct excluded; [eexists _, _; split; [reflexivity | exact Hup]|].
    unfold tryCatch. unfold bind at 1.
    destruct (analyzeFile env uri s) as [[found | e] s1] eqn:Hrun;
      [|js_unfold; eexists _, _; split; [reflexivity | exact Hup]].
    unfold ret. eexists _, _. split; [reflexivity|].
    pose proof (@analyzeFile_files env uri s found s1 Hrun) as Hfound.
    cbn [activeTextEditor set_diagnosticCollection set_currentAnomalies].
    destruct (activeTextEditor ext) as [active|] eqn:Hactive.
    + destruct (String.eqb_spec active uri) as [-> | Hne].
      * apply (@upToDate_after_file ext uri found true Hup Hfound).
        reflexivity.
      * apply (@upToDate_after_file ext uri found false Hup Hfound).
        congruence.
    + apply (@upToDate_after_file ext uri found false Hup Hfound).
      congruence.
Qed.

(** X27. From a window that shows what [currentAnomalies] holds, as it
    does after the activation, whatever commands are run, editors activated
    and documents saved, each of them returns, and in the end the window
    again shows what [currentAnomalies] holds: every file has the
    diagnostics of its anomalies, one for each and in their order, and the
    active editor has the decorations of the anomalies of its file. *)
Theorem window_shows_current_anomalies :
  forall (env : Env) (evs : list Event) (ext : Extension) (s : State),
    upToDate ext ->
    exists (ext' : Extension) (s' : State),
      reactAll env evs ext s = (Normal ext', s')
      /\ (forall path,
            diagnosticsOf path (diagnosticCollection ext')
            = map createDiagnostic (fileAnomalies (currentAnomalies ext') path))
      /\ (forall path,
            activeTextEditor ext' = Some path ->
            decorationsOf path ext'
            = updateDecorations path (currentAnomalies ext')).
Proof.
  intros env evs. induction evs as [|ev rest IH]; intros ext s Hup.
  - exists ext, s. split; [reflexivity | exact Hup].
  - destruct (react_upToDate env ev s Hup) as (ext1 & s1 & Hstep & Hup1).
    destruct (IH ext1 s1 Hup1) as (ext' & s' & Hrest & Hdone).
    exists ext', s'. split; [|exact Hdone].
    cbn [reactAll]. unfold bind. rewrite Hstep. exact Hrest.
Qed.

Lemma activated_upToDate (editor : option string) : upToDate (activated editor).
Proof. split; intros path; reflexivity. Qed.

Lemma window_shows_current_anomalies_witness :
  exists ext' s',
    reactAll Fixture.reviewed
      [ReviewFile; DocumentSaved true false "/ws/b.ts";
       ActiveEditorChanged (Some "/ws/b.ts")]
      (activated (Some "/ws/a.ts")) Fixture.initial = (Normal ext', s')
    /\ diagnosticsOf "/ws/b.ts" (diagnosticCollection ext')
       = map createDiagnostic (fileAnomalies (currentAnomalies ext') "/ws/b.ts").
Proof.
  destruct (@window_shows_current_anomalies Fixture.reviewed
              [ReviewFile; DocumentSaved true false "/ws/b.ts";
               ActiveEditorChanged (Some "/ws/b.ts")]
              (activated (Some "/ws/a.ts")) Fixture.initial
              (activated_upToDate (Some "/ws/a.ts")))
    as (ext' & s' & Hrun & Hdiag & _).
  exists ext', s'. split; [exact Hrun | apply Hdiag].
Defined.

(** A review of [a.ts], a save of [b.ts] and a switch to the editor of
    [b.ts], run: two anomalies, one diagnostic on each file, the decoration
    of the warning on [b.ts], and a sidebar that was not told of the
    save. *)
Example window_after_review_and_save :
  let (r, _) :=
    reactAll Fixture.reviewed
      [ReviewFile; DocumentSaved true false "/ws/b.ts";
       ActiveEditorChanged (Some "/ws/b.ts")]
      (activated (Some "/ws/a.ts")) Fixture.initial in
  match r with
  | Normal ext' =>
      map (fun a => file (location a)) (currentAnomalies ext')
      = ["/ws/a.ts"; "/ws/b.ts"]
      /\ map (fun kv => (fst kv, length (snd kv))) (diagnosticCollection ext')
         = [("/ws/a.ts", 1); ("/ws/b.ts", 1)]
      /\ length (warnings (decorationsOf "/ws/b.ts" ext')) = 1
      /\ _anomalies (sidebarProvider ext')
         <> currentAnomalies ext'
  | Throw _ => False
  end.
Proof. vm_compute. repeat split. discriminate. Qed.

(** ** The extension: the list of the sidebar *)

Lemma updateAnomalies_list (l : list Anomaly) (sb : Sidebar) :
  _anomalies (updateAnomalies l sb) = l.
Proof.
  unfold updateAnomalies.
  destruct (postMessage_fields (anomaliesUpdated (serializeAnomalies l))
              (set_anomalies l sb)) as (_ & A & _ & _).
  rewrite A. reflexivity.
Qed.

Lemma length_updateCurrentAnomalies (current found : list Anomaly) (uri : string) :
  length (updateCurrentAnomalies current uri found)
  + length (fileAnomalies current uri)
  = length current + length found.
Proof.
  unfold updateCurrentAnomalies, fileAnomalies. rewrite length_app.
  induction current as [|a l IH]; cbn [filter length]; [lia|].
  destruct (String.eqb (file (location a)) uri); cbn [negb length]; lia.
Qed.

(** X28. The three commands and the change of the active editor keep the
    list of the sidebar equal to [currentAnomalies]. The listener of saved
    documents never tells the sidebar: it leaves the provider as it is, so
    that after an analysis on save that found another number of anomalies in
    the file than were known, the list of the sidebar is no longer
    [currentAnomalies]. *)
Theorem sidebar_follows_commands_only :
  forall (env : Env) (ext : Extension) (s : State),
    _anomalies (sidebarProvider ext) = currentAnomalies ext ->
    (forall ev ext' s',
       (forall autoAnalyze excluded uri, ev <> DocumentSaved autoAnalyze excluded uri) ->
       react env ev ext s = (Normal ext', s') ->
       _anomalies (sidebarProvider ext') = currentAnomalies ext')
    /\ (forall autoAnalyze excluded uri ext' s',
          react env (DocumentSaved autoAnalyze excluded uri) ext s = (Normal ext', s') ->
          sidebarProvider ext' = sidebarProvider ext
          /\ (forall found s1,
                autoAnalyze = true -> excluded = false -> isConfigured s = true ->
                analyzeFile env uri s = (Normal found, s1) ->
                length found <> length (fileAnomalies (currentAnomalies ext) uri) ->
                _anomalies (sidebarProvider ext') <> currentAnomalies ext')).
Proof.
  intros env ext s Hsync. split.
  - intros ev ext' s' Hev.
    destruct ev as [| | | editor | autoAnalyze excluded uri]; cbn [react];
      [| | | |now destruct (Hev autoAnalyze excluded uri)].
    + unfold syntaxtual_analyzeRepository. unfold bind at 1. unfold read at 1.
      destruct (isConfigured s); cbn [negb];
        [|intros [= <- <-]; exact Hsync].
      unfold tryCatch, bind.
      destruct (analyzeRepository env true s) as [[result | e] s1];
        [|intros [= <- <-]; exact Hsync].
      intros [= <- <-].
      cbn [sidebarProvider notify set_sidebarProvider _anomalies show
           currentAnomalies].
      rewrite updateAnomalies_list.
      unfold updateActiveEditorDecorations.
      cbn [activeTextEditor set_diagnosticCollection set_currentAnomalies].
      destruct (activeTextEditor ext); reflexivity.
    + unfold syntaxtual_reviewFile.
      destruct (activeTextEditor ext) as [uri|];
        [|intros [= <- <-]; exact Hsync].
      unfold bind at 1. unfold read at 1.
      destruct (isConfigured s); cbn [negb];
        [|intros [= <- <-]; exact Hsync].
      unfold tryCatch, bind.
      destruct (analyzeFile env uri s) as [[found | e] s1];
        [|intros [= <- <-]; exact Hsync].
      intros [= <- <-].
      cbn [sidebarProvider notify set_sidebarProvider _anomalies show
           currentAnomalies].
      rewrite updateAnomalies_list. reflexivity.
    + unfold syntaxtual_clearAnalysis. js_unfold. intros [= <- <-].
      cbn [sidebarProvider notify set_sidebarProvider _anomalies show
           currentAnomalies].
      rewrite updateAnomalies_list.
      cbn [activeTextEditor set_diagnosticCollection set_currentAnomalies].
      destruct (activeTextEditor ext); reflexivity.
    + unfold ret. intros [= <- <-]. unfold onDidChangeActiveTextEditor.
      destruct editor; exact Hsync.
  - intros autoAnalyze excluded uri ext' s'. cbn [react].
    unfold onDidSaveTextDocument.
    destruct autoAnalyze; cbn [negb];
      [|intros [= <- <-]; split; [reflexivity | discriminate]].
    unfold bind at 1. unfold read at 1.
    destruct (isConfigured s); cbn [negb];
      [|intros [= <- <-]; split; [reflexivity | discriminate]].
    destruct excluded;
      [intros [= <- <-]; split; [reflexivity | discriminate]|].
    unfold tryCatch. unfold bind at 1.
    destruct (analyzeFile env uri s) as [[found | e] s1];
      [|js_unfold; intros [= <- <-]; split; [reflexivity | discriminate]].
    unfold ret. intros [= <- <-].
    cbn [activeTextEditor set_diagnosticCollection set_currentAnomalies].
    assert (Hlist : forall found0 s0,
              (Normal found, s1) = (Normal found0, s0) ->
              length found0 <> length (fileAnomalies (currentAnomalies ext) uri) ->
              _anomalies (sidebarProvider ext)
              <> updateCurrentAnomalies (currentAnomalies ext) uri found).
    { intros found0 s0 [= <- <-] Hlen Heq.
      pose proof (length_updateCurrentAnomalies (currentAnomalies ext) found uri) as L.
      rewrite <- Heq, Hsync in L. lia. }
    destruct (activeTextEditor ext) as [active|];
      [destruct (String.eqb active uri)|];
      (split; [reflexivity|]; intros found0 s0 _ _ _ Hfound Hlen;
       exact (Hlist found0 s0 Hfound Hlen)).
Qed.

Lemma sidebar_follows_commands_only_witness :
  exists ext' s',
    react Fixture.reviewed (DocumentSaved true false "/ws/b.ts")
      (activated (Some "/ws/a.ts")) Fixture.initial = (Normal ext', s')
    /\ _anomalies (sidebarProvider ext') <> currentAnomalies ext'.
Proof.
  destruct (react Fixture.reviewed (DocumentSaved true false "/ws/b.ts")
              (activated (Some "/ws/a.ts")) Fixture.initial)
    as [[ext' | e] s'] eqn:Hrun; [|vm_compute in Hrun; discriminate Hrun].
  destruct (analyzeFile Fixture.reviewed "/ws/b.ts" Fixture.initial)
    as [[found | e] s1] eqn:Hfound; [|vm_compute in Hfound; discriminate Hfound].
  exists ext', s'. split; [reflexivity|].
  destruct (@sidebar_follows_commands_only Fixture.reviewed
              (activated (Some "/ws/a.ts")) Fixture.initial eq_refl)
    as (_ & Hsaved).
  destruct (Hsaved true false "/ws/b.ts" ext' s' Hrun) as (_ & Hdiff).
  apply (Hdiff found s1 eq_refl eq_refl eq_refl Hfound).
  vm_compute in Hfound. injection Hfound as <- _. cbn. discriminate.
Defined.

(** ** Sidebar: selecting an anomaly *)

(** X29. [_selectAnomaly] does nothing for an identifier that is missing or
    not in the list of the provider. For an anomaly of the list it sets the
    selection and makes sure the anomaly has a conversation, the one it had
    if it had one, also when the document cannot be opened or shown; the
    promise is then rejected and nothing is posted. Otherwise, with a
    resolved view, it posts the conversation once, with the serialized
    anomaly and the messages of the conversation. *)
Theorem selectAnomaly_starts_conversation :
  forall (env : Env) (showTextDocument : nat -> string -> option JsError)
         (sb : Sidebar) (s : State),
    _selectAnomaly env showTextDocument None sb s = (Normal (sb, None), s)
    /\ (forall key,
          find (fun a => String.eqb (id a) key) (_anomalies sb) = None ->
          _selectAnomaly env showTextDocument (Some key) sb s
          = (Normal (sb, None), s))
    /\ (forall key anomaly,
          find (fun a => String.eqb (id a) key) (_anomalies sb) = Some anomaly ->
          exists (sb' : Sidebar) (rejected : option JsError) (c : Conversation)
                 (s' : State),
            _selectAnomaly env showTextDocument (Some key) sb s
            = (Normal (sb', rejected), s')
            /\ _currentAnomalyId sb' = Some key
            /\ _anomalies sb' = _anomalies sb
            /\ JsMap.get key (conversations s') = Some c
            /\ (forall existing,
                  JsMap.get key (conversations s) = Some existing -> c = existing)
            /\ globalState s' = (match JsMap.get key (conversations s) with
                                 | Some _ => globalState s
                                 | None => conversations s'
                                 end)
            /\ (rejected <> None -> posted sb' = posted sb)
            /\ (rejected = None -> _view sb = true ->
                posted sb'
                = posted sb
                  ++ [conversationUpdated key (serializeAnomaly anomaly)
                        (messages c)])).
Proof.
  intros env showTextDocument sb s.
  split; [reflexivity|]. split.
  { intros key Hfind. cbn [_selectAnomaly]. now rewrite Hfind. }
  intros key anomaly Hfind. cbn [_selectAnomaly]. rewrite Hfind.
  apply find_some in Hfind. destruct Hfind as [_ Hid].
  apply String.eqb_eq in Hid. subst key.
  assert (Hstart : exists c s1,
            startConversation env anomaly s = (Normal c, s1)
            /\ JsMap.get (id anomaly) (conversations s1) = Some c
            /\ (forall existing,
                  JsMap.get (id anomaly) (conversations s) = Some existing ->
                  c = existing)
            /\ globalState s1 = (match JsMap.get (id anomaly) (conversations s) with
                                 | Some _ => globalState s
                                 | None => conversations s1
                                 end)).
  { destruct (JsMap.get (id anomaly) (conversations s)) as [existing|] eqn:E.
    - exists existing, s.
      rewrite (startConversation_existing env anomaly s E).
      split; [reflexivity|]. split; [exact E|]. split; [congruence | reflexivity].
    - rewrite (startConversation_fresh env anomaly s E).
      eexists _, _. split; [reflexivity|].
      cbn [conversations set_conversations set_globalState globalState].
      split; [apply JsMapFacts.get_set_same|].
      split; [discriminate | reflexivity]. }
  destruct Hstart as (c & s1 & Hrun & Hget & Hsame & Hsaved).
  unfold bind at 1. rewrite Hrun.
  unfold tryCatch. unfold bind at 1. unfold await at 1.
  destruct (openTextDocument env (answers s1) (file (location anomaly)))
    as [e | document].
  { unfold ret. eexists _, _, c, _. split; [reflexivity|].
    cbn [_currentAnomalyId _anomalies posted set_currentAnomalyId
         conversations globalState set_answers].
    repeat split; auto. intros H. discriminate H. }
  unfold bind at 1. unfold await at 1.
  cbn [answers set_answers].
  destruct (showTextDocument (S (answers s1)) (file (location anomaly)))
    as [rejection|].
  { unfold ret. eexists _, _, c, _. split; [reflexivity|].
    cbn [_currentAnomalyId _anomalies posted set_currentAnomalyId
         conversations globalState set_answers].
    repeat split; auto. intros H. discriminate H. }
  unfold ret. eexists _, _, c, _. split; [reflexivity|].
  match goal with
  | |- context [_postMessage ?m ?b] =>
      destruct (postMessage_fields m b) as (_ & A & C & _);
      pose proof (@postMessage_resolved m b) as P
  end.
  rewrite A, C.
  cbn [_currentAnomalyId _anomalies _view posted set_currentAnomalyId
       conversations globalState set_answers] in *.
  repeat split; auto. intros H. now destruct H.
Qed.

Lemma selectAnomaly_starts_conversation_witness :
  exists sb' rejected c s',
    _selectAnomaly Fixture.reviewed (fun _ _ => None) (Some "k")
      Samples.viewing Fixture.initial = (Normal (sb', rejected), s')
    /\ JsMap.get "k" (conversations s') = Some c.
Proof.
  destruct (@selectAnomaly_starts_conversation Fixture.reviewed (fun _ _ => None)
              Samples.viewing Fixture.initial) as (_ & _ & Hselect).
  destruct (Hselect "k" _ eq_refl) as (sb' & rejected & c & s' & Hrun & _ & _ & Hget & _).
  exists sb', rejected, c, s'. split; [exact Hrun | exact Hget].
Defined.

(** ** The extension: clearing the analysis *)

(** X20. The command [syntaxtual.clearAnalysis] returns and leaves no
    anomaly, no diagnostic on any file, no decoration on the active editor
    and no cached result, for any path and for none; with a resolved view it
    posts the empty list to the sidebar, whose next initial state holds no
    anomaly. The conversations are kept. *)
Theorem clearAnalysis_clears_all_but_conversations :
  forall (env : Env) (ext : Extension) (s : State),
  exists (ext' : Extension) (s' : State),
    syntaxtual_clearAnalysis ext s = (Normal ext', s')
    /\ currentAnomalies ext' = []
    /\ (forall path, diagnosticsOf path (diagnosticCollection ext') = [])
    /\ (forall path,
          activeTextEditor ext = Some path ->
          decorationsOf path ext' = noDecorations)
    /\ (forall target, getCachedResults env target s' = (Normal None, s'))
    /\ conversations s' = conversations s
    /\ globalState s' = globalState s
    /\ (_view (sidebarProvider ext) = true ->
        posted (sidebarProvider ext')
        = posted (sidebarProvider ext) ++ [anomaliesUpdated []])
    /\ (exists sb2,
          _sendInitialState env (sidebarProvider ext') s' = (Normal sb2, s')
          /\ _anomalies sb2 = []).
Proof.
  intros env ext s.
  unfold syntaxtual_clearAnalysis. js_unfold.
  eexists _, _. split; [reflexivity|].
  cbn [activeTextEditor set_diagnosticCollection set_currentAnomalies
       set_analysisCache conversations globalState].
  assert (Hlist : forall e0,
            _anomalies (sidebarProvider
               (notify (InformationMessage "Syntaxtual: Analysis cleared")
                  (set_sidebarProvider (updateAnomalies [] (sidebarProvider e0)) e0)))
            = []).
  { intros e0. cbn [sidebarProvider notify set_sidebarProvider _anomalies show].
    apply updateAnomalies_list. }
  split.
  { destruct (activeTextEditor ext); reflexivity. }
  split.
  { intros path. destruct (activeTextEditor ext); reflexivity. }
  split.
  { intros path Hpath. rewrite Hpath. unfold decorationsOf.
    cbn [decorations notify set_sidebarProvider clearDecorations setDecorations].
    now rewrite JsMapFacts.get_set_same. }
  split.
  { intros [path|]; [reflexivity|]. now rewrite getCachedResults_all. }
  split; [reflexivity|]. split; [reflexivity|].
  split.
  { intros Hv.
    destruct (activeTextEditor ext);
      cbn [sidebarProvider notify set_sidebarProvider posted show
           clearDecorations setDecorations set_diagnosticCollection
           set_currentAnomalies];
      unfold updateAnomalies;
      rewrite postMessage_resolved by exact Hv; reflexivity. }
  unfold _sendInitialState. unfold bind at 1. rewrite getCachedResults_all.
  cbn [analysisCache set_analysisCache JsMap.values JsMap.empty map flat_map].
  js_unfold. eexists. split; [reflexivity|].
  match goal with
  | |- context [_postMessage ?m ?b] =>
      destruct (postMessage_fields m b) as (_ & A & _ & _)
  end.
  rewrite A. destruct (activeTextEditor ext); apply Hlist.
Qed.

Lemma clearAnalysis_clears_all_but_conversations_witness :
  exists ext' s',
    syntaxtual_clearAnalysis (activated (Some "/ws/a.ts")) Fixture.analysed
    = (Normal ext', s')
    /\ getCachedResults Fixture.reviewed None s' = (Normal None, s')
    /\ decorationsOf "/ws/a.ts" ext' = noDecorations.
Proof.
  destruct (clearAnalysis_clears_all_but_conversations Fixture.reviewed
              (activated (Some "/ws/a.ts")) Fixture.analysed)
    as (ext' & s' & Hrun & _ & _ & Hdec & Hcache & _).
  exists ext', s'. split; [exact Hrun|].
  split; [apply Hcache | apply Hdec; reflexivity].
Defined.
